(** * Daily GMT price tracker: a shallow embedding of [script.js]

    The script keeps a series of daily opening prices of one trading pair in
    [localStorage], completes it from the exchange's candle endpoint in
    windows of 1000 days, and re-arms itself for the next UTC midnight.

    The embedding follows the script function by function.  The parts of the
    JavaScript platform the script relies on ([Date], [Number.prototype.toFixed],
    [parseInt], [parseFloat], [JSON], [Array.prototype.sort], [localStorage])
    are modelled after ECMA-262; time values and numbers are exact integers
    and dyadic rationals, so no rounding is hidden. *)

From Stdlib Require Import ZArith Lia Ascii String List Bool.
From stdpp Require Import base tactics option list gmap strings sorting.

Local Open Scope Z_scope.

(** ** Outcomes of JavaScript computations *)

(** The exceptions the script can meet. *)
Inductive JSError : Type :=
  | RangeError (msg : string)
  | TypeError (msg : string)
  | SyntaxError (msg : string)
  | SecurityError (msg : string)
  | QuotaExceededError (msg : string)
  | HttpError (status : Z)
  | NetworkError (msg : string).

(** A completion: a normal value or a thrown exception. *)
Inductive result (A : Type) : Type :=
  | Ok (a : A)
  | Throw (e : JSError).
Arguments Ok {A} a.
Arguments Throw {A} e.

(** [try { body } catch (e) { handler e }] *)
Definition try_catch {A} (body : result A) (handler : JSError → result A) : result A :=
  match body with
  | Ok a => Ok a
  | Throw e => handler e
  end.

(** ** Strings *)

Module Str.

Definition chars (s : string) : list ascii := list_ascii_of_string s.
Definition of_chars (l : list ascii) : string := string_of_list_ascii l.

(** [a < b] on strings: lexicographic on code units. *)
Definition ltb (a b : string) : bool := String.ltb a b.
(** [a >= b] on strings. *)
Definition geb (a b : string) : bool := negb (String.ltb a b).

(** The part of [s] in front of the first [sep]: [s.split(sep)[0]]. *)
Fixpoint before (sep : ascii) (s : string) : string :=
  match s with
  | EmptyString => EmptyString
  | String c rest => if Ascii.eqb c sep then EmptyString else String c (before sep rest)
  end.

Definition digit_char (d : Z) : ascii := ascii_of_nat (Z.to_nat (48 + d mod 10)).

Definition digit_val (c : ascii) : option Z :=
  let n := Z.of_nat (nat_of_ascii c) in
  if (48 <=? n) && (n <=? 57) then Some (n - 48) else None.

(** The last [width] decimal digits of [n], most significant first. *)
Fixpoint pad (width : nat) (n : Z) : list ascii :=
  match width with
  | O => []
  | S w => pad w (n / 10) ++ [digit_char n]
  end.

(** Value of a digit sequence read left to right, [None] if some character
    is not a decimal digit. *)
Fixpoint digits_val (acc : Z) (l : list ascii) : option Z :=
  match l with
  | [] => Some acc
  | c :: rest =>
      match digit_val c with
      | Some d => digits_val (10 * acc + d) rest
      | None => None
      end
  end.

(** Number of decimal digits of a positive integer, by repeated division. *)
Fixpoint ndigits (fuel : nat) (n : Z) : nat :=
  match fuel with
  | O => 1%nat
  | S f => if n <? 10 then 1%nat else S (ndigits f (n / 10))
  end.

(** Decimal numeral of a non-negative integer, without leading zeros. *)
Definition of_Z (n : Z) : list ascii := pad (ndigits (Z.to_nat (Z.log2 n)) n) n.

End Str.

(** ** Dates (ECMA-262, 21.4.1) *)

Module Date.

Definition msPerDay : Z := 86400000.
Definition maxTime : Z := 8640000000000000.

Definition Day (t : Z) : Z := t / msPerDay.
Definition TimeWithinDay (t : Z) : Z := t mod msPerDay.

Definition DaysInYear (y : Z) : Z :=
  if (y mod 4 =? 0) && (negb (y mod 100 =? 0) || (y mod 400 =? 0)) then 366 else 365.

Definition DayFromYear (y : Z) : Z :=
  365 * (y - 1970) + (y - 1969) / 4 - (y - 1901) / 100 + (y - 1601) / 400.

(** The year a day number falls in: the largest [y] with
    [DayFromYear y <= d].  The quotient by the mean year length is off by
    at most one. *)
Definition YearFromDay (d : Z) : Z :=
  let y0 := 1970 + d * 400 / 146097 in
  if d <? DayFromYear y0 then y0 - 1
  else if DayFromYear (y0 + 1) <=? d then y0 + 1
  else y0.

Definition YearFromTime (t : Z) : Z := YearFromDay (Day t).
Definition InLeapYear (y : Z) : Z := if DaysInYear y =? 366 then 1 else 0.
Definition DayWithinYear (t : Z) : Z := Day t - DayFromYear (YearFromTime t).

(** Day within the year on which month [m] (0 = January) starts. *)
Definition monthStart (leap m : Z) : Z :=
  match m with
  | 0 => 0
  | 1 => 31
  | 2 => 59 + leap
  | 3 => 90 + leap
  | 4 => 120 + leap
  | 5 => 151 + leap
  | 6 => 181 + leap
  | 7 => 212 + leap
  | 8 => 243 + leap
  | 9 => 273 + leap
  | 10 => 304 + leap
  | 11 => 334 + leap
  | _ => 365 + leap
  end.

Definition MonthFromDayWithinYear (leap d : Z) : Z :=
  if d <? 31 then 0
  else if d <? 59 + leap then 1
  else if d <? 90 + leap then 2
  else if d <? 120 + leap then 3
  else if d <? 151 + leap then 4
  else if d <? 181 + leap then 5
  else if d <? 212 + leap then 6
  else if d <? 243 + leap then 7
  else if d <? 273 + leap then 8
  else if d <? 304 + leap then 9
  else if d <? 334 + leap then 10
  else 11.

Definition MonthFromTime (t : Z) : Z :=
  MonthFromDayWithinYear (InLeapYear (YearFromTime t)) (DayWithinYear t).

Definition DateFromTime (t : Z) : Z :=
  DayWithinYear t - monthStart (InLeapYear (YearFromTime t)) (MonthFromTime t) + 1.

Definition HourFromTime (t : Z) : Z := (t / 3600000) mod 24.
Definition MinFromTime (t : Z) : Z := (t / 60000) mod 60.
Definition SecFromTime (t : Z) : Z := (t / 1000) mod 60.
Definition msFromTime (t : Z) : Z := t mod 1000.

(** [MakeDay(year, month, date)]: months beyond 0..11 carry into the year,
    dates beyond the month carry linearly into the following days. *)
Definition MakeDay (year month date : Z) : Z :=
  let ym := year + month / 12 in
  let mn := month mod 12 in
  DayFromYear ym + monthStart (InLeapYear ym) mn + date - 1.

Definition MakeTime (hour min sec ms : Z) : Z :=
  hour * 3600000 + min * 60000 + sec * 1000 + ms.

Definition MakeDate (day time : Z) : Z := day * msPerDay + time.

(** A [Date] object holds a time value; [None] is NaN ("Invalid Date"). *)
Abbreviation t := (option Z) (only parsing).

Definition TimeClip (time : Z) : t :=
  if Z.abs time <=? maxTime then Some time else None.

Definition getTime (d : t) : option Z := d.

(** [new Date(other)] for a [Date] argument copies the time value. *)
Definition copy (d : t) : t := d.

Definition getUTCFullYear (d : t) : option Z := YearFromTime <$> d.
Definition getUTCMonth (d : t) : option Z := MonthFromTime <$> d.
Definition getUTCDate (d : t) : option Z := DateFromTime <$> d.

(** [d.setUTCDate(dt)] *)
Definition setUTCDate (d : t) (dt : option Z) : t :=
  match d, dt with
  | Some tv, Some dt =>
      TimeClip (MakeDate (MakeDay (YearFromTime tv) (MonthFromTime tv) dt) (TimeWithinDay tv))
  | _, _ => None
  end.

(** [d.setUTCHours(h, m, s, ms)] *)
Definition setUTCHours (d : t) (h m s ms : Z) : t :=
  match d with
  | Some tv => TimeClip (MakeDate (Day tv) (MakeTime h m s ms))
  | None => None
  end.

(** [d.setTime(v)] *)
Definition setTime (v : option Z) : t :=
  match v with
  | Some tv => TimeClip tv
  | None => None
  end.

(** [Date.UTC(year, month, date, h, m, s, ms)]; a year in 0..99 counts
    from 1900. *)
Definition UTC (year month date : option Z) (h m s ms : Z) : option Z :=
  match year, month, date with
  | Some y, Some mo, Some dt =>
      let yr := if (0 <=? y) && (y <=? 99) then 1900 + y else y in
      TimeClip (MakeDate (MakeDay yr mo dt) (MakeTime h m s ms))
  | _, _, _ => None
  end.

(** Local time (ECMA-262, 21.4.1.25 and 21.4.1.26).  [tza t true] is the
    offset of the host's zone from UTC, in ms, at the time value [t], and
    [tza t false] the offset in effect at the local time [t]. *)
Section Local.
Variable tza : Z → bool → Z.

Definition LocalTime (tv : Z) : Z := tv + tza tv true.
Definition toUTC (tv : Z) : Z := tv - tza tv false.

Definition getDate (d : t) : option Z := (λ tv, DateFromTime (LocalTime tv)) <$> d.

(** [d.setDate(dt)] *)
Definition setDate (d : t) (dt : option Z) : t :=
  match d, dt with
  | Some tv, Some dt =>
      let lt := LocalTime tv in
      TimeClip (toUTC (MakeDate (MakeDay (YearFromTime lt) (MonthFromTime lt) dt)
                               (TimeWithinDay lt)))
  | _, _ => None
  end.
End Local.

(** Relational operators on [Date] objects compare time values; any
    comparison with NaN is false. *)
Definition leb (a b : t) : bool :=
  match a, b with
  | Some x, Some y => x <=? y
  | _, _ => false
  end.

Definition gtb (a b : t) : bool :=
  match a, b with
  | Some x, Some y => y <? x
  | _, _ => false
  end.

(** [a - b] on [Date] objects. *)
Definition sub (a b : t) : option Z :=
  match a, b with
  | Some x, Some y => Some (x - y)
  | _, _ => None
  end.

(** The year of the ISO format: four digits for 0..9999, else a sign and
    six digits. *)
Definition isoYear (y : Z) : list ascii :=
  if (0 <=? y) && (y <=? 9999) then Str.pad 4 y
  else (if y <? 0 then "-"%char else "+"%char) :: Str.pad 6 (Z.abs y).

(** [d.toISOString()]: [YYYY-MM-DDTHH:mm:ss.sssZ], a [RangeError] on an
    invalid date. *)
Definition toISOString (d : t) : result string :=
  match d with
  | None => Throw (RangeError "Invalid time value")
  | Some tv =>
      Ok (Str.of_chars
            (isoYear (YearFromTime tv) ++ ["-"%char] ++
             Str.pad 2 (MonthFromTime tv + 1) ++ ["-"%char] ++
             Str.pad 2 (DateFromTime tv) ++ ["T"%char] ++
             Str.pad 2 (HourFromTime tv) ++ [":"%char] ++
             Str.pad 2 (MinFromTime tv) ++ [":"%char] ++
             Str.pad 2 (SecFromTime tv) ++ ["."%char] ++
             Str.pad 3 (msFromTime tv) ++ ["Z"%char]))
  end.

Definition DaysInMonth (y m : Z) : Z :=
  monthStart (InLeapYear y) m - monthStart (InLeapYear y) (m - 1).

(** A calendar date read off its fields, if the month and the day exist. *)
Definition civil (y m d : Z) : option Z :=
  if (1 <=? m) && (m <=? 12) && (1 <=? d) && (d <=? DaysInMonth y m)
  then Some (MakeDate (MakeDay y (m - 1) d) 0)
  else None.

Definition field (l : list ascii) : option Z := Str.digits_val 0 l.

(** [Date.parse] on the date-only forms of the ISO format, [YYYY-MM-DD]
    and, with an expanded year, [+YYYYYY-MM-DD] and [-YYYYYY-MM-DD]
    (read as UTC midnight): the forms [toISOString] gives the script its
    dates in.  A string with a field out of range is not a date.  The
    format of the standard has further forms ([YYYY], [YYYY-MM] and those
    with a time), and a host may read still other strings; all of these
    are read as not a date here, so this [parse] is the script's only on
    the strings it reads as dates, and the statements that depend on the
    order of dates are made for such strings. *)
Definition parse (s : string) : option Z :=
  match Str.chars s with
  | [y1; y2; y3; y4; "-"%char; m1; m2; "-"%char; d1; d2] =>
      y ← field [y1; y2; y3; y4];
      m ← field [m1; m2];
      d ← field [d1; d2];
      civil y m d
  | [sg; y1; y2; y3; y4; y5; y6; "-"%char; m1; m2; "-"%char; d1; d2] =>
      y ← field [y1; y2; y3; y4; y5; y6];
      m ← field [m1; m2];
      d ← field [d1; d2];
      if Ascii.eqb sg "+"%char then civil y m d ≫= TimeClip
      else if Ascii.eqb sg "-"%char then
        (if y =? 0 then None else civil (- y) m d ≫= TimeClip)
      else None
  | _ => None
  end.

(** [new Date(s)] for a string. *)
Definition of_string (s : string) : t := parse s.

(** [new Date(v)] for a number that is an integer or NaN. *)
Definition of_number (v : option Z) : t := setTime v.

End Date.

(** ** Numbers (ECMA-262, 6.1.6.1 and 21.1.3.3)

    A Number is a binary64 value.  A finite one is kept as the exact dyadic
    rational [m * 2^e]; the sign of a zero is dropped, which none of the
    operations below can observe. *)

Module Num.

Inductive number : Type :=
  | NaN
  | Inf (neg : bool)
  | Fin (m e : Z).

Definition of_Z (n : Z) : number := Fin n 0.

(** [n / (d * 2^e)] as a fraction of integers. *)
Definition scale (n d e : Z) : Z * Z :=
  if 0 <=? e then (n, d * 2 ^ e) else (n * 2 ^ (- e), d).

Definition round_half_even (n d : Z) : Z :=
  let q := n / d in
  let r := n mod d in
  if 2 * r <? d then q
  else if d <? 2 * r then q + 1
  else if Z.even q then q else q + 1.

(** The binary64 value nearest to [n / d] (ties to even), for [0 <= n]
    and [0 < d]. *)
Definition binary64 (n d : Z) : number :=
  if n =? 0 then Fin 0 0
  else
    let e0 := Z.log2 n - Z.log2 d - 52 in
    let e1 := (let '(a, b) := scale n d e0 in if a <? b * 2 ^ 52 then e0 - 1 else e0) in
    let e := Z.max e1 (-1074) in
    let '(a, b) := scale n d e in
    let m := round_half_even a b in
    let '(m, e) := if m =? 2 ^ 53 then (2 ^ 52, e + 1) else (m, e) in
    if 971 <? e then Inf false else Fin m e.

Definition neg (x : number) : number :=
  match x with
  | NaN => NaN
  | Inf s => Inf (negb s)
  | Fin m e => Fin (- m) e
  end.

(** The Number denoted by the decimal [mant * 10^exp10], [0 <= mant]. *)
Definition of_decimal (mant exp10 : Z) : number :=
  if 0 <=? exp10 then binary64 (mant * 10 ^ exp10) 1
  else binary64 mant (10 ^ (- exp10)).

(** The white space [parseFloat] and [parseInt] skip, among the ASCII
    characters; the white space beyond ASCII they also skip (as U+00A0) is
    not modelled. *)
Definition is_ws (c : ascii) : bool :=
  let n := nat_of_ascii c in
  (n =? 32)%nat || ((9 <=? n)%nat && (n <=? 13)%nat).

Fixpoint skip_ws (l : list ascii) : list ascii :=
  match l with
  | c :: rest => if is_ws c then skip_ws rest else l
  | [] => []
  end.

Fixpoint take_digits (l : list ascii) : list ascii * list ascii :=
  match l with
  | c :: rest =>
      match Str.digit_val c with
      | Some _ => let '(ds, r) := take_digits rest in (c :: ds, r)
      | None => ([], l)
      end
  | [] => ([], [])
  end.

Definition take_sign (l : list ascii) : bool * list ascii :=
  match l with
  | "-"%char :: r => (true, r)
  | "+"%char :: r => (false, r)
  | _ => (false, l)
  end.

Fixpoint starts_with (p l : list ascii) : bool :=
  match p, l with
  | [], _ => true
  | a :: p', b :: l' => Ascii.eqb a b && starts_with p' l'
  | _ :: _, [] => false
  end.

Definition digits_Z (l : list ascii) : Z := default 0 (Str.digits_val 0 l).

(** The exponent part [e±ddd] at the head of [l], 0 if there is none. *)
Definition exponent_part (l : list ascii) : Z :=
  match l with
  | c :: r =>
      if Ascii.eqb c "e"%char || Ascii.eqb c "E"%char then
        let '(sg, r') := take_sign r in
        let '(ds, _) := take_digits r' in
        match ds with
        | [] => 0
        | _ => if sg then - digits_Z ds else digits_Z ds
        end
      else 0
  | [] => 0
  end.

(** [parseFloat(s)]: the longest prefix of the trimmed string that is a
    decimal literal, NaN if there is none. *)
Definition parseFloat (s : string) : number :=
  let '(sg, l) := take_sign (skip_ws (Str.chars s)) in
  if starts_with (Str.chars "Infinity") l then Inf sg
  else
    let '(ip, r1) := take_digits l in
    let '(fp, r2) := match r1 with
                     | "."%char :: r => take_digits r
                     | _ => ([], r1)
                     end in
    match ip ++ fp with
    | [] => NaN
    | ds =>
        let x := of_decimal (digits_Z ds) (exponent_part r2 - Z.of_nat (length fp)) in
        if sg then neg x else x
    end.

Definition hex_val (c : ascii) : option Z :=
  let n := Z.of_nat (nat_of_ascii c) in
  if (48 <=? n) && (n <=? 57) then Some (n - 48)
  else if (97 <=? n) && (n <=? 102) then Some (n - 87)
  else if (65 <=? n) && (n <=? 70) then Some (n - 55)
  else None.

(** Value of the longest prefix of digits in the given radix, with the
    number of digits read. *)
Fixpoint radix_prefix (digit : ascii → option Z) (radix acc : Z) (l : list ascii) : Z * nat :=
  match l with
  | c :: rest =>
      match digit c with
      | Some d => let '(v, k) := radix_prefix digit radix (radix * acc + d) rest in (v, S k)
      | None => (acc, O)
      end
  | [] => (acc, O)
  end.

(** [parseInt(s)] for a string, without a radix argument: NaN ([None]) if
    no digit follows the optional sign.  Only the integers that are exact
    as Numbers matter to the script. *)
Definition parseInt_string (s : string) : option Z :=
  let '(sg, l) := take_sign (skip_ws (Str.chars s)) in
  let '(v, k) :=
    match l with
    | "0"%char :: x :: r =>
        if Ascii.eqb x "x"%char || Ascii.eqb x "X"%char
        then radix_prefix hex_val 16 0 r
        else radix_prefix Str.digit_val 10 0 l
    | _ => radix_prefix Str.digit_val 10 0 l
    end in
  match k with
  | O => None
  | _ => Some (if sg then - v else v)
  end.

(** [m1 * 2^e1 <= m2 * 2^e2] *)
Definition leb_dyadic (m1 e1 m2 e2 : Z) : bool :=
  let k := Z.min e1 e2 in
  m1 * 2 ^ (e1 - k) <=? m2 * 2 ^ (e2 - k).

(** [10^21 <= m * 2^e] *)
Definition ge_1e21 (m e : Z) : bool := leb_dyadic (10 ^ 21) 0 m e.

(** A positive Number prints in plain decimal notation when its shortest
    decimal lies in [1e-6, 1e21), that is from the Number nearest to
    [1e-6] up to, but excluding, [1e21] (which is a Number). *)
Definition prints_plain (m e : Z) : bool :=
  match binary64 1 (10 ^ 6) with
  | Fin m0 e0 => leb_dyadic m0 e0 m e && negb (ge_1e21 m e)
  | _ => false
  end.

(** The integer part of [m * 2^e], rounded towards zero. *)
Definition trunc (m e : Z) : Z :=
  if 0 <=? e then m * 2 ^ e else Z.quot m (2 ^ (- e)).

Section ToString.
(** [Number::toString] picks the shortest digit string that reads back
    as the same Number.  It is left open here: the operations below
    call it only for magnitudes that print in exponent form. *)
Variable Number_toString : number → string.

(** [parseInt(x)] for a Number: [parseInt] reads the integer part of
    the decimal the Number prints as. *)
Definition parseInt (x : number) : option Z :=
  match x with
  | NaN => None
  | Inf _ => None
  | Fin m e =>
      if m =? 0 then Some 0
      else if prints_plain (Z.abs m) e then Some (trunc m e)
      else parseInt_string (Number_toString x)
  end.

(** [x.toFixed(f)] *)
Definition toFixed (x : number) (f : nat) : string :=
  match x with
  | NaN => "NaN"
  | Inf false => "Infinity"
  | Inf true => "-Infinity"
  | Fin m e =>
      let s := if m <? 0 then ["-"%char] else [] in
      let a := Z.abs m in
      if ge_1e21 a e then Str.of_chars s +:+ Number_toString (Fin a e)
      else
        let '(num, den) := scale (a * 10 ^ Z.of_nat f) 1 (- e) in
        let n := (2 * num + den) / (2 * den) in
        let ds := Str.of_Z n in
        let ds := replicate (S f - length ds) "0"%char ++ ds in
        let k := length ds in
        let ip := take (k - f) ds in
        let fp := drop (k - f) ds in
        Str.of_chars (s ++ ip ++ (match f with O => [] | _ => "."%char :: fp end))
  end.
End ToString.

End Num.

(** ** JSON (ECMA-404, ECMA-262 25.5) *)

Module JSON.

(** The values [JSON.parse] can produce.  An object keeps its members in
    source order. *)
#[local] Unset Elimination Schemes.
Inductive value : Type :=
  | Null
  | Bool (b : bool)
  | Number (x : Num.number)
  | String (s : string)
  | Array (items : list value)
  | Object (members : list (string * value)).
#[local] Set Elimination Schemes.

Definition is_ws (c : ascii) : bool :=
  let n := nat_of_ascii c in
  (n =? 32)%nat || (n =? 9)%nat || (n =? 10)%nat || (n =? 13)%nat.

Fixpoint skip_ws (l : list ascii) : list ascii :=
  match l with
  | c :: rest => if is_ws c then skip_ws rest else l
  | [] => []
  end.

Definition byte (n : Z) : ascii := ascii_of_nat (Z.to_nat n).

(** Strings are byte strings here; a code unit from a [\uXXXX] escape is
    stored in UTF-8. *)
Definition utf8 (u : Z) : list ascii :=
  if u <? 128 then [byte u]
  else if u <? 2048 then [byte (192 + u / 64); byte (128 + u mod 64)]
  else [byte (224 + u / 4096); byte (128 + (u / 64) mod 64); byte (128 + u mod 64)].

Definition hex4 (a b c d : ascii) : option Z :=
  x1 ← Num.hex_val a; x2 ← Num.hex_val b; x3 ← Num.hex_val c; x4 ← Num.hex_val d;
  Some (((x1 * 16 + x2) * 16 + x3) * 16 + x4).

Definition quote_char : ascii := ascii_of_nat 34.

(** The character an escape letter stands for. *)
Definition unescape (e : ascii) : option ascii :=
  if Ascii.eqb e quote_char then Some quote_char
  else if Ascii.eqb e "\"%char then Some "\"%char
  else if Ascii.eqb e "/"%char then Some "/"%char
  else if Ascii.eqb e "b"%char then Some (byte 8)
  else if Ascii.eqb e "f"%char then Some (byte 12)
  else if Ascii.eqb e "n"%char then Some (byte 10)
  else if Ascii.eqb e "r"%char then Some (byte 13)
  else if Ascii.eqb e "t"%char then Some (byte 9)
  else None.

(** The characters of a string literal after its opening quote, up to the
    closing quote. *)
Fixpoint parse_string (l : list ascii) : option (list ascii * list ascii) :=
  match l with
  | [] => None
  | "\"%char :: "u"%char :: a :: b :: c :: d :: r =>
      u ← hex4 a b c d;
      sr ← parse_string r;
      Some (utf8 u ++ sr.1, sr.2)
  | "\"%char :: e :: r =>
      c ← unescape e;
      sr ← parse_string r;
      Some (c :: sr.1, sr.2)
  | c :: r =>
      if Ascii.eqb c quote_char then Some ([], r)
      else if (nat_of_ascii c <? 32)%nat || Ascii.eqb c "\"%char then None
      else (sr ← parse_string r; Some (c :: sr.1, sr.2))
  end.

(** A number literal: an optional minus, an integer part without leading
    zeros, an optional fraction and an optional exponent. *)
Definition parse_number (l : list ascii) : option (Num.number * list ascii) :=
  let '(sg, l1) := match l with
                   | "-"%char :: r => (true, r)
                   | _ => (false, l)
                   end in
  let '(ip, r1) := Num.take_digits l1 in
  match ip with
  | [] => None
  | d0 :: ds =>
      if Ascii.eqb d0 "0"%char && negb (bool_decide (ds = [])) then None
      else
        fr ← match r1 with
             | "."%char :: r =>
                 let '(fp, r2) := Num.take_digits r in
                 match fp with [] => None | _ => Some (fp, r2) end
             | _ => Some ([], r1)
             end;
        let '(fp, r2) := fr in
        ex ← match r2 with
             | c :: r =>
                 if Ascii.eqb c "e"%char || Ascii.eqb c "E"%char then
                   let '(es, r') := Num.take_sign r in
                   let '(ed, r3) := Num.take_digits r' in
                   match ed with
                   | [] => None
                   | _ => Some (if es then - Num.digits_Z ed else Num.digits_Z ed, r3)
                   end
                 else Some (0, r2)
             | [] => Some (0, r2)
             end;
        let '(e10, r3) := ex in
        let x := Num.of_decimal (Num.digits_Z (ip ++ fp)) (e10 - Z.of_nat (length fp)) in
        Some (if sg then Num.neg x else x, r3)
  end.

Fixpoint parse_value (fuel : nat) (l : list ascii) : option (value * list ascii) :=
  match fuel with
  | O => None
  | S f =>
      match skip_ws l with
      | "n"%char :: "u"%char :: "l"%char :: "l"%char :: r => Some (Null, r)
      | "t"%char :: "r"%char :: "u"%char :: "e"%char :: r => Some (Bool true, r)
      | "f"%char :: "a"%char :: "l"%char :: "s"%char :: "e"%char :: r => Some (Bool false, r)
      | "["%char :: r =>
          match skip_ws r with
          | "]"%char :: r' => Some (Array [], r')
          | _ => '(vs, r') ← parse_elements f r; Some (Array vs, r')
          end
      | "{"%char :: r =>
          match skip_ws r with
          | "}"%char :: r' => Some (Object [], r')
          | _ => '(ms, r') ← parse_members f r; Some (Object ms, r')
          end
      | c :: r =>
          if Ascii.eqb c quote_char
          then '(s, r') ← parse_string r; Some (String (Str.of_chars s), r')
          else '(x, r') ← parse_number (c :: r); Some (Number x, r')
      | [] => None
      end
  end
with parse_elements (fuel : nat) (l : list ascii) : option (list value * list ascii) :=
  match fuel with
  | O => None
  | S f =>
      '(v, r) ← parse_value f l;
      match skip_ws r with
      | ","%char :: r' => '(vs, r'') ← parse_elements f r'; Some (v :: vs, r'')
      | "]"%char :: r' => Some ([v], r')
      | _ => None
      end
  end
with parse_members (fuel : nat) (l : list ascii) : option (list (string * value) * list ascii) :=
  match fuel with
  | O => None
  | S f =>
      match skip_ws l with
      | c :: r0 =>
          if Ascii.eqb c quote_char then
            '(k, r1) ← parse_string r0;
            match skip_ws r1 with
            | ":"%char :: r2 =>
                '(v, r3) ← parse_value f r2;
                match skip_ws r3 with
                | ","%char :: r4 =>
                    '(ms, r5) ← parse_members f r4; Some ((Str.of_chars k, v) :: ms, r5)
                | "}"%char :: r4 => Some ([(Str.of_chars k, v)], r4)
                | _ => None
                end
            | _ => None
            end
          else None
      | [] => None
      end
  end.

(** [JSON.parse(text)]: the value, or a [SyntaxError]. *)
Definition parse (text : string) : result value :=
  let l := Str.chars text in
  match parse_value (2 * length l + 2) l with
  | Some (v, r) =>
      match skip_ws r with
      | [] => Ok v
      | _ => Throw (SyntaxError "Unexpected non-whitespace character after JSON")
      end
  | None => Throw (SyntaxError "Unexpected token")
  end.

Definition hex_char (n : Z) : ascii :=
  if n <? 10 then byte (48 + n) else byte (87 + n).

Definition escape (c : ascii) : list ascii :=
  let n := Z.of_nat (nat_of_ascii c) in
  if Ascii.eqb c quote_char then ["\"%char; quote_char]
  else if Ascii.eqb c "\"%char then ["\"%char; "\"%char]
  else if n =? 8 then ["\"%char; "b"%char]
  else if n =? 9 then ["\"%char; "t"%char]
  else if n =? 10 then ["\"%char; "n"%char]
  else if n =? 12 then ["\"%char; "f"%char]
  else if n =? 13 then ["\"%char; "r"%char]
  else if n <? 32 then ["\"%char; "u"%char; "0"%char; "0"%char; hex_char (n / 16); hex_char (n mod 16)]
  else [c].

(** [JSON.stringify] of a string: quoted, with the mandatory escapes. *)
Definition quote (s : string) : list ascii :=
  quote_char :: concat (escape <$> Str.chars s) ++ [quote_char].

Fixpoint join (sep : list ascii) (parts : list (list ascii)) : list ascii :=
  match parts with
  | [] => []
  | [p] => p
  | p :: rest => p ++ sep ++ join sep rest
  end.

End JSON.

(** ** [localStorage] *)

Module Storage.

(** The items of the origin, whether access is denied (every call then
    throws a [SecurityError]), and the space the origin may use, if it is
    limited. *)
Record t : Type := Make {
  items : gmap string string;
  denied : bool;
  quota : option nat
}.

Definition used (m : gmap string string) : nat :=
  map_fold (λ k v n, (String.length k + String.length v + n)%nat) 0%nat m.

Definition getItem (st : t) (key : string) : result (option string) :=
  if denied st then Throw (SecurityError "The operation is insecure.")
  else Ok (items st !! key).

(** [setItem] either replaces the item or, when the result would not fit,
    throws and leaves the storage as it was. *)
Definition setItem (st : t) (key value : string) : result t :=
  if denied st then Throw (SecurityError "The operation is insecure.")
  else
    let items' := <[key := value]> (items st) in
    match quota st with
    | Some q =>
        if (q <? used items')%nat
        then Throw (QuotaExceededError "The quota has been exceeded.")
        else Ok (Make items' (denied st) (quota st))
    | None => Ok (Make items' (denied st) (quota st))
    end.

End Storage.

(** ** [Array.prototype.sort] (ECMA-262, 23.1.3.30)

    The comparator's result is a Number, [None] standing for NaN, which
    [sort] takes for [+0].  The standard asks for a stable sort; for a
    consistent comparator every stable sort returns the same array as this
    insertion sort.  For a comparator that is not consistent, as one that
    gives NaN on some pairs and an order on others, the standard leaves
    the order to the engine: this insertion sort is then one of the
    arrays an engine may return, and the statements about the order of a
    sorted series are made for series on which the comparator is
    consistent. *)

Module JSArray.
Section Sort.
Context {A : Type}.
Variable comparefn : A → A → option Z.

(** [comparefn(a, b) > 0]: [a] has to come after [b]. *)
Definition after (a b : A) : bool :=
  match comparefn a b with
  | Some v => 0 <? v
  | None => false
  end.

Fixpoint insert (x : A) (l : list A) : list A :=
  match l with
  | [] => [x]
  | y :: l' => if after x y then y :: insert x l' else x :: y :: l'
  end.

Definition sort (l : list A) : list A := foldr insert [] l.
End Sort.
End JSArray.

(** * The script *)

(** ** Configuration *)

Definition STORAGE_KEY : string := "gmt_usdc_price_data".
Definition SYMBOL : string := "GMTUSDC".
Definition START_DATE : string := "2026-01-01".
Definition BINANCE_API : string := "https://api.binance.com/api/v3".

(** ** Data *)

(** A stored point [{date, price}]. *)
Record PricePoint : Type := Point {
  date : string;
  price : string
}.

Abbreviation Series := (list PricePoint) (only parsing).

(** A candle of the klines endpoint, [[openTime, open, high, ...]]; the
    script reads [candle[0]], a JSON number, and [candle[1]], a JSON
    string. *)
Record Candle : Type := {
  openTime : Num.number;
  openPrice : string
}.

#[global] Instance PricePoint_eq_dec : EqDecision PricePoint.
Proof. solve_decision. Defined.

(** What the script does to the page, the console, the network and the
    timers, in the order it does it.  [Request startTime endTime] is the
    request [fetchKlines] sends for these window bounds. *)
Inductive Event : Type :=
  | Status (msg : string)
  | Display (data : Series)
  | ShowError (msg : string)
  | ConsoleError (msg : string) (e : JSError)
  | ConsoleLog (msg : string)
  | Request (startTime endTime : option Z)
  | Sleep (ms : Z)
  | DisplayInfo (lastDate : option string) (nextFetch : string)
  | SetTimeout (delay : option Z).

(** The host: the clock ([new Date()] at the [k]-th reading), the exchange
    (the answer to the [k]-th request, for its window bounds), the offset
    of the local zone from UTC and the printing of Numbers in exponent
    form. *)
Record Host : Type := {
  clock : nat → Z;
  klines_response : nat → option Z → option Z → result (list Candle);
  LocalTZA : Z → bool → Z;
  Number_toString : Num.number → string
}.

(** The state the script runs in. *)
Record World : Type := {
  storage : Storage.t;
  events : list Event;
  clock_reads : nat;
  requests : nat
}.

(** A computation: it ends normally or throws, and leaves a world. *)
Definition M (A : Type) : Type := World → result A * World.

Definition ret {A} (a : A) : M A := λ w, (Ok a, w).

Definition bind {A B} (m : M A) (k : A → M B) : M B :=
  λ w, match m w with
       | (Ok a, w') => k a w'
       | (Throw e, w') => (Throw e, w')
       end.

Definition throw {A} (e : JSError) : M A := λ w, (Throw e, w).

Definition lift {A} (r : result A) : M A := λ w, (r, w).

(** [try { body } catch (e) { handler e }] on computations: the effects of
    the body up to the throw stay. *)
Definition try_ {A} (body : M A) (handler : JSError → M A) : M A :=
  λ w, match body w with
       | (Ok a, w') => (Ok a, w')
       | (Throw e, w') => handler e w'
       end.

Declare Scope js_scope.
Delimit Scope js_scope with js.
Notation "x <- m ;; k" := (bind m (λ x, k))
  (at level 100, m at next level, right associativity) : js_scope.
Notation "m ;; k" := (bind m (λ _, k))
  (at level 100, right associativity) : js_scope.

Definition emit (e : Event) : M unit :=
  λ w, (Ok tt, {| storage := storage w; events := events w ++ [e];
                  clock_reads := clock_reads w; requests := requests w |}).

(** [error.message] *)
Definition message (e : JSError) : string :=
  match e with
  | RangeError m | TypeError m | SyntaxError m | SecurityError m
  | QuotaExceededError m | NetworkError m => m
  | HttpError status =>
      "HTTP error! status: " +:+ Str.of_chars (Str.of_Z status)
  end.

(** An integer time value, or NaN, in a template string. *)
Definition show_number (v : option Z) : string :=
  match v with
  | None => "NaN"
  | Some n => if n <? 0 then "-" +:+ Str.of_chars (Str.of_Z (- n)) else Str.of_chars (Str.of_Z n)
  end.

(** [d.toISOString().split('T')[0]] *)
Definition isoDate (d : Date.t) : result string :=
  match Date.toISOString d with
  | Ok iso => Ok (Str.before "T"%char iso)
  | Throw e => Throw e
  end.

(** ** The stored blob *)

(** [JSON.stringify] of a series. *)
Definition stringify_point (p : PricePoint) : list ascii :=
  Str.chars "{" ++ JSON.quote "date" ++ Str.chars ":" ++ JSON.quote (date p) ++
  Str.chars "," ++ JSON.quote "price" ++ Str.chars ":" ++ JSON.quote (price p) ++ Str.chars "}".

Definition JSON_stringify (data : Series) : string :=
  Str.of_chars (Str.chars "[" ++ JSON.join (Str.chars ",") (stringify_point <$> data) ++ Str.chars "]").

(** The points a parsed value holds, if it is an array of [{date, price}]
    objects with string members, as the script writes them. *)
Definition point_of_value (v : JSON.value) : option PricePoint :=
  match v with
  | JSON.Object [(k1, JSON.String d); (k2, JSON.String p)] =>
      if bool_decide (k1 = "date"%string) && bool_decide (k2 = "price"%string)
      then Some (Point d p) else None
  | _ => None
  end.

Definition series_of_value (v : JSON.value) : option Series :=
  match v with
  | JSON.Array items => mapM point_of_value items
  | _ => None
  end.

(** ** Series Merger *)

(** [removeDuplicates]: the filter keeps an item when its date has not been
    seen, and records the date. *)
Fixpoint removeDuplicates_from (seen : gset string) (data : Series) : Series :=
  match data with
  | [] => []
  | item :: rest =>
      if bool_decide (date item ∈ seen) then removeDuplicates_from seen rest
      else item :: removeDuplicates_from ({[date item]} ∪ seen) rest
  end.

Definition removeDuplicates (data : Series) : Series := removeDuplicates_from ∅ data.

(** The comparator of the sort: [new Date(a.date) - new Date(b.date)]. *)
Definition byDate (a b : PricePoint) : option Z :=
  Date.sub (Date.of_string (date a)) (Date.of_string (date b)).

(** The merge step of [fetchAndStoreData]: concatenate, sort by date, remove
    duplicates. *)
Definition mergeData (existingData newData : Series) : Series :=
  let allData := existingData ++ newData in
  let allData := JSArray.sort byDate allData in
  removeDuplicates allData.

(** ** Scheduler *)

(** The delay [scheduleDailyFetch] computes from [now]. *)
Definition nextFetchDate (now : Date.t) : Date.t :=
  let nextFetch := Date.copy now in
  let nextFetch := Date.setUTCDate nextFetch (Z.succ <$> Date.getUTCDate nextFetch) in
  Date.setUTCHours nextFetch 0 0 0 0.

Definition msUntilNext (now : Date.t) : option Z :=
  Date.sub (Date.getTime (nextFetchDate now)) (Date.getTime now).

Section Script.
Variable host : Host.

Local Open Scope js_scope.

(** [new Date()] *)
Definition new_Date : M Date.t :=
  λ w, (Ok (Some (clock host (clock_reads w))),
        {| storage := storage w; events := events w;
           clock_reads := S (clock_reads w); requests := requests w |}).

Definition localStorage_getItem (key : string) : M (option string) :=
  λ w, (Storage.getItem (storage w) key, w).

Definition localStorage_setItem (key value : string) : M unit :=
  λ w, match Storage.setItem (storage w) key value with
       | Ok st => (Ok tt, {| storage := st; events := events w;
                             clock_reads := clock_reads w; requests := requests w |})
       | Throw e => (Throw e, w)
       end.

Definition updateStatus (msg : string) : M unit := emit (Status msg).
Definition displayData (data : Series) : M unit := emit (Display data).
Definition showError (msg : string) : M unit := emit (ShowError msg).
Definition console_error (msg : string) (e : JSError) : M unit := emit (ConsoleError msg e).
Definition console_log (msg : string) : M unit := emit (ConsoleLog msg).

(** ** Store *)

Definition loadStoredData : M JSON.value :=
  try_ (stored <- localStorage_getItem STORAGE_KEY ;;
        match stored with
        | Some text =>
            if bool_decide (text = ""%string) then ret (JSON.Array [])
            else lift (JSON.parse text)
        | None => ret (JSON.Array [])
        end)
       (λ error, console_error "Error loading stored data:" error ;;
                 ret (JSON.Array [])).

(** The loaded value as the series the rest of the script takes it for.
    A value of another shape is outside the data model; the embedding
    stops there with the [TypeError] the script raises on [null], where
    the script itself goes on with some such values.  The statements that
    go through [as_series] are made for stored values that are series. *)
Definition as_series (v : JSON.value) : M Series :=
  match series_of_value v with
  | Some data => ret data
  | None => throw (TypeError "stored value is not a series")
  end.

(** ** Batch Fetcher *)

Definition klines_url (startTime endTime : option Z) : string :=
  BINANCE_API +:+ "/klines?symbol=" +:+ SYMBOL +:+ "&interval=1d&startTime=" +:+
  show_number startTime +:+ "&endTime=" +:+ show_number endTime +:+ "&limit=1000".

(** [fetchKlines]: one request, to [klines_url startTime endTime]; a
    failed transport, a non-success status or an unreadable body make it
    throw. *)
Definition fetchKlines (startTime endTime : option Z) : M (list Candle) :=
  λ w, (klines_response host (requests w) startTime endTime,
        {| storage := storage w; events := events w ++ [Request startTime endTime];
           clock_reads := clock_reads w; requests := S (requests w) |}).

(** What one run of the fetcher accumulates: the array [newData] and the
    set [existingDates], both updated in place. *)
Record Found : Type := {
  newData : Series;
  existingDates : gset string
}.

(** The body of [klines.forEach]. *)
Definition processCandle (candle : Candle) (acc : Found) : result Found :=
  let t := Num.parseInt (Number_toString host) (openTime candle) in
  let p := Num.parseFloat (openPrice candle) in
  let d := Date.of_number t in
  match isoDate d with
  | Throw e => Throw e
  | Ok dateStr =>
      if negb (bool_decide (dateStr ∈ existingDates acc)) && Str.geb dateStr START_DATE
      then Ok {| newData := newData acc ++
                             [Point dateStr (Num.toFixed (Number_toString host) p 6)];
                 existingDates := {[dateStr]} ∪ existingDates acc |}
      else Ok acc
  end.

(** [klines.forEach(...)]: an exception ends the iteration; what was
    pushed before it stays. *)
Fixpoint forEach_candle (klines : list Candle) (acc : Found) : result unit * Found :=
  match klines with
  | [] => (Ok tt, acc)
  | candle :: rest =>
      match processCandle candle acc with
      | Ok acc' => forEach_candle rest acc'
      | Throw e => (Throw e, acc)
      end
  end.

Definition batchSize : Z := 1000.

(** The end of the batch that starts at [currentStart]. *)
Definition batchEndOf (end_ currentStart : Date.t) : Date.t :=
  let batchEnd := Date.copy currentStart in
  let batchEnd :=
    Date.setDate (LocalTZA host) batchEnd
      ((λ d, d + batchSize - 1) <$> Date.getDate (LocalTZA host) batchEnd) in
  if Date.gtb batchEnd end_ then Date.setTime (Date.getTime end_) else batchEnd.

Definition batchStartTime (currentStart : Date.t) : option Z :=
  Date.UTC (Date.getUTCFullYear currentStart) (Date.getUTCMonth currentStart)
           (Date.getUTCDate currentStart) 0 0 0 0.

Definition batchEndTime (batchEnd : Date.t) : option Z :=
  Date.UTC (Date.getUTCFullYear batchEnd) (Date.getUTCMonth batchEnd)
           (Date.getUTCDate batchEnd) 23 59 59 999.

(** [currentStart.setDate(currentStart.getDate() + batchSize)] *)
Definition nextStart (currentStart : Date.t) : Date.t :=
  Date.setDate (LocalTZA host) currentStart
    ((λ d, d + batchSize) <$> Date.getDate (LocalTZA host) currentStart).

(** One turn of the [while] loop, for a [currentStart] not after [end]. *)
Definition fetchBatch (end_ currentStart : Date.t) (acc : Found) : M Found :=
  let batchEnd := batchEndOf end_ currentStart in
  λ w,
    let startTime := batchStartTime currentStart in
    let endTime := batchEndTime batchEnd in
    match fetchKlines startTime endTime w with
    | (Ok klines, w1) =>
        match forEach_candle klines acc with
        | (Ok _, acc') => (emit (Sleep 200) ;; ret acc') w1
        | (Throw error, acc') =>
            (msg <- lift (isoDate currentStart) ;;
             console_error ("Error fetching batch from " +:+ msg +:+ ":") error ;;
             ret acc') w1
        end
    | (Throw error, w1) =>
        (msg <- lift (isoDate currentStart) ;;
         console_error ("Error fetching batch from " +:+ msg +:+ ":") error ;;
         ret acc) w1
    end.

(** The [while (currentStart <= end)] loop; [turns] bounds the number of
    iterations. *)
Fixpoint fetchLoop (turns : nat) (end_ currentStart : Date.t) (acc : Found) : M Found :=
  match turns with
  | O => ret acc
  | S n =>
      if Date.leb currentStart end_ then
        acc' <- fetchBatch end_ currentStart acc ;;
        fetchLoop n end_ (nextStart currentStart) acc'
      else ret acc
  end.

(** The number of turns the loop is given: one for each day of the range.
    The start moves on by [batchSize] local days a turn, which is more than
    a day in any zone, so the loop ends by its test before the turns run
    out. *)
Definition turnsFor (start end_ : Date.t) : nat :=
  match start, end_ with
  | Some s, Some e => Z.to_nat ((e - s) / Date.msPerDay + 1)
  | _, _ => O
  end.

Definition fetchHistoricalData (startDate endDate : Date.t) (existingDates : gset string)
  : M Found :=
  let acc := {| newData := []; existingDates := existingDates |} in
  let start := Date.copy startDate in
  let end_ := Date.copy endDate in
  let currentStart := Date.copy start in
  fetchLoop (turnsFor start end_) end_ currentStart acc.

(** ** Display helpers *)

(** [iso.replace('T', ' ').substring(0, 19) + ' UTC'] *)
Definition nextFetchText (iso : string) : string :=
  let spaced := Str.before "T"%char iso +:+ " " +:+
                String.substring (S (String.length (Str.before "T"%char iso)))
                                 (String.length iso) iso in
  String.substring 0 19 spaced +:+ " UTC".

(** [updateDisplayInfo] reads the store and the clock and writes two text
    nodes: the date of the last stored point, when the stored value is a
    non-empty series, and the time of the next fetch.  What the script
    shows for a stored value of another shape depends on the shape, and on
    [null] it throws; the embedding shows no date then and goes on.  The
    statements about what it shows are made for stored series. *)
Definition updateDisplayInfo : M unit :=
  data <- loadStoredData ;;
  now <- new_Date ;;
  let tomorrow := nextFetchDate now in
  iso <- lift (Date.toISOString tomorrow) ;;
  emit (DisplayInfo (match series_of_value data with
                     | Some l => date <$> last l
                     | None => None
                     end)
                    (nextFetchText iso)).

(** ** Sync Orchestrator *)

Definition fetchAndStoreData (existingData : Series) : M unit :=
  updateStatus "Fetching data from Binance..." ;;
  try_ (today <- new_Date ;;
        let startDate := Date.of_string START_DATE in
        let existingDates : gset string := list_to_set (date <$> existingData) in
        found <- fetchHistoricalData startDate today existingDates ;;
        let uniqueData := mergeData existingData (newData found) in
        localStorage_setItem STORAGE_KEY (JSON_stringify uniqueData) ;;
        displayData uniqueData ;;
        updateStatus "Data fetched and stored successfully" ;;
        updateDisplayInfo)
       (λ error,
          console_error "Error fetching data:" error ;;
          showError ("Error fetching data: " +:+ message error) ;;
          updateStatus "Error fetching data" ;;
          match existingData with
          | [] => ret tt
          | _ => displayData existingData
          end).

(** [!lastStoredDate || lastStoredDate < today] *)
Definition needsFetch (lastStoredDate : option string) (today : string) : bool :=
  match lastStoredDate with
  | None => true
  | Some d => bool_decide (d = ""%string) || Str.ltb d today
  end.

Definition scheduleDailyFetch : M unit :=
  now <- new_Date ;;
  let nextFetch := nextFetchDate now in
  emit (SetTimeout (msUntilNext now)) ;;
  iso <- lift (Date.toISOString nextFetch) ;;
  console_log ("Next fetch scheduled for: " +:+ iso).

Definition initializeApp : M unit :=
  updateStatus "Initializing..." ;;
  loaded <- loadStoredData ;;
  now <- new_Date ;;
  today <- lift (isoDate now) ;;
  existingData <- as_series loaded ;;
  let lastStoredDate := date <$> last existingData in
  (if needsFetch lastStoredDate today
   then fetchAndStoreData existingData
   else (displayData existingData ;; updateStatus "Data loaded from storage")) ;;
  scheduleDailyFetch ;;
  updateDisplayInfo.

End Script.

(** * Properties *)

Set Warnings "-clear-no-such-hyp".

(** ** Vocabulary of the statements *)

(** A decimal digit. *)
Definition is_digit (c : ascii) : Prop := is_Some (Str.digit_val c).

(** The calendar-day string [YYYY-MM-DD] of a date in the years 0..9999. *)
Definition calendarDay (y m d : Z) : string :=
  Str.of_chars (Str.pad 4 y ++ ["-"%char] ++ Str.pad 2 m ++ ["-"%char] ++ Str.pad 2 d).

(** The first point of [l] dated [d]. *)
Definition firstOn (d : string) (l : Series) : option PricePoint :=
  head (filter (λ q, date q = d) l).

(** The date of [p] is a date. *)
Definition dated (p : PricePoint) : Prop := is_Some (Date.parse (date p)).

(** [a] is dated no later than [b]. *)
Definition date_le (a b : PricePoint) : Prop :=
  ∃ x y, Date.parse (date a) = Some x ∧ Date.parse (date b) = Some y ∧ x <= y.

(** The day [d] is the day [d0] or a later one. *)
Definition on_or_after (d0 d : string) : Prop :=
  ∃ x y, Date.parse d0 = Some x ∧ Date.parse d = Some y ∧ x <= y.

(** The window bounds of the requests among some events. *)
Definition requested (evs : list Event) : list (option Z * option Z) :=
  omap (λ ev, match ev with Request a b => Some (a, b) | _ => None end) evs.

(** What a run of the fetcher keeps true of what it has found, for the
    exclusion set [excluded] it was started with. *)
Record found_ok (excluded : gset string) (acc : Found) : Prop := {
  found_excluded : excluded ⊆ existingDates acc;
  found_NoDup : NoDup (date <$> newData acc);
  found_recorded : ∀ p, p ∈ newData acc → date p ∈ existingDates acc;
  found_fresh : ∀ p, p ∈ newData acc → date p ∉ excluded;
  found_from_start : ∀ p, p ∈ newData acc → Str.ltb (date p) START_DATE = false;
  found_on_or_after : ∀ p, p ∈ newData acc → on_or_after START_DATE (date p)
}.

(** The [k]-th window of the range from [s] to [e] (time values): the 1000
    UTC days from the day of [s] plus [1000 * k] days on, cut at the day of
    [e]; from its first millisecond to its last. *)
Definition window (s e k : Z) : option Z * option Z :=
  (Some ((Date.Day s + 1000 * k) * Date.msPerDay),
   Some ((Z.min (Date.Day s + 1000 * k + 999) (Date.Day e) + 1) * Date.msPerDay - 1)).

(** The length of a step of the batch loop, in milliseconds. *)
Definition batchStep : Z := batchSize * Date.msPerDay.

(** The number of windows of the range from [s] to [e]. *)
Definition windows (s e : Z) : nat := Z.to_nat ((e - s) / batchStep + 1).

(** The offset of the host's zone from UTC does not change. *)
Definition fixed_zone (host : Host) : Prop :=
  ∃ off, ∀ t b, LocalTZA host t b = off.

(** The offset of the host's zone stays within a day of UTC. *)
Definition near_zone (host : Host) : Prop :=
  ∀ t b, Z.abs (LocalTZA host t b) <= Date.msPerDay.

(** A numeral with exactly six fractional digits: an optional minus sign,
    at least one integer digit, a point and six digits. *)
Definition fixed6 (s : string) : Prop :=
  ∃ sign ip fp,
    Str.chars s = sign ++ ip ++ "."%char :: fp ∧
    (sign = [] ∨ sign = ["-"%char]) ∧
    ip ≠ [] ∧ Forall is_digit ip ∧ Forall is_digit fp ∧ length fp = 6%nat.

(** The integer a numeral reads as once its sign and its point are
    dropped: the value in millionths, for a numeral with six fractional
    digits. *)
Definition unscaled (s : string) : option Z :=
  Str.digits_val 0
    (filter (λ c, c ≠ "."%char ∧ c ≠ "-"%char) (Str.chars s)).

(** [n] is an integer nearest to [|m| * 2^e * 10^6]. *)
Definition nearest_millionths (m e n : Z) : Prop :=
  if 0 <=? e then n = Z.abs m * 2 ^ e * 10 ^ 6
  else 2 * Z.abs (n * 2 ^ (- e) - Z.abs m * 10 ^ 6) <= 2 ^ (- e).

(** The world [w] after further events, clock readings and requests, with
    storage [st]. *)
Definition extend (w : World) (st : Storage.t) (evs : list Event) (reads reqs : nat) : World :=
  {| storage := st; events := events w ++ evs;
     clock_reads := (reads + clock_reads w)%nat; requests := (reqs + requests w)%nat |}.

(** What [loadStoredData] makes of a storage: the value it returns and what
    it logs. *)
Definition loaded (st : Storage.t) : JSON.value * list Event :=
  match Storage.getItem st STORAGE_KEY with
  | Ok (Some text) =>
      if bool_decide (text = ""%string) then (JSON.Array [], [])
      else match JSON.parse text with
           | Ok v => (v, [])
           | Throw e => (JSON.Array [], [ConsoleError "Error loading stored data:" e])
           end
  | Ok None => (JSON.Array [], [])
  | Throw e => (JSON.Array [], [ConsoleError "Error loading stored data:" e])
  end.

(** The value the text of a point, and of a series, stands for. *)
Definition value_of_point (p : PricePoint) : JSON.value :=
  JSON.Object [("date"%string, JSON.String (date p)); ("price"%string, JSON.String (price p))].

Definition value_of_series (data : Series) : JSON.value :=
  JSON.Array (value_of_point <$> data).

(** The status line that opens a fetch cycle. *)
Definition fetching : Event := Status "Fetching data from Binance...".

(** An event that neither opens a fetch cycle nor is a request. *)
Definition quiet (ev : Event) : Prop :=
  match ev with
  | Request _ _ => False
  | Status msg => msg ≠ "Fetching data from Binance..."%string
  | _ => True
  end.

(** What the catch block of [fetchAndStoreData] does for [error]. *)
Definition reported (existingData : Series) (error : JSError) : list Event :=
  [ConsoleError "Error fetching data:" error;
   ShowError ("Error fetching data: " +:+ message error);
   Status "Error fetching data"] ++
  match existingData with
  | [] => []
  | _ => [Display existingData]
  end.

(** A host for the worked cases: a fixed clock, an exchange that answers
    every request with the same candles, UTC as the local zone. *)
Definition host_at (now : Z) (candles : list Candle) : Host :=
  {| clock := λ _, now; klines_response := λ _ _ _, Ok candles;
     LocalTZA := λ _ _, 0; Number_toString := λ _, ""%string |}.

(** Central European time, for the worked cases: an hour ahead of UTC, and
    two in summer time, from 01:00 UTC on the last Sunday of March to 01:00
    UTC on the last Sunday of October (the years 2026 to 2035). *)
Definition summer_time : list (Z * Z) :=
  [(1774746000000, 1792890000000); (1806195600000, 1824944400000);
   (1837645200000, 1856394000000); (1869094800000, 1887843600000);
   (1901149200000, 1919293200000); (1932598800000, 1950742800000);
   (1964048400000, 1982797200000); (1995498000000, 2014246800000);
   (2026947600000, 2045696400000); (2058397200000, 2077146000000)].

Definition in_summer_time (t : Z) : bool :=
  existsb (λ '(a, b), (a <=? t) && (t <? b)) summer_time.

(** A local time is read with the offset before a change of offset, where
    it could be read with either or with neither. *)
Definition CET (t : Z) (isUTC : bool) : Z :=
  let u := if isUTC then t else t - 7200000 in
  if in_summer_time u then 7200000 else 3600000.

(** The host of the worked cases, in another zone. *)
Definition host_in (zone : Z → bool → Z) (now : Z) (candles : list Candle) : Host :=
  {| clock := λ _, now; klines_response := λ _ _ _, Ok candles;
     LocalTZA := zone; Number_toString := λ _, ""%string |}.

(** A world with the given items in the storage and nothing done yet. *)
Definition world_with (items : gmap string string) : World :=
  {| storage := Storage.Make items false None; events := [];
     clock_reads := 0; requests := 0 |}.

(** The date [initializeApp] takes for today when the clock reads [now]. *)
Definition todayAt (now : Z) : string :=
  match isoDate (Some now) with
  | Ok s => s
  | Throw _ => ""%string
  end.

(** * The rest of the script *)

(** ** Theme *)

(** A value that counts as true in a condition: a string that is there and
    is not empty. *)
Definition truthy (s : option string) : bool :=
  match s with
  | Some s => negb (bool_decide (s = ""%string))
  | None => false
  end.

(** [applyTheme(isDark)], on [document.body.classList], a set of class
    names. *)
Definition applyTheme (isDark : bool) (classList : gset string) : gset string :=
  if isDark then {["dark-mode"%string]} ∪ classList
  else classList ∖ {["dark-mode"%string]}.

(** [initializeTheme()], for the system preference [prefersDark]: the class
    list it leaves, or the exception of the storage. *)
Definition initializeTheme (prefersDark : bool) (classList : gset string) (st : Storage.t)
  : result (gset string) :=
  match Storage.getItem st "theme" with
  | Throw e => Throw e
  | Ok savedTheme =>
      if truthy savedTheme
      then Ok (applyTheme (bool_decide (savedTheme = Some "dark"%string)) classList)
      else Ok (applyTheme prefersDark classList)
  end.

(** The listener [initializeTheme] registers for changes of the system
    preference, called with [e.matches]. *)
Definition onSchemeChange (matches : bool) (classList : gset string) (st : Storage.t)
  : result (gset string) :=
  match Storage.getItem st "theme" with
  | Throw e => Throw e
  | Ok savedTheme =>
      if negb (truthy savedTheme) then Ok (applyTheme matches classList) else Ok classList
  end.

(** [toggleTheme()]: the class list is changed first, then the theme is
    saved; the outcome of saving and the class list left. *)
Definition toggleTheme (classList : gset string) (st : Storage.t)
  : result Storage.t * gset string :=
  let isDark := bool_decide ("dark-mode"%string ∈ classList) in
  let newTheme := negb isDark in
  let classList := applyTheme newTheme classList in
  (Storage.setItem st "theme" (if newTheme then "dark" else "light"), classList).

(** ** The table *)

Definition quote_mark : string := String JSON.quote_char EmptyString.

(** The comparator of [displayData]: [new Date(b.date) - new Date(a.date)]. *)
Definition byDateDesc (a b : PricePoint) : option Z := byDate b a.

Section Table.
Variable host : Host.

(** The rows of the table, top down: the date and the price shown for each
    item of the sorted copy of [data]. *)
Definition tableRows (data : Series) : list (string * string) :=
  let sortedData := JSArray.sort byDateDesc data in
  (λ item, (date item,
            Num.toFixed (Number_toString host) (Num.parseFloat (price item)) 6))
    <$> sortedData.

Definition rowHtml (row : string * string) : string :=
  "
            <tr>
                <td>" +:+ row.1 +:+ "</td>
                <td>" +:+ row.2 +:+ "</td>
            </tr>
        ".

(** What [displayData(data)] sets [container.innerHTML] to. *)
Definition displayHtml (data : Series) : string :=
  match data with
  | [] => "<div class=" +:+ quote_mark +:+ "loading" +:+ quote_mark +:+
          ">No data available</div>"
  | _ =>
      let html := "
        <table>
            <thead>
                <tr>
                    <th>Date</th>
                    <th>GMT vs USDC</th>
                </tr>
            </thead>
            <tbody>
    " in
      let html := foldl (λ html row, html +:+ rowHtml row) html (tableRows data) in
      html +:+ "
            </tbody>
        </table>
    "
  end.

End Table.

(** ** Refresh and page load *)

(** The refresh button. *)
Record Button : Type := {
  disabled : bool;
  textContent : string
}.

Section Page.
Variable host : Host.

Local Open Scope js_scope.

(** [fetchAndStoreData(loadStoredData())], as the timers and the refresh
    button call it.  The loaded value is taken for a series as in
    [initializeApp]. *)
Definition syncFromStore : M unit :=
  loaded <- loadStoredData ;;
  existingData <- as_series loaded ;;
  fetchAndStoreData host existingData.

(** [refreshData()]: the button is disabled and reads [Refreshing...] while
    the cycle runs; [finally] enables it again.  The outcome, the button
    as it is left and the world. *)
Definition refreshData (btn : Button) : World → result unit * Button * World :=
  λ w,
    let btn := {| disabled := true; textContent := "Refreshing..." |} in
    let '(r, w1) :=
      try_ syncFromStore
           (λ error, showError ("Error refreshing: " +:+ message error)) w in
    let btn := {| disabled := false; textContent := "Refresh Now" |} in
    (r, btn, w1).

(** The [DOMContentLoaded] listener: [initializeTheme(); initializeApp();].
    An exception of [initializeTheme] ends it; the outcome of
    [initializeApp] is that of its promise. *)
Definition onDOMContentLoaded (prefersDark : bool) (classList : gset string)
  : World → result unit * gset string * World :=
  λ w,
    match initializeTheme prefersDark classList (storage w) with
    | Throw e => (Throw e, classList, w)
    | Ok classList => let '(r, w') := initializeApp host w in (r, classList, w')
    end.

(** ** Today's price *)

(** A response of [fetch]: [response.ok], [response.status] and what
    [response.json()] resolves to or rejects with. *)
Record Response (A : Type) : Type := {
  ok : bool;
  status : Z;
  json : result A
}.
#[global] Arguments ok {A} _.
#[global] Arguments status {A} _.
#[global] Arguments json {A} _.

(** The ticker endpoint: the answer to the request that is the [k]-th of
    the page, a response whose body holds the member [price], or the
    exception of the transport. *)
Variable ticker_response : nat → result (Response string).

Definition ticker_url : string := BINANCE_API +:+ "/ticker/price?symbol=" +:+ SYMBOL.

(** The request to [ticker_url] and the reading of the price; the request
    counts among the requests of the page. *)
Definition fetchTicker : M string :=
  λ w,
    let w1 := {| storage := storage w; events := events w;
                 clock_reads := clock_reads w; requests := S (requests w) |} in
    match ticker_response (requests w) with
    | Throw e => (Throw e, w1)
    | Ok response =>
        if negb (ok response) then (Throw (HttpError (status response)), w1)
        else match json response with
             | Throw e => (Throw e, w1)
             | Ok price =>
                 (Ok (Num.toFixed (Number_toString host) (Num.parseFloat price) 6), w1)
             end
    end.

(** [fetchTodayPrice()] *)
Definition fetchTodayPrice : M string :=
  try_ (today <- new_Date host ;;
        let todayStart := Date.of_number (batchStartTime today) in
        let todayEnd := Date.of_number (batchEndTime today) in
        klines <- fetchKlines host (Date.getTime todayStart) (Date.getTime todayEnd) ;;
        match klines with
        | candle :: _ =>
            ret (Num.toFixed (Number_toString host) (Num.parseFloat (openPrice candle)) 6)
        | [] => fetchTicker
        end)
       (λ error, console_error "Error fetching today price:" error ;; throw error).

End Page.

(** ** Vocabulary of the further statements *)

(** [a] is dated earlier than [b]. *)
Definition date_lt (a b : PricePoint) : Prop :=
  ∃ x y, Date.parse (date a) = Some x ∧ Date.parse (date b) = Some y ∧ x < y.

(** [a] is dated no earlier than [b]. *)
Definition date_ge (a b : PricePoint) : Prop := date_le b a.

(** The date of [p] is the date string of a day of the years 0 to 9999, as
    the fetcher writes them. *)
Definition calendar_dated (p : PricePoint) : Prop :=
  ∃ t, 0 <= Date.YearFromTime t <= 9999 ∧ isoDate (Some t) = Ok (date p).

(** A string that reads as a finite Number below [1e21]. *)
Definition numeric (s : string) : Prop :=
  ∃ m e, Num.parseFloat s = Num.Fin m e ∧ Num.ge_1e21 (Z.abs m) e = false.

(** The windows the loop asks for in the given turns, which depend on the
    range and on the zone only. *)
Fixpoint loopWindows (zone : Z → bool → Z) (turns : nat) (end_ currentStart : Date.t)
  : list (option Z * option Z) :=
  match turns with
  | O => []
  | S n =>
      if Date.leb currentStart end_ then
        let batchEnd := Date.setDate zone (Date.copy currentStart)
                          ((λ d, d + batchSize - 1) <$> Date.getDate zone currentStart) in
        let batchEnd := if Date.gtb batchEnd end_ then Date.setTime (Date.getTime end_)
                        else batchEnd in
        (batchStartTime currentStart, batchEndTime batchEnd) ::
        loopWindows zone n end_
          (Date.setDate zone currentStart ((λ d, d + batchSize) <$> Date.getDate zone currentStart))
      else []
  end.

(** The message the [catch] of a turn logs for the start [s]. *)
Definition batchLabel (s : Z) : string :=
  "Error fetching batch from " +:+ todayAt s +:+ ":".

(** What a run has found is what it has added to the exclusion set. *)
Definition recorded (excluded : gset string) (acc : Found) : Prop :=
  existingDates acc = excluded ∪ list_to_set (date <$> newData acc).

(** The point a candle stands for. *)
Definition point_of (host : Host) (candle : Candle) (d : string) : PricePoint :=
  Point d (Num.toFixed (Number_toString host) (Num.parseFloat (openPrice candle)) 6).

(** An event of the fetcher: a request, a pause or a line on the console. *)
Definition fetcher_event (ev : Event) : Prop :=
  match ev with
  | Request _ _ | Sleep _ | ConsoleError _ _ => True
  | _ => False
  end.

(** The exceptions logged on the console among some events. *)
Definition logged (evs : list Event) : list JSError :=
  omap (λ ev, match ev with ConsoleError _ e => Some e | _ => None end) evs.

(** The pauses among some events. *)
Definition pauses (evs : list Event) : list Z :=
  omap (λ ev, match ev with Sleep ms => Some ms | _ => None end) evs.

(** The error messages shown on the page among some events. *)
Definition shown (evs : list Event) : list string :=
  omap (λ ev, match ev with ShowError msg => Some msg | _ => None end) evs.

(** A candle of some answer of the exchange. *)
Definition returned (host : Host) (candle : Candle) : Prop :=
  ∃ k a b klines, klines_response host k a b = Ok klines ∧ candle ∈ klines.

(** The stored text is that of a series in ascending order, with one point
    a date, all dates being dates. *)
Definition stored_ok (st : Storage.t) : Prop :=
  ∃ data : Series,
    Storage.getItem st STORAGE_KEY = Ok (Some (JSON_stringify data)) ∧
    StronglySorted date_le data ∧ NoDup (date <$> data) ∧ Forall dated data.

(** The open time of a candle reads as a time value. *)
Definition timed (host : Host) (candle : Candle) : Prop :=
  ∃ t, Date.of_number (Num.parseInt (Number_toString host) (openTime candle)) = Some t.

(** The delays of the timers [scheduleDailyFetch] arms among some events.
    The timer of [showError], which clears the message after five seconds,
    is part of [ShowError]. *)
Definition timers (evs : list Event) : list (option Z) :=
  omap (λ ev, match ev with SetTimeout delay => Some delay | _ => None end) evs.

(** The numeral with six fractional digits of [n] millionths. *)
Definition render6 (n : Z) : string :=
  let ds := Str.of_Z n in
  let ds := replicate (7 - length ds) "0"%char ++ ds in
  Str.of_chars (take (length ds - 6) ds ++ "."%char :: drop (length ds - 6) ds).



(** The millionths [toFixed(6)] prints for [m * 2^e], [0 <= m]. *)
Definition millionths (m e : Z) : Z :=
  let '(num, den) := Num.scale (m * 10 ^ 6) 1 (- e) in (2 * num + den) / (2 * den).

(** A price as the fetcher writes it: [toFixed(6)] of a finite Number that
    is not negative, of fewer than [2^52] millionths (below
    4 503 599 627). *)
Definition written_price (host : Host) (s : string) : Prop :=
  ∃ m e, 0 <= m ∧ Num.ge_1e21 m e = false ∧ millionths m e < 2 ^ 52 ∧
         s = Num.toFixed (Number_toString host) (Num.Fin m e) 6.

(** ** Dates *)

Module DateFacts.
Import Date.

Lemma MonthFromDayWithinYear_range leap d : 0 <= MonthFromDayWithinYear leap d <= 11.
Proof. unfold MonthFromDayWithinYear. repeat case_match; lia. Qed.

Lemma MonthFromTime_range t : 0 <= MonthFromTime t <= 11.
Proof. apply MonthFromDayWithinYear_range. Qed.

(** The fields of a time value give back its day: dates carry linearly. *)
Lemma MakeDay_fields t k :
  MakeDay (YearFromTime t) (MonthFromTime t) (DateFromTime t + k) = Day t + k.
Proof.
  pose proof (MonthFromTime_range t) as Hm.
  unfold MakeDay, DateFromTime, DayWithinYear.
  rewrite Z.div_small, Z.mod_small by lia.
  rewrite Z.add_0_r. lia.
Qed.

Lemma Day_TimeWithinDay t : MakeDate (Day t) (TimeWithinDay t) = t.
Proof.
  unfold MakeDate, Day, TimeWithinDay, msPerDay.
  pose proof (Z.div_mod t 86400000). lia.
Qed.

Lemma TimeWithinDay_range t : 0 <= TimeWithinDay t < msPerDay.
Proof. unfold TimeWithinDay, msPerDay. apply Z.mod_pos_bound. lia. Qed.

Lemma TimeClip_Some t : Z.abs t <= maxTime → TimeClip t = Some t.
Proof. unfold TimeClip. intros. case_match; [done | lia]. Qed.

Lemma TimeClip_inv t v : TimeClip t = Some v → v = t ∧ Z.abs t <= maxTime.
Proof. unfold TimeClip. case_match; [|done]. intros [= <-]. lia. Qed.

(** [d.setUTCDate(d.getUTCDate() + k)] moves the time value by [k] days. *)
Lemma setUTCDate_add t k :
  setUTCDate (Some t) ((λ d, d + k) <$> getUTCDate (Some t)) = TimeClip (t + k * msPerDay).
Proof.
  cbn. rewrite MakeDay_fields. f_equal.
  pose proof (Day_TimeWithinDay t). unfold MakeDate in *. lia.
Qed.

(** [d.setDate(d.getDate() + k)] moves the local time by [k] days. *)
Lemma setDate_date_add tza t k :
  setDate tza (Some t) (Some (DateFromTime (LocalTime tza t) + k)) =
  TimeClip (toUTC tza (LocalTime tza t + k * msPerDay)).
Proof.
  cbn. rewrite MakeDay_fields. do 2 f_equal.
  pose proof (Day_TimeWithinDay (LocalTime tza t)). unfold MakeDate in *. lia.
Qed.

(** Where the offset of the zone does not change, it moves the time value
    by [k] days. *)
Lemma setDate_date_add_fixed tza off t k :
  (∀ t b, tza t b = off) →
  setDate tza (Some t) (Some (DateFromTime (LocalTime tza t) + k)) = TimeClip (t + k * msPerDay).
Proof.
  intros Hfix. rewrite setDate_date_add. unfold toUTC, LocalTime. rewrite !Hfix. f_equal. lia.
Qed.

(** In any zone whose offset stays within a day of UTC, it moves the time
    value by [k] days, two days more or less. *)
Lemma setDate_date_add_near tza t k :
  (∀ t b, Z.abs (tza t b) <= msPerDay) →
  ∃ u, setDate tza (Some t) (Some (DateFromTime (LocalTime tza t) + k)) = TimeClip u ∧
       t + (k - 2) * msPerDay <= u <= t + (k + 2) * msPerDay.
Proof.
  intros Hnear. rewrite setDate_date_add. eexists. split; [reflexivity|].
  unfold toUTC, LocalTime.
  pose proof (Hnear t true). pose proof (Hnear (t + tza t true + k * msPerDay) false).
  lia.
Qed.

Lemma YearFromDay_spec d :
  DayFromYear (YearFromDay d) <= d < DayFromYear (YearFromDay d + 1).
Proof.
  unfold YearFromDay.
  repeat case_match; unfold DayFromYear in *; Z.div_mod_to_equations; lia.
Qed.

Lemma DayFromYear_succ y : DayFromYear (y + 1) = DayFromYear y + DaysInYear y.
Proof.
  unfold DayFromYear, DaysInYear.
  repeat case_match; Z.div_mod_to_equations; lia.
Qed.

Lemma DayFromYear_mono y1 y2 : y1 <= y2 → DayFromYear y1 <= DayFromYear y2.
Proof. unfold DayFromYear. intros. Z.div_mod_to_equations; lia. Qed.

Lemma chars_of_chars l : Str.chars (Str.of_chars l) = l.
Proof. apply list_ascii_of_string_of_list_ascii. Qed.

Lemma of_chars_chars s : Str.of_chars (Str.chars s) = s.
Proof. apply string_of_list_ascii_of_string. Qed.

Lemma before_app sep l1 l2 :
  Forall (λ c, c ≠ sep) l1 →
  Str.before sep (Str.of_chars (l1 ++ sep :: l2)) = Str.of_chars l1.
Proof.
  unfold Str.of_chars.
  induction 1 as [|c l1 Hc _ IH]; cbn.
  - by rewrite Ascii.eqb_refl.
  - destruct (Ascii.eqb_spec c sep); [done|]. by rewrite IH.
Qed.

Lemma digit_val_digit_char x : Str.digit_val (Str.digit_char x) = Some (x mod 10).
Proof.
  unfold Str.digit_val, Str.digit_char.
  pose proof (Z.mod_pos_bound x 10 ltac:(lia)) as Hx.
  rewrite nat_ascii_embedding by lia.
  rewrite Z2Nat.id by lia.
  case_match eqn:E; [f_equal; lia | lia].
Qed.

Lemma is_digit_digit_char x : is_digit (Str.digit_char x).
Proof. unfold is_digit. rewrite digit_val_digit_char. eauto. Qed.

Lemma is_digit_ne c sep : Str.digit_val sep = None → is_digit c → c ≠ sep.
Proof. intros Hs [v Hv] ->. congruence. Qed.

Lemma pad_digits w n : Forall is_digit (Str.pad w n).
Proof.
  revert n. induction w as [|w IH]; intros n; cbn; [constructor|].
  apply Forall_app. split; [apply IH|]. repeat constructor. apply is_digit_digit_char.
Qed.

Lemma pad_length w n : length (Str.pad w n) = w.
Proof. revert n. induction w as [|w IH]; intros n; cbn; [done|]. rewrite length_app, IH. cbn. lia. Qed.

Lemma digits_val_app acc l1 l2 :
  Str.digits_val acc (l1 ++ l2) = Str.digits_val acc l1 ≫= λ v, Str.digits_val v l2.
Proof.
  revert acc. induction l1 as [|c l1 IH]; intros acc; cbn; [done|].
  destruct (Str.digit_val c); [apply IH | done].
Qed.

(** Reading back a padded numeral gives the number, up to the width. *)
Lemma digits_val_pad w acc n :
  0 <= n →
  Str.digits_val acc (Str.pad w n) = Some (acc * 10 ^ Z.of_nat w + n mod 10 ^ Z.of_nat w).
Proof.
  revert acc n. induction w as [|w IH]; intros acc n Hn.
  - cbn. rewrite Z.mod_1_r. f_equal. lia.
  - cbn [Str.pad]. rewrite digits_val_app, IH by (apply Z.div_pos; lia).
    cbn. rewrite digit_val_digit_char. f_equal.
    rewrite Nat2Z.inj_succ, Z.pow_succ_r by lia.
    pose proof (Z.pow_pos_nonneg 10 (Z.of_nat w) ltac:(lia) ltac:(lia)) as Hp.
    rewrite (Z.rem_mul_r n 10 (10 ^ Z.of_nat w)) by lia.
    lia.
Qed.

Lemma parse_calendar y1 y2 y3 y4 m1 m2 d1 d2 :
  Date.parse (Str.of_chars [y1; y2; y3; y4; "-"%char; m1; m2; "-"%char; d1; d2]) =
  y ← field [y1; y2; y3; y4]; m ← field [m1; m2]; d ← field [d1; d2]; civil y m d.
Proof. unfold parse. rewrite chars_of_chars. reflexivity. Qed.

Lemma field_pad w n : 0 <= n < 10 ^ Z.of_nat w → field (Str.pad w n) = Some n.
Proof.
  intros Hn. unfold field. rewrite digits_val_pad by lia.
  rewrite Z.mod_small by lia. done.
Qed.

Lemma pad4 n : Str.pad 4 n = [Str.digit_char (n / 10 / 10 / 10); Str.digit_char (n / 10 / 10);
                              Str.digit_char (n / 10); Str.digit_char n].
Proof. reflexivity. Qed.

Lemma pad2 n : Str.pad 2 n = [Str.digit_char (n / 10); Str.digit_char n].
Proof. reflexivity. Qed.

Lemma parse_calendarDay y m d :
  0 <= y <= 9999 → 0 <= m <= 99 → 0 <= d <= 99 →
  Date.parse (calendarDay y m d) = civil y m d.
Proof.
  intros Hy Hm Hd. unfold calendarDay.
  rewrite pad4, !pad2. cbn [app].
  rewrite parse_calendar, <- pad4, <- !pad2.
  rewrite !field_pad by (cbn; lia). done.
Qed.

Lemma DateFromTime_range t :
  1 <= DateFromTime t <= DaysInMonth (YearFromTime t) (MonthFromTime t + 1).
Proof.
  unfold DateFromTime, DaysInMonth, MonthFromTime, DayWithinYear, YearFromTime.
  pose proof (YearFromDay_spec (Day t)) as Hy.
  rewrite DayFromYear_succ in Hy.
  set (y := YearFromDay (Day t)) in *.
  set (dwy := Day t - DayFromYear y).
  assert (0 <= dwy < DaysInYear y) as Hd by lia.
  unfold InLeapYear. unfold DaysInYear in *.
  unfold MonthFromDayWithinYear.
  repeat case_match;
    repeat match goal with
           | |- context [monthStart ?l ?m] =>
               let v := eval vm_compute in (monthStart l m) in
               change (monthStart l m) with v
           end;
    lia.
Qed.

Lemma digit_char_ne x c : Str.digit_val c = None → Str.digit_char x ≠ c.
Proof. intros Hc. apply is_digit_ne; [done | apply is_digit_digit_char]. Qed.

Lemma isoDate_calendarDay t :
  0 <= YearFromTime t <= 9999 →
  isoDate (Some t) = Ok (calendarDay (YearFromTime t) (MonthFromTime t + 1) (DateFromTime t)).
Proof.
  intros Hy. unfold isoDate, toISOString, isoYear, calendarDay.
  case_match eqn:E; [|lia].
  rewrite pad4, !pad2. cbn [app]. f_equal.
  match goal with
  | |- Str.before _ (Str.of_chars (?a :: ?b :: ?c :: ?d :: ?e :: ?f :: ?g :: ?h :: ?i :: ?j :: _ :: ?r)) = _ =>
      apply (before_app "T"%char [a; b; c; d; e; f; g; h; i; j] r)
  end.
  repeat constructor; try (apply digit_char_ne; reflexivity); done.
Qed.

(** In the years 0..9999 the date string of a time value reads back as the
    start of its UTC day. *)
Lemma parse_isoDate t s :
  0 <= YearFromTime t <= 9999 →
  isoDate (Some t) = Ok s →
  Date.parse s = Some (Day t * msPerDay).
Proof.
  intros Hy. rewrite isoDate_calendarDay by done. intros [= <-].
  pose proof (MonthFromTime_range t) as Hm.
  pose proof (DateFromTime_range t) as Hd.
  assert (DaysInMonth (YearFromTime t) (MonthFromTime t + 1) <= 31) as Hdim.
  { unfold DaysInMonth, InLeapYear.
    revert Hm. generalize (MonthFromTime t). intros m Hm.
    assert (m = 0 ∨ m = 1 ∨ m = 2 ∨ m = 3 ∨ m = 4 ∨ m = 5 ∨ m = 6 ∨ m = 7 ∨ m = 8 ∨
            m = 9 ∨ m = 10 ∨ m = 11) as Hin by lia.
    repeat destruct Hin as [->|Hin]; subst; case_match; by vm_compute. }
  rewrite parse_calendarDay by lia.
  unfold civil.
  case_match eqn:E.
  - f_equal. replace (MonthFromTime t + 1 - 1) with (MonthFromTime t) by lia.
    pose proof (MakeDay_fields t 0) as H0. rewrite Z.add_0_r in H0. rewrite H0.
    unfold MakeDate. lia.
  - exfalso. rewrite !andb_false_iff in E. rewrite !Z.leb_gt in E. lia.
Qed.

(** The delay to the next UTC midnight, for a time value from which a day
    on is still a time value. *)
Lemma msUntilNext_eq now :
  - maxTime <= now <= maxTime - msPerDay →
  msUntilNext (Some now) = Some ((Day now + 1) * msPerDay - now).
Proof.
  intros Hr. unfold msUntilNext, nextFetchDate, copy, getTime.
  change Z.succ with (λ d, d + 1).
  rewrite setUTCDate_add. rewrite TimeClip_Some by (unfold maxTime, msPerDay in *; lia).
  cbn [setUTCHours]. unfold MakeTime, MakeDate.
  replace (Day (now + 1 * msPerDay)) with (Day now + 1).
  2:{ unfold Day, msPerDay. rewrite Z.div_add by lia. done. }
  rewrite TimeClip_Some.
  - cbn. f_equal. lia.
  - pose proof (Day_TimeWithinDay now). pose proof (TimeWithinDay_range now).
    unfold MakeDate, MakeTime, maxTime, msPerDay in *. lia.
Qed.

(** On the last day of the range of time values, [setUTCDate] moves the date
    out of the range, and the delay is NaN. *)
Lemma msUntilNext_last_day now :
  maxTime - msPerDay < now <= maxTime → msUntilNext (Some now) = None.
Proof.
  intros Hr. unfold msUntilNext, nextFetchDate, copy, getTime.
  change Z.succ with (λ d, d + 1).
  rewrite setUTCDate_add. unfold TimeClip. case_match eqn:E; [|done].
  apply Z.leb_le in E. unfold maxTime, msPerDay in *. lia.
Qed.

Lemma YearFromTime_ge t : 0 <= t → 1970 <= YearFromTime t.
Proof.
  intros Ht. unfold YearFromTime.
  assert (0 <= Day t) as Hd by (unfold Day, msPerDay; apply Z.div_pos; lia).
  pose proof (YearFromDay_spec (Day t)) as [_ Hy].
  destruct (decide (1970 <= YearFromDay (Day t))) as [|Hlt]; [done|].
  pose proof (DayFromYear_mono (YearFromDay (Day t) + 1) 1970 ltac:(lia)) as Hm.
  change (DayFromYear 1970) with 0 in Hm. lia.
Qed.

(** [Date.UTC] of the UTC date of a time value from 1970 on, at a given
    time of day. *)
Lemma UTC_fields t h m s ms :
  0 <= t →
  UTC (getUTCFullYear (Some t)) (getUTCMonth (Some t)) (getUTCDate (Some t)) h m s ms =
  TimeClip (Day t * msPerDay + MakeTime h m s ms).
Proof.
  intros Ht. pose proof (YearFromTime_ge t Ht) as Hy.
  unfold UTC, getUTCFullYear, getUTCMonth, getUTCDate. cbn [fmap option_fmap option_map].
  replace ((0 <=? YearFromTime t) && (YearFromTime t <=? 99)) with false
    by (symmetry; apply andb_false_iff; right; lia).
  pose proof (MakeDay_fields t 0) as H0. rewrite !Z.add_0_r in H0.
  rewrite H0. reflexivity.
Qed.

Lemma Day_add_days t k : Day (t + k * msPerDay) = Day t + k.
Proof. unfold Day, msPerDay. by rewrite Z.div_add by lia. Qed.

Lemma Day_mono a b : a <= b → Day a <= Day b.
Proof. unfold Day, msPerDay. intros. apply Z.div_le_mono; lia. Qed.

Lemma Day_bounds t : Day t * msPerDay <= t < (Day t + 1) * msPerDay.
Proof.
  pose proof (Day_TimeWithinDay t). pose proof (TimeWithinDay_range t).
  unfold MakeDate in *. lia.
Qed.

Lemma before_cons_ne sep c l : c ≠ sep → Str.before sep (Str.of_chars (c :: l)) ≠ ""%string.
Proof. intros Hc. cbn. destruct (Ascii.eqb_spec c sep); done. Qed.

Lemma toISOString_head t :
  ∃ c l, c ≠ "T"%char ∧ toISOString (Some t) = Ok (Str.of_chars (c :: l)).
Proof.
  unfold toISOString, isoYear.
  destruct ((0 <=? YearFromTime t) && (YearFromTime t <=? 9999)).
  - rewrite pad4. cbn [app]. eexists _, _. split; [|reflexivity]. by apply digit_char_ne.
  - cbn [app]. eexists _, _. split; [|reflexivity]. by case_match.
Qed.

(** The date string of a time value is never empty. *)
Lemma isoDate_nonempty t s : isoDate (Some t) = Ok s → s ≠ ""%string.
Proof.
  unfold isoDate. destruct (toISOString_head t) as (c & l & Hc & ->).
  intros [= <-]. cbn. by destruct (Ascii.eqb_spec c "T"%char).
Qed.

End DateFacts.

(** ** The order of date strings *)

Module OrderFacts.
Import Date DateFacts.

Lemma digit_char_mod a : Str.digit_char (a mod 10) = Str.digit_char a.
Proof. unfold Str.digit_char. by rewrite Z.mod_mod. Qed.

Lemma digit_compare a b :
  0 <= a < 10 → 0 <= b < 10 →
  Ascii.compare (Str.digit_char a) (Str.digit_char b) = (a ?= b).
Proof.
  intros Ha Hb.
  assert (a = 0 ∨ a = 1 ∨ a = 2 ∨ a = 3 ∨ a = 4 ∨ a = 5 ∨ a = 6 ∨ a = 7 ∨ a = 8 ∨ a = 9)
    as Ha' by lia.
  assert (b = 0 ∨ b = 1 ∨ b = 2 ∨ b = 3 ∨ b = 4 ∨ b = 5 ∨ b = 6 ∨ b = 7 ∨ b = 8 ∨ b = 9)
    as Hb' by lia.
  destruct_or!; subst; reflexivity.
Qed.

(** Numerals of the same width are ordered as their numbers are. *)
Lemma compare_pad w a b r1 r2 :
  0 <= a < 10 ^ Z.of_nat w → 0 <= b < 10 ^ Z.of_nat w →
  String.compare (Str.of_chars (Str.pad w a ++ r1)) (Str.of_chars (Str.pad w b ++ r2)) =
  match a ?= b with
  | Eq => String.compare (Str.of_chars r1) (Str.of_chars r2)
  | c => c
  end.
Proof.
  revert a b r1 r2. induction w as [|w IH]; intros a b r1 r2 Ha Hb.
  - cbn in *. assert (a = 0) as -> by lia. assert (b = 0) as -> by lia. done.
  - rewrite Nat2Z.inj_succ, Z.pow_succ_r in Ha, Hb by lia.
    cbn [Str.pad]. rewrite <- !(assoc_L (++)). cbn [app].
    rewrite IH by (Z.div_mod_to_equations; lia).
    cbn [Str.of_chars string_of_list_ascii String.compare].
    rewrite <- (digit_char_mod a), <- (digit_char_mod b).
    rewrite digit_compare by (Z.div_mod_to_equations; lia).
    destruct (Z.compare_spec (a / 10) (b / 10)), (Z.compare_spec (a mod 10) (b mod 10)),
      (Z.compare_spec a b); try done; Z.div_mod_to_equations; lia.
Qed.

(** Calendar-day strings are ordered as their fields are, the year first. *)
Lemma compare_calendarDay y1 m1 d1 y2 m2 d2 :
  0 <= y1 <= 9999 → 0 <= m1 <= 99 → 0 <= d1 <= 99 →
  0 <= y2 <= 9999 → 0 <= m2 <= 99 → 0 <= d2 <= 99 →
  String.compare (calendarDay y1 m1 d1) (calendarDay y2 m2 d2) =
  match y1 ?= y2 with
  | Eq => match m1 ?= m2 with
          | Eq => d1 ?= d2
          | c => c
          end
  | c => c
  end.
Proof.
  intros. unfold calendarDay. cbn [app].
  rewrite compare_pad by lia. destruct (y1 ?= y2); [|done..].
  cbn [Str.of_chars string_of_list_ascii String.compare]. 
  change (Ascii.compare "-" "-") with Eq. cbv iota.
  rewrite compare_pad by lia. destruct (m1 ?= m2); [|done..].
  cbn [Str.of_chars string_of_list_ascii String.compare]. 
  change (Ascii.compare "-" "-") with Eq. cbv iota.
  rewrite <- (app_nil_r (Str.pad 2 d1)), <- (app_nil_r (Str.pad 2 d2)).
  rewrite compare_pad by lia. by destruct (d1 ?= d2).
Qed.

Lemma monthStart_mono leap m1 m2 :
  0 <= leap <= 1 → 0 <= m1 → m1 < m2 <= 11 → monthStart leap (m1 + 1) <= monthStart leap m2.
Proof.
  intros Hl Hm1 Hm2.
  assert (∀ a b, 0 <= a <= b → b <= 11 → monthStart leap a <= monthStart leap b) as Hle.
  { intros a b Ha Hb.
    assert (a = 0 ∨ a = 1 ∨ a = 2 ∨ a = 3 ∨ a = 4 ∨ a = 5 ∨ a = 6 ∨ a = 7 ∨
            a = 8 ∨ a = 9 ∨ a = 10 ∨ a = 11) as H1 by lia.
    assert (b = 0 ∨ b = 1 ∨ b = 2 ∨ b = 3 ∨ b = 4 ∨ b = 5 ∨ b = 6 ∨ b = 7 ∨
            b = 8 ∨ b = 9 ∨ b = 10 ∨ b = 11) as H2 by lia.
    destruct_or!; subst; cbn [monthStart]; lia. }
  apply Hle; lia.
Qed.

(** The fields of a time value within its day number. *)
Lemma Day_fields t :
  Day t = DayFromYear (YearFromTime t) +
          monthStart (InLeapYear (YearFromTime t)) (MonthFromTime t) + DateFromTime t - 1.
Proof. unfold DateFromTime, DayWithinYear. lia. Qed.

Lemma InLeapYear_range y : 0 <= InLeapYear y <= 1.
Proof. unfold InLeapYear. case_match; lia. Qed.

Lemma DaysInMonth_le y m : 1 <= m <= 12 → DaysInMonth y m <= 31.
Proof.
  intros Hm. unfold DaysInMonth.
  pose proof (InLeapYear_range y) as Hl. revert Hl. generalize (InLeapYear y). intros leap Hl.
  assert (m = 1 ∨ m = 2 ∨ m = 3 ∨ m = 4 ∨ m = 5 ∨ m = 6 ∨ m = 7 ∨
          m = 8 ∨ m = 9 ∨ m = 10 ∨ m = 11 ∨ m = 12) as Hc by lia.
  destruct_or!; subst;
    match goal with
    | |- context [monthStart _ (?k - 1)] =>
        let v := eval vm_compute in (k - 1) in change (k - 1) with v
    end; cbn [monthStart]; lia.
Qed.

(** Days are ordered as their fields are, the year first. *)
Lemma Day_compare t1 t2 :
  (Day t1 ?= Day t2) =
  match YearFromTime t1 ?= YearFromTime t2 with
  | Eq => match MonthFromTime t1 ?= MonthFromTime t2 with
          | Eq => DateFromTime t1 ?= DateFromTime t2
          | c => c
          end
  | c => c
  end.
Proof.
  pose proof (Day_fields t1) as H1. pose proof (Day_fields t2) as H2.
  pose proof (YearFromDay_spec (Day t1)) as Hy1. pose proof (YearFromDay_spec (Day t2)) as Hy2.
  pose proof (MonthFromTime_range t1) as Hm1. pose proof (MonthFromTime_range t2) as Hm2.
  pose proof (DateFromTime_range t1) as Hd1. pose proof (DateFromTime_range t2) as Hd2.
  unfold DaysInMonth in Hd1, Hd2.
  replace (MonthFromTime t1 + 1 - 1) with (MonthFromTime t1) in Hd1 by lia.
  replace (MonthFromTime t2 + 1 - 1) with (MonthFromTime t2) in Hd2 by lia.
  fold (YearFromTime t1) in Hy1. fold (YearFromTime t2) in Hy2.
  destruct (Z.compare_spec (YearFromTime t1) (YearFromTime t2)) as [Hy|Hy|Hy].
  - rewrite Hy in *.
    pose proof (InLeapYear_range (YearFromTime t2)) as Hl.
    destruct (Z.compare_spec (MonthFromTime t1) (MonthFromTime t2)) as [Hm|Hm|Hm].
    + rewrite Hm in *. destruct (Z.compare_spec (DateFromTime t1) (DateFromTime t2));
        [apply Z.compare_eq_iff|apply Z.compare_lt_iff|apply Z.compare_gt_iff]; lia.
    + pose proof (monthStart_mono _ _ _ Hl (proj1 Hm1) (conj Hm (proj2 Hm2))).
      apply Z.compare_lt_iff. lia.
    + pose proof (monthStart_mono _ _ _ Hl (proj1 Hm2) (conj Hm (proj2 Hm1))).
      apply Z.compare_gt_iff. lia.
  - pose proof (DayFromYear_mono (YearFromTime t1 + 1) (YearFromTime t2) ltac:(lia)).
    apply Z.compare_lt_iff. lia.
  - pose proof (DayFromYear_mono (YearFromTime t2 + 1) (YearFromTime t1) ltac:(lia)).
    apply Z.compare_gt_iff. lia.
Qed.

(** The date strings of two time values of the years 0 to 9999 are ordered
    as their days are. *)
Lemma isoDate_compare t1 t2 d1 d2 :
  0 <= YearFromTime t1 <= 9999 → 0 <= YearFromTime t2 <= 9999 →
  isoDate (Some t1) = Ok d1 → isoDate (Some t2) = Ok d2 →
  String.compare d1 d2 = (Day t1 ?= Day t2).
Proof.
  intros Hy1 Hy2. rewrite !isoDate_calendarDay by done. intros [= <-] [= <-].
  pose proof (MonthFromTime_range t1). pose proof (MonthFromTime_range t2).
  pose proof (DateFromTime_range t1) as Hd1. pose proof (DateFromTime_range t2) as Hd2.
  pose proof (DaysInMonth_le (YearFromTime t1) (MonthFromTime t1 + 1) ltac:(lia)).
  pose proof (DaysInMonth_le (YearFromTime t2) (MonthFromTime t2 + 1) ltac:(lia)).
  rewrite compare_calendarDay by lia. rewrite Day_compare.
  destruct (YearFromTime t1 ?= YearFromTime t2); [|done..].
  destruct (Z.compare_spec (MonthFromTime t1 + 1) (MonthFromTime t2 + 1)),
    (Z.compare_spec (MonthFromTime t1) (MonthFromTime t2)); try done; lia.
Qed.

Lemma isoDate_ltb t1 t2 d1 d2 :
  0 <= YearFromTime t1 <= 9999 → 0 <= YearFromTime t2 <= 9999 →
  isoDate (Some t1) = Ok d1 → isoDate (Some t2) = Ok d2 →
  Str.ltb d1 d2 = true ↔ Day t1 < Day t2.
Proof.
  intros Hy1 Hy2 H1 H2. unfold Str.ltb, String.ltb.
  rewrite (isoDate_compare t1 t2) by done.
  destruct (Z.compare_spec (Day t1) (Day t2)); split; (done || lia).
Qed.

End OrderFacts.

(** ** Numerals *)

Module NumFacts.

Lemma ndigits_pos fuel n : (1 ≤ Str.ndigits fuel n)%nat.
Proof. destruct fuel; cbn; [lia|]. case_match; lia. Qed.

Lemma ndigits_enough fuel n :
  0 <= n < 2 ^ (Z.of_nat fuel + 1) → n < 10 ^ Z.of_nat (Str.ndigits fuel n).
Proof.
  revert n. induction fuel as [|fuel IH]; intros n Hn.
  - cbn in *. lia.
  - cbn [Str.ndigits]. destruct (Z.ltb_spec n 10) as [Hlt|Hge]; [cbn; lia|].
    rewrite Nat2Z.inj_succ, Z.pow_succ_r by lia.
    assert (n / 10 < 10 ^ Z.of_nat (Str.ndigits fuel (n / 10))) as Hq.
    { apply IH. split; [apply Z.div_pos; lia|].
      rewrite Nat2Z.inj_succ in Hn.
      replace (Z.succ (Z.of_nat fuel) + 1) with (Z.succ (Z.of_nat fuel + 1)) in Hn by lia.
      rewrite Z.pow_succ_r in Hn by lia.
      apply Z.div_lt_upper_bound; lia. }
    pose proof (Z.div_mod n 10 ltac:(lia)). pose proof (Z.mod_pos_bound n 10 ltac:(lia)).
    lia.
Qed.

Lemma of_Z_digits n : Forall is_digit (Str.of_Z n).
Proof. apply DateFacts.pad_digits. Qed.

Lemma of_Z_length n : (1 ≤ length (Str.of_Z n))%nat.
Proof. unfold Str.of_Z. rewrite DateFacts.pad_length. apply ndigits_pos. Qed.

(** A numeral reads back as the number it prints. *)
Lemma digits_val_of_Z n : 0 <= n → Str.digits_val 0 (Str.of_Z n) = Some n.
Proof.
  intros Hn. unfold Str.of_Z. rewrite DateFacts.digits_val_pad by done.
  rewrite Z.mod_small; [done|]. split; [done|].
  apply ndigits_enough. split; [done|].
  destruct (decide (n = 0)) as [->|Hne]; [done|].
  rewrite Z2Nat.id by apply Z.log2_nonneg.
  apply Z.log2_spec. lia.
Qed.

Lemma digits_val_zeros k l : 
  Str.digits_val 0 (replicate k "0"%char ++ l) = Str.digits_val 0 l.
Proof. induction k as [|k IH]; [done|]. cbn. exact IH. Qed.

Lemma filter_digits (l : list ascii) :
  Forall is_digit l → filter (λ c, c ≠ "."%char ∧ c ≠ "-"%char) l = l.
Proof.
  induction 1 as [|c l Hc _ IH]; [done|].
  rewrite filter_cons, IH. case_decide as Hd; [done|].
  exfalso. apply Hd. split; apply DateFacts.is_digit_ne; done.
Qed.

Section ToFixed.
Variable Number_toString : Num.number → string.

(** [toFixed(6)] of a finite Number below [1e21]: six fractional digits,
    which read as the integer nearest to the Number's millionths (the
    larger one on a tie). *)
Lemma toFixed_6 m e :
  Num.ge_1e21 (Z.abs m) e = false →
  fixed6 (Num.toFixed Number_toString (Num.Fin m e) 6) ∧
  ∃ n, unscaled (Num.toFixed Number_toString (Num.Fin m e) 6) = Some n ∧
       nearest_millionths m e n.
Proof.
  intros Hlt. unfold Num.toFixed. rewrite Hlt.
  destruct (Num.scale (Z.abs m * 10 ^ Z.of_nat 6) 1 (- e)) as [num den] eqn:Hsc.
  set (n := (2 * num + den) / (2 * den)).
  set (ds := replicate (7 - length (Str.of_Z n)) "0"%char ++ Str.of_Z n).
  assert (0 < den ∧ 0 <= num) as [Hden Hnum].
  { unfold Num.scale in Hsc. case_match; simplify_eq.
    - split; [|lia]. apply Z.mul_pos_pos; [lia|]. apply Z.pow_pos_nonneg; lia.
    - split; [lia|]. apply Z.mul_nonneg_nonneg; [lia|]. apply Z.pow_nonneg; lia. }
  assert (0 <= n) as Hn by (apply Z.div_pos; lia).
  assert (Forall is_digit ds) as Hds.
  { apply Forall_app. split; [|apply of_Z_digits].
    apply Forall_replicate. by exists 0. }
  assert (7 ≤ length ds)%nat as Hlen.
  { unfold ds. rewrite length_app, length_replicate. pose proof (of_Z_length n). lia. }
  assert (Str.digits_val 0 ds = Some n) as Hval.
  { unfold ds. rewrite digits_val_zeros. by apply digits_val_of_Z. }
  rewrite <- (take_drop (length ds - 6) ds) in Hds, Hval.
  apply Forall_app in Hds as [Hip Hfp].
  set (ip := take (length ds - 6) ds) in *. set (fp := drop (length ds - 6) ds) in *.
  split.
  - exists (if m <? 0 then ["-"%char] else []), ip, fp.
    rewrite DateFacts.chars_of_chars. split_and!; [done| |  |done|done|].
    + case_match; auto.
    + intros Hnil. apply (f_equal length) in Hnil. unfold ip in Hnil.
      rewrite length_take in Hnil. cbn in Hnil. lia.
    + unfold fp. rewrite length_drop. lia.
  - exists n. split.
    + unfold unscaled. rewrite DateFacts.chars_of_chars.
      rewrite !filter_app, filter_cons.
      rewrite decide_False by (intros [? _]; done).
      rewrite !(filter_digits ip), (filter_digits fp) by done.
      assert (filter (λ c, c ≠ "."%char ∧ c ≠ "-"%char)
                (if m <? 0 then ["-"%char] else []) = []) as ->.
      { case_match; [|done]. rewrite filter_cons.
        rewrite decide_False by (intros [_ ?]; done). done. }
      exact Hval.
    + unfold nearest_millionths. unfold Num.scale in Hsc.
      destruct (Z.leb_spec 0 e) as [He|He].
      * assert (num = Z.abs m * 2 ^ e * 10 ^ 6 ∧ den = 1) as [-> ->].
        { destruct (decide (e = 0)) as [->|Hne].
          - replace (0 <=? - 0) with true in Hsc by reflexivity.
            injection Hsc as <- <-.
            change (2 ^ (- 0)) with 1. change (2 ^ 0) with 1.
            change (Z.of_nat 6) with 6. split; lia.
          - rewrite (proj2 (Z.leb_gt 0 (- e))) in Hsc by lia.
            rewrite Z.opp_involutive in Hsc. injection Hsc as <- <-.
            change (Z.of_nat 6) with 6. split; lia. }
        unfold n. symmetry. apply Z.div_unique with 1; lia.
      * rewrite (proj2 (Z.leb_le 0 (- e))) in Hsc by lia. simplify_eq.
        rewrite Z.mul_1_l in *.
        change (10 ^ Z.of_nat 6) with 1000000 in *. change (10 ^ 6) with 1000000.
        unfold n. rewrite !Z.mul_1_l. clearbody ds. clear n Hn Hval.
        generalize dependent (2 ^ (- e)). intros d Hden.
        pose proof (Z.div_mod (2 * (Z.abs m * 1000000) + d) (2 * d) ltac:(lia)) as Hdm.
        pose proof (Z.mod_pos_bound (2 * (Z.abs m * 1000000) + d) (2 * d) ltac:(lia)) as Hb.
        revert Hdm Hb.
        generalize ((2 * (Z.abs m * 1000000) + d) mod (2 * d)).
        generalize ((2 * (Z.abs m * 1000000) + d) / (2 * d)).
        intros q r Hdm Hb. lia.
Qed.
End ToFixed.

End NumFacts.

(** ** The stored blob: what [JSON.stringify] writes, [JSON.parse] reads *)

Module JSONFacts.
Import JSON.

(** A character, escaped, reads back as itself. *)
Lemma parse_string_escape c r :
  parse_string (escape c ++ r) = (sr ← parse_string r; Some (c :: sr.1, sr.2)).
Proof. destruct c as [[] [] [] [] [] [] [] []]; reflexivity. Qed.

Lemma parse_string_quoted l r :
  parse_string (concat (escape <$> l) ++ quote_char :: r) = Some (l, r).
Proof.
  induction l as [|c l IH]; [reflexivity|].
  rewrite fmap_cons, concat_cons, <- (assoc_L (++)), parse_string_escape, IH. done.
Qed.

Lemma parse_value_string fuel s r :
  parse_value (S fuel) (quote s ++ r) = Some (String s, r).
Proof.
  unfold quote. cbn [app parse_value skip_ws]. 
  change (is_ws quote_char) with false. cbv beta iota.
  change (Ascii.eqb quote_char quote_char) with true. cbv beta iota.
  rewrite <- (assoc_L (++)). cbn [app].
  rewrite parse_string_quoted. cbn. by rewrite DateFacts.of_chars_chars.
Qed.

Lemma parse_member fuel k s c rest :
  is_ws c = false →
  parse_members (S (S fuel)) (quote k ++ ":"%char :: quote s ++ c :: rest) =
  match c with
  | ","%char => '(ms, r) ← parse_members (S fuel) rest; Some ((k, String s) :: ms, r)
  | "}"%char => Some ([(k, String s)], rest)
  | _ => None
  end.
Proof.
  intros Hc.
  cbn [parse_members]. unfold quote at 1. cbn [app skip_ws].
  change (is_ws quote_char) with false. cbv beta iota.
  change (Ascii.eqb quote_char quote_char) with true. cbv beta iota.
  rewrite <- (assoc_L (++)). cbn [app]. rewrite parse_string_quoted.
  cbn [mbind option_bind skip_ws]. change (is_ws ":") with false. cbv beta iota.
  rewrite parse_value_string. cbn [mbind option_bind skip_ws]. rewrite Hc.
  rewrite DateFacts.of_chars_chars. reflexivity.
Qed.

Lemma parse_value_object fuel l :
  parse_value (S fuel) ("{"%char :: quote_char :: l) =
  '(ms, r) ← parse_members fuel (quote_char :: l); Some (Object ms, r).
Proof. reflexivity. Qed.

(** A stored point reads back as the object of its two members. *)
Lemma parse_value_point fuel p r :
  parse_value (4 + fuel) (stringify_point p ++ r) = Some (value_of_point p, r).
Proof.
  unfold stringify_point. rewrite <- !(assoc_L (++)).
  change (4 + fuel)%nat with (S (S (S (S fuel)))).
  cbn [Str.chars list_ascii_of_string app].
  unfold quote at 1. cbn [app]. rewrite parse_value_object.
  change (quote_char :: (concat (escape <$> Str.chars "date") ++ [quote_char]) ++ ?l)
    with (quote "date" ++ l).
  rewrite parse_member by reflexivity.
  rewrite parse_member by reflexivity.
  reflexivity.
Qed.

Lemma parse_elements_points fuel p ps r :
  parse_elements (length (p :: ps) + 4 + fuel)
    (join (Str.chars ",") (stringify_point <$> p :: ps) ++ "]"%char :: r) =
  Some (value_of_point <$> p :: ps, r).
Proof.
  revert p. induction ps as [|q ps IH]; intros p.
  - cbn [length fmap list_fmap join Nat.add parse_elements].
    rewrite (parse_value_point fuel). reflexivity.
  - change (join (Str.chars ",") (stringify_point <$> p :: q :: ps))
      with (stringify_point p ++ ","%char :: join (Str.chars ",") (stringify_point <$> q :: ps)).
    rewrite <- (assoc_L (++)).
    change (length (p :: q :: ps) + 4 + fuel)%nat with (S (length (q :: ps) + 4 + fuel)).
    cbn [parse_elements].
    replace (length (q :: ps) + 4 + fuel)%nat with (4 + (length (q :: ps) + fuel))%nat at 1 by lia.
    rewrite parse_value_point. cbn [mbind option_bind skip_ws app].
    change (is_ws ",") with false. cbv beta iota.
    rewrite IH. reflexivity.
Qed.

Lemma parse_value_array fuel l :
  parse_value (S fuel) ("["%char :: "{"%char :: l) =
  '(vs, r) ← parse_elements fuel ("{"%char :: l); Some (Array vs, r).
Proof. reflexivity. Qed.

Lemma join_length sep (parts : list (list ascii)) :
  Forall (λ p, p ≠ []) parts → (length parts ≤ length (join sep parts))%nat.
Proof.
  induction 1 as [|p parts Hp _ IH]; [done|].
  destruct p as [|c p]; [done|]. destruct parts as [|q parts]; cbn in *.
  - lia.
  - rewrite !length_app in *. lia.
Qed.

(** The text of a series parses, to the array of its points. *)
Lemma parse_stringify (data : Series) :
  parse (JSON_stringify data) = Ok (value_of_series data).
Proof.
  unfold parse, JSON_stringify. rewrite DateFacts.chars_of_chars.
  destruct data as [|p ps]; [reflexivity|].
  assert (length (p :: ps) ≤
          length (join (Str.chars ",") (stringify_point <$> p :: ps)))%nat as Hlen.
  { rewrite <- (length_fmap stringify_point). apply join_length.
    apply Forall_fmap, Forall_true. intros q. done. }
  assert (∃ l, join (Str.chars ",") (stringify_point <$> p :: ps) = "{"%char :: l) as [l Hl]
    by (destruct ps; eexists; reflexivity).
  cbn [Str.chars list_ascii_of_string app] in Hlen, Hl |- *.
  set (text := join _ _ ++ _).
  assert (length (p :: ps) + 1 ≤ length text)%nat as Htext.
  { unfold text. rewrite length_app. cbn [length] in Hlen |- *. lia. }
  replace (2 * length ("["%char :: text) + 2)%nat
    with (S (length (p :: ps) + 4 + (2 * length text - (length (p :: ps) + 1))))%nat
    by (cbn [length] in Htext |- *; lia).
  unfold text in *. rewrite Hl. cbn [app]. rewrite parse_value_array.
  change ("{"%char :: l ++ ["]"%char]) with (("{"%char :: l) ++ ["]"%char]). rewrite <- Hl.
  rewrite parse_elements_points. reflexivity.
Qed.

Lemma series_of_value_of_series (data : Series) :
  series_of_value (value_of_series data) = Some data.
Proof.
  unfold value_of_series, series_of_value.
  induction data as [|[d p] data IH]; [done|].
  rewrite fmap_cons. cbn [mapM]. rewrite IH. reflexivity.
Qed.

End JSONFacts.

(** ** Sorting and removing duplicates *)

Section SortFacts.
Context {A : Type} (cmp : A → A → option Z).
Local Abbreviation insert := (JSArray.insert cmp).
Local Abbreviation sort := (JSArray.sort cmp).
Local Abbreviation after := (JSArray.after cmp).

Lemma sort_cons x l : sort (x :: l) = insert x (sort l).
Proof. reflexivity. Qed.

Lemma insert_perm x l : insert x l ≡ₚ x :: l.
Proof.
  induction l as [|y l IH]; cbn; [done|].
  case_match; [|done]. rewrite IH. apply Permutation_swap.
Qed.

Lemma sort_perm l : sort l ≡ₚ l.
Proof.
  induction l as [|x l IH]; [done|].
  rewrite sort_cons, insert_perm. by constructor.
Qed.

(** [insert] puts [x] behind the elements it has to come after, and in
    front of the first one it need not come after. *)
Lemma insert_split x l :
  ∃ l1 l2, l = l1 ++ l2 ∧ insert x l = l1 ++ x :: l2 ∧
           Forall (λ y, after x y = true) l1 ∧
           (head l2 = None ∨ ∃ y, head l2 = Some y ∧ after x y = false).
Proof.
  induction l as [|y l IH]; cbn.
  - exists [], []. auto.
  - destruct (after x y) eqn:E.
    + destruct IH as (l1 & l2 & -> & -> & H1 & H2).
      exists (y :: l1), l2. split_and!; auto.
    + exists [], (y :: l). split_and!; eauto.
Qed.

(** Stability: a property that the elements [x] has to come after never
    have is met in the same order before and after the insertion. *)
Lemma filter_insert (P : A → Prop) `{!∀ a, Decision (P a)} x l :
  (∀ y, P x → P y → after x y = false) →
  filter P (insert x l) = filter P (x :: l).
Proof.
  intros HP. destruct (insert_split x l) as (l1 & l2 & -> & -> & H1 & _).
  rewrite filter_app, !filter_cons, filter_app.
  case_decide as Hx; [|done].
  assert (filter P l1 = []) as ->; [|done].
  clear -H1 HP Hx. induction H1 as [|y l1 Hy _ IH]; [done|].
  rewrite filter_cons. case_decide as Py; [|done].
  specialize (HP y Hx Py). congruence.
Qed.

Lemma filter_sort (P : A → Prop) `{!∀ a, Decision (P a)} l :
  (∀ x y, P x → P y → after x y = false) →
  filter P (sort l) = filter P l.
Proof.
  intros HP. induction l as [|x l IH]; [done|].
  rewrite sort_cons, filter_insert by eauto. rewrite !filter_cons, IH. done.
Qed.

Section Ordered.
(** The comparator agrees with a total preorder on the elements at
    hand. *)
Variable le : A → A → Prop.
Variable ok : A → Prop.
Hypothesis le_trans : ∀ a b c, le a b → le b c → le a c.
Hypothesis after_le : ∀ a b, ok a → ok b → after a b = true → le b a.
Hypothesis not_after_le : ∀ a b, ok a → ok b → after a b = false → le a b.

Lemma insert_sorted x l :
  ok x → Forall ok l → StronglySorted le l → StronglySorted le (insert x l).
Proof.
  intros Hx Hl Hs. induction Hs as [|y l Hs IH Hy]; cbn.
  - repeat constructor.
  - apply Forall_cons in Hl as [Hoy Hl].
    destruct (after x y) eqn:E.
    + constructor; [by apply IH|].
      rewrite insert_perm. constructor; [by apply after_le | done].
    + constructor; [by constructor|].
      constructor; [by apply not_after_le|].
      eapply Forall_impl; [exact Hy|]. cbn. intros z Hz.
      eapply le_trans; [|exact Hz]. by apply not_after_le.
Qed.

Lemma sort_sorted l : Forall ok l → StronglySorted le (sort l).
Proof.
  induction 1 as [|x l Hx Hl IH]; [constructor|].
  rewrite sort_cons. apply insert_sorted; [done| |done]. by rewrite sort_perm.
Qed.

(** In a sorted list [insert] stops in front of elements that are all
    no smaller. *)
Lemma insert_split_sorted x l :
  ok x → Forall ok l → StronglySorted le l →
  ∃ l1 l2, l = l1 ++ l2 ∧ insert x l = l1 ++ x :: l2 ∧
           Forall (λ y, after x y = true) l1 ∧ Forall (le x) l2.
Proof.
  intros Hx Hl Hs.
  destruct (insert_split x l) as (l1 & l2 & -> & Hi & H1 & H2).
  exists l1, l2. split_and!; [done..|].
  apply Forall_app in Hl as [_ Hl2].
  apply StronglySorted_app_1_r in Hs.
  destruct H2 as [H2|(y & H2 & Hy)].
  - destruct l2; [constructor | done].
  - destruct l2 as [|y' l2]; [done|]. injection H2 as ->.
    apply Forall_cons in Hl2 as [Hoy Hl2].
    apply StronglySorted_cons in Hs as [Hs _].
    constructor; [by apply not_after_le|].
    eapply Forall_impl; [exact Hs|]. cbn. intros z Hz.
    eapply le_trans; [|exact Hz]. by apply not_after_le.
Qed.
End Ordered.
End SortFacts.

(** *** The comparator [byDate] *)

Lemma after_byDate a b :
  JSArray.after byDate a b = true ↔
  ∃ x y, Date.parse (date a) = Some x ∧ Date.parse (date b) = Some y ∧ y < x.
Proof.
  unfold JSArray.after, byDate, Date.sub, Date.of_string.
  destruct (Date.parse (date a)) as [x|], (Date.parse (date b)) as [y|]; cbn.
  - rewrite Z.ltb_lt. split.
    + intros. exists x, y. split_and!; [done..|lia].
    + intros (? & ? & [= <-] & [= <-] & ?). lia.
  - split; [done|]. by intros (? & ? & _ & ? & _).
  - split; [done|]. by intros (? & ? & ? & _).
  - split; [done|]. by intros (? & ? & ? & _).
Qed.

Lemma not_after_byDate a b :
  dated a → dated b → JSArray.after byDate a b = false → date_le a b.
Proof.
  intros [x Hx] [y Hy] Hab. exists x, y. split_and!; [done..|].
  destruct (decide (y < x)) as [Hlt|]; [|lia].
  assert (JSArray.after byDate a b = true) by (apply after_byDate; eauto).
  congruence.
Qed.

Lemma after_byDate_le a b : JSArray.after byDate a b = true → date_le b a.
Proof. intros (x & y & ? & ? & ?)%after_byDate. exists y, x. split_and!; [done..|lia]. Qed.

Lemma date_le_not_after a b : date_le a b → JSArray.after byDate a b = false.
Proof.
  intros (x & y & Hx & Hy & ?). apply not_true_is_false.
  intros (x' & y' & Hx' & Hy' & ?)%after_byDate. simplify_eq. lia.
Qed.

Lemma date_le_trans a b c : date_le a b → date_le b c → date_le a c.
Proof.
  intros (x & y & ? & ? & ?) (y' & z & ? & ? & ?). simplify_eq.
  exists x, z. split_and!; [done..|lia].
Qed.

(** Points of one date never have to change places. *)
Lemma same_date_not_after a b : date a = date b → JSArray.after byDate a b = false.
Proof.
  intros Hd. apply not_true_is_false.
  intros (x & y & Hx & Hy & ?)%after_byDate. rewrite Hd in Hx. simplify_eq. lia.
Qed.

Lemma after_byDate_date_ne a b : JSArray.after byDate a b = true → date a ≠ date b.
Proof. intros Hab Hd. apply same_date_not_after in Hd. congruence. Qed.

(** *** [removeDuplicates] *)

Lemma firstOn_cons d q l :
  firstOn d (q :: l) = if decide (date q = d) then Some q else firstOn d l.
Proof. unfold firstOn. rewrite filter_cons. by case_decide. Qed.

Lemma removeDuplicates_from_elem seen l p :
  p ∈ removeDuplicates_from seen l ↔ (date p ∉ seen) ∧ firstOn (date p) l = Some p.
Proof.
  revert seen. induction l as [|item rest IH]; intros seen; cbn.
  - rewrite elem_of_nil. unfold firstOn. cbn. naive_solver.
  - rewrite firstOn_cons. case_bool_decide as Hseen.
    + rewrite IH. case_decide as Hd; [|done].
      split; [intros [? _]|intros [? _]]; congruence.
    + rewrite elem_of_cons, IH. case_decide as Hd.
      * split.
        -- intros [->|[Hn _]]; [done|]. set_solver.
        -- intros [? [= ->]]. by left.
      * split.
        -- intros [->|[Hn ?]]; [done|]. split; [set_solver|done].
        -- intros [? ?]. right. split; [set_solver|done].
Qed.

Lemma removeDuplicates_from_sublist seen l : removeDuplicates_from seen l `sublist_of` l.
Proof.
  revert seen. induction l as [|item rest IH]; intros seen; cbn; [done|].
  case_bool_decide; [by apply sublist_cons | by apply sublist_skip].
Qed.

Lemma removeDuplicates_from_NoDup seen l : NoDup (fmap date (removeDuplicates_from seen l)).
Proof.
  revert seen. induction l as [|item rest IH]; intros seen; cbn; [constructor|].
  case_bool_decide; [apply IH|]. cbn. constructor; [|apply IH].
  intros (p & Hp & Hin)%list_elem_of_fmap_1.
  apply removeDuplicates_from_elem in Hin as [Hn _]. set_solver.
Qed.

(** A series without two points of one date is left as it is. *)
Lemma removeDuplicates_from_id seen l :
  NoDup (fmap date l) → (∀ p, p ∈ l → date p ∉ seen) →
  removeDuplicates_from seen l = l.
Proof.
  revert seen. induction l as [|item rest IH]; intros seen Hnd Hseen; cbn; [done|].
  apply NoDup_cons in Hnd as [Hitem Hnd].
  rewrite bool_decide_eq_false_2 by (apply Hseen; left).
  f_equal. apply IH; [done|]. intros p Hp.
  assert (date p ≠ date item).
  { intros Heq. apply Hitem. rewrite <- Heq. by apply list_elem_of_fmap_2. }
  specialize (Hseen p ltac:(by right)). set_solver.
Qed.

Lemma removeDuplicates_from_app seen l1 l2 :
  removeDuplicates_from seen (l1 ++ l2) =
  removeDuplicates_from seen l1 ++
  removeDuplicates_from (list_to_set (fmap date l1) ∪ seen) l2.
Proof.
  revert seen. induction l1 as [|item rest IH]; intros seen; cbn.
  - f_equal. set_solver.
  - case_bool_decide as Hs.
    + rewrite IH. do 2 f_equal. set_solver.
    + cbn. rewrite IH. do 3 f_equal. set_solver.
Qed.

(** A date that does not occur makes no difference in the seen set. *)
Lemma removeDuplicates_from_absent d seen l :
  d ∉ fmap date l →
  removeDuplicates_from ({[d]} ∪ seen) l = removeDuplicates_from seen l.
Proof.
  revert seen. induction l as [|item rest IH]; intros seen Hd; cbn; [done|].
  rewrite fmap_cons in Hd. apply not_elem_of_cons in Hd as [Hne Hd].
  case_bool_decide as H1; case_bool_decide as H2.
  - by apply IH.
  - set_solver.
  - set_solver.
  - f_equal. rewrite <- (IH ({[date item]} ∪ seen) Hd). f_equal. set_solver.
Qed.

Lemma removeDuplicates_from_sorted seen l :
  StronglySorted date_le l → StronglySorted date_le (removeDuplicates_from seen l).
Proof.
  intros Hs. revert seen. induction Hs as [|item rest Hs IH Hle]; intros seen; cbn.
  - constructor.
  - case_bool_decide; [apply IH|]. constructor; [apply IH|].
    apply Forall_forall. intros p [_ Hp]%removeDuplicates_from_elem.
    rewrite Forall_forall in Hle. apply Hle.
    unfold firstOn in Hp. apply head_Some_elem_of in Hp.
    by apply list_elem_of_filter in Hp as [_ ?].
Qed.

(** *** Sorting and deduplication commute on dated points *)

Lemma insert_app_stop x (l1 l2 : Series) :
  Forall (λ y, JSArray.after byDate x y = true) l1 →
  Forall (date_le x) l2 →
  JSArray.insert byDate x (l1 ++ l2) = l1 ++ x :: l2.
Proof.
  intros H1 H2. induction H1 as [|y l1 Hy _ IH]; cbn.
  - destruct H2 as [|z l2 Hz _]; cbn; [done|].
    by rewrite (date_le_not_after _ _ Hz).
  - by rewrite Hy, IH.
Qed.

Lemma removeDuplicates_from_insert seen x (l : Series) :
  dated x → Forall dated l → StronglySorted date_le l →
  removeDuplicates_from seen (JSArray.insert byDate x l) =
  if bool_decide (date x ∈ seen) then removeDuplicates_from seen l
  else JSArray.insert byDate x (removeDuplicates_from ({[date x]} ∪ seen) l).
Proof.
  intros Hx Hl Hs.
  destruct (insert_split_sorted byDate date_le dated date_le_trans
              not_after_byDate x l Hx Hl Hs)
    as (l1 & l2 & -> & -> & H1 & H2).
  assert (date x ∉ date <$> l1) as Hx1.
  { intros (y & Hd & Hy)%list_elem_of_fmap_1.
    rewrite Forall_forall in H1. apply H1 in Hy.
    by apply after_byDate_date_ne in Hy. }
  rewrite removeDuplicates_from_app. cbn [removeDuplicates_from].
  destruct (decide (date x ∈ seen)) as [Hseen|Hseen].
  - rewrite !bool_decide_eq_true_2 by set_solver.
    by rewrite removeDuplicates_from_app.
  - rewrite !bool_decide_eq_false_2 by set_solver.
    rewrite removeDuplicates_from_app.
    rewrite (removeDuplicates_from_absent (date x) seen l1) by done.
    rewrite insert_app_stop.
    + do 3 f_equal. set_solver.
    + eapply Forall_forall. intros y [_ Hy]%removeDuplicates_from_elem.
      rewrite Forall_forall in H1. apply H1.
      unfold firstOn in Hy. apply head_Some_elem_of in Hy.
      by apply list_elem_of_filter in Hy as [_ ?].
    + eapply Forall_forall. intros y [_ Hy]%removeDuplicates_from_elem.
      rewrite Forall_forall in H2. apply H2.
      unfold firstOn in Hy. apply head_Some_elem_of in Hy.
      by apply list_elem_of_filter in Hy as [_ ?].
Qed.

Lemma sort_dated l : Forall dated l → Forall dated (JSArray.sort byDate l).
Proof. intros. by rewrite sort_perm. Qed.

Lemma sort_byDate_sorted l : Forall dated l → StronglySorted date_le (JSArray.sort byDate l).
Proof.
  apply (sort_sorted byDate date_le dated date_le_trans).
  - intros a b _ _. apply after_byDate_le.
  - intros a b. apply not_after_byDate.
Qed.

Lemma removeDuplicates_from_dated seen l :
  Forall dated l → Forall dated (removeDuplicates_from seen l).
Proof.
  intros Hl. eapply Forall_forall. intros p [_ Hp]%removeDuplicates_from_elem.
  rewrite Forall_forall in Hl. apply Hl.
  unfold firstOn in Hp. apply head_Some_elem_of in Hp.
  by apply list_elem_of_filter in Hp as [_ ?].
Qed.

Lemma removeDuplicates_from_sort seen l :
  Forall dated l →
  removeDuplicates_from seen (JSArray.sort byDate l) =
  JSArray.sort byDate (removeDuplicates_from seen l).
Proof.
  intros Hl. revert seen. induction Hl as [|x l Hx Hl IH]; intros seen; [done|].
  rewrite sort_cons.
  rewrite removeDuplicates_from_insert
    by auto using sort_dated, sort_byDate_sorted.
  cbn [removeDuplicates_from]. case_bool_decide; [apply IH|].
  by rewrite sort_cons, IH.
Qed.

(** In a series with one point a date, each point is the first of its
    date, also when more points follow the series. *)
Lemma firstOn_NoDup (l l' : Series) p :
  NoDup (date <$> l) → p ∈ l → firstOn (date p) (l ++ l') = Some p.
Proof.
  intros Hnd Hp. induction l as [|q l IH]; [by apply elem_of_nil in Hp|].
  rewrite fmap_cons in Hnd. apply NoDup_cons in Hnd as [Hq Hnd].
  cbn [app]. rewrite firstOn_cons.
  apply elem_of_cons in Hp as [->|Hp]; [by rewrite decide_True|].
  rewrite decide_False; [by apply IH|].
  intros Heq. apply Hq. rewrite Heq. by apply list_elem_of_fmap_2.
Qed.

(** The points of a merge are the first points of their dates in the
    concatenation. *)
Lemma mergeData_elem (existing incoming : Series) p :
  p ∈ mergeData existing incoming ↔ firstOn (date p) (existing ++ incoming) = Some p.
Proof.
  unfold mergeData, removeDuplicates. rewrite removeDuplicates_from_elem. unfold firstOn.
  rewrite (filter_sort byDate (λ q, date q = date p)).
  - set_solver.
  - intros x y Hx Hy. apply same_date_not_after. congruence.
Qed.

(** In a series in ascending order the last point is the latest. *)
Lemma last_latest (l : Series) p q :
  StronglySorted date_le l → Forall dated l → last l = Some p → q ∈ l → date_le q p.
Proof.
  intros Hs Hd (l' & ->)%last_Some Hq.
  apply Forall_app in Hd as [_ [[x Hp] _]%Forall_cons_1].
  apply elem_of_app in Hq as [Hq|Hq].
  2:{ apply list_elem_of_singleton in Hq as ->. exists x, x. split_and!; [done..|lia]. }
  induction l' as [|a l' IH]; [by apply elem_of_nil in Hq|].
  cbn [app] in Hs. apply StronglySorted_inv in Hs as [Hs Hall].
  apply elem_of_cons in Hq as [->|Hq]; [|by apply IH].
  rewrite Forall_app, Forall_singleton in Hall. by destruct Hall.
Qed.

(** ** The batch fetcher *)

Section FetchFacts.
Variable host : Host.

Lemma processCandle_inv candle acc acc' :
  processCandle host candle acc = Ok acc' →
  acc' = acc ∨
  ∃ d p t, acc' = {| newData := newData acc ++ [Point d p];
                     existingDates := {[d]} ∪ existingDates acc |} ∧
           (d ∉ existingDates acc) ∧ Str.ltb d START_DATE = false ∧
           isoDate (Some t) = Ok d.
Proof.
  unfold processCandle. destruct (Date.of_number _) as [t|]; [|done].
  destruct (isoDate (Some t)) as [d|] eqn:Hd; [|done].
  destruct (bool_decide (d ∈ existingDates acc)) eqn:Hin; cbn.
  { intros [= <-]. by left. }
  unfold Str.geb. destruct (String.ltb d START_DATE) eqn:Hlt; cbn.
  { intros [= <-]. by left. }
  intros [= <-]. right. eexists _, _, t. split; [done|].
  apply bool_decide_eq_false in Hin. done.
Qed.

(** A date string from outside the years 0..9999 starts with a sign and
    sorts before [START_DATE]. *)
Lemma isoDate_expanded_before_start t d :
  ¬ (0 <= Date.YearFromTime t <= 9999) →
  isoDate (Some t) = Ok d → Str.ltb d START_DATE = true.
Proof.
  intros Hy. unfold isoDate, Date.toISOString, Date.isoYear.
  replace ((0 <=? Date.YearFromTime t) && (Date.YearFromTime t <=? 9999)) with false
    by (symmetry; apply andb_false_iff; lia).
  cbn [app]. intros Heq. injection Heq as <-.
  destruct (Date.YearFromTime t <? 0); reflexivity.
Qed.

(** A date string that does not sort before [START_DATE] is the string of
    a day that is not before it. *)
Lemma isoDate_from_start t d :
  isoDate (Some t) = Ok d → Str.ltb d START_DATE = false →
  Date.parse d = Some (Date.Day t * Date.msPerDay) ∧ on_or_after START_DATE d.
Proof.
  intros Hd Hs.
  destruct (decide (0 <= Date.YearFromTime t <= 9999)) as [Hy|Hy];
    [|pose proof (isoDate_expanded_before_start t d Hy Hd); congruence].
  pose proof (DateFacts.parse_isoDate t d Hy Hd) as Hp.
  split; [done|]. exists 1767225600000, (Date.Day t * Date.msPerDay).
  split; [reflexivity|]. split; [exact Hp|].
  assert (Str.ltb d START_DATE = true ↔ Date.Day t < Date.Day 1767225600000) as Hlt.
  { apply OrderFacts.isoDate_ltb; [done|by vm_compute|done|reflexivity]. }
  destruct (decide (Date.Day t < Date.Day 1767225600000)) as [Hday|Hday].
  - apply Hlt in Hday. congruence.
  - change (Date.Day 1767225600000) with 20454 in Hday. unfold Date.msPerDay. lia.
Qed.


Lemma processCandle_ok excluded candle acc acc' :
  found_ok excluded acc → processCandle host candle acc = Ok acc' → found_ok excluded acc'.
Proof.
  intros [H1 H2 H3 H4 H5 H6] [->|(d & p & t & -> & Hd & Hs & Ht)]%processCandle_inv;
    [done|].
  split; cbn.
  - set_solver.
  - rewrite fmap_app. apply NoDup_app. split_and!; [done| |apply NoDup_singleton].
    intros x (q & -> & Hq)%list_elem_of_fmap_1. cbn.
    rewrite list_elem_of_singleton. intros <-. by apply Hd, H3.
  - intros q [Hq|Hq%list_elem_of_singleton]%elem_of_app; [|set_solver].
    apply H3 in Hq. set_solver.
  - intros q [Hq|Hq%list_elem_of_singleton]%elem_of_app; [by apply H4|].
    subst q. cbn. set_solver.
  - intros q [Hq|Hq%list_elem_of_singleton]%elem_of_app; [by apply H5|by subst q].
  - intros q [Hq|Hq%list_elem_of_singleton]%elem_of_app; [by apply H6|].
    subst q. by apply (isoDate_from_start t).
Qed.

Lemma forEach_candle_ok excluded klines acc :
  found_ok excluded acc → found_ok excluded (forEach_candle host klines acc).2.
Proof.
  revert acc. induction klines as [|c rest IH]; intros acc Hacc; cbn; [done|].
  destruct (processCandle host c acc) as [acc'|e] eqn:E; [|done].
  eauto using processCandle_ok.
Qed.

Lemma extend_id w : extend w (storage w) [] 0 0 = w.
Proof. destruct w. unfold extend. cbn. by rewrite app_nil_r. Qed.

Lemma extend_extend w st evs a b st' evs' a' b' :
  extend (extend w st evs a b) st' evs' a' b' =
  extend w st' (evs ++ evs') (a + a') (b + b').
Proof. unfold extend. cbn. rewrite (assoc_L (++)). f_equal; lia. Qed.

Lemma extend_eq w st evs evs' a a' b b' :
  evs = evs' → a = a' → b = b' → extend w st evs a b = extend w st evs' a' b'.
Proof. by intros -> -> ->. Qed.

Lemma emit_eq ev w : emit ev w = (Ok tt, extend w (storage w) [ev] 0 0).
Proof. reflexivity. Qed.

Lemma new_Date_eq w :
  new_Date host w = (Ok (Some (clock host (clock_reads w))), extend w (storage w) [] 1 0).
Proof. unfold new_Date, extend. by rewrite app_nil_r. Qed.

Lemma fetchKlines_eq a b w :
  fetchKlines host a b w =
  (klines_response host (requests w) a b, extend w (storage w) [Request a b] 0 1).
Proof. reflexivity. Qed.

Lemma bind_ok {A B} (m : M A) (k : A → M B) w a w' :
  m w = (Ok a, w') → bind m k w = k a w'.
Proof. unfold bind. by intros ->. Qed.

Lemma bind_throw {A B} (m : M A) (k : A → M B) w e w' :
  m w = (Throw e, w') → bind m k w = (Throw e, w').
Proof. unfold bind. by intros ->. Qed.

(** One turn of the loop, for a valid [currentStart]: exactly one request,
    no exception, nothing else of the world touched. *)
Lemma fetchBatch_spec excluded end_ s acc w :
  ∃ acc' evs,
    fetchBatch host end_ (Some s) acc w = (Ok acc', extend w (storage w) evs 0 1) ∧
    requested evs = [(batchStartTime (Some s), batchEndTime (batchEndOf host end_ (Some s)))] ∧
    (found_ok excluded acc → found_ok excluded acc').
Proof.
  unfold fetchBatch. rewrite fetchKlines_eq.
  destruct (klines_response host _ _ _) as [klines|err].
  - pose proof (forEach_candle_ok excluded klines acc) as Hok.
    destruct (forEach_candle host klines acc) as [[[]|err] acc'] eqn:E; cbn [snd] in *.
    + eexists acc', [_; _]. split.
      * erewrite bind_ok by apply emit_eq. unfold ret. by rewrite extend_extend.
      * by split.
    + eexists acc', [_; _]. split.
      * unfold lift. erewrite bind_ok by reflexivity.
        erewrite bind_ok by apply emit_eq. unfold ret. by rewrite extend_extend.
      * by split.
  - eexists acc, [_; _]. split.
    + unfold lift. erewrite bind_ok by reflexivity.
      erewrite bind_ok by apply emit_eq. unfold ret. by rewrite extend_extend.
    + by split.
Qed.

(** The start of the next turn: [batchSize] days on, two days more or
    less, in any zone. *)
Lemma nextStart_near s :
  near_zone host →
  ∃ u, nextStart host (Some s) = Date.TimeClip u ∧
       s + (batchSize - 2) * Date.msPerDay <= u <= s + (batchSize + 2) * Date.msPerDay.
Proof. intros Hnear. unfold nextStart. by apply DateFacts.setDate_date_add_near. Qed.

Lemma window_shift s e k : window (s + batchStep) e k = window s e (k + 1).
Proof.
  unfold window, batchStep, batchSize. rewrite DateFacts.Day_add_days.
  f_equal; f_equal; f_equal; lia.
Qed.

Lemma windows_S s e : s <= e → windows s e = S (windows (s + batchStep) e).
Proof.
  intros Hs. unfold windows, batchStep, batchSize, Date.msPerDay.
  replace (e - (s + 1000 * 86400000)) with ((e - s) + (-1) * (1000 * 86400000)) by lia.
  rewrite Z.div_add by lia.
  assert (0 <= (e - s) / (1000 * 86400000)) by (apply Z.div_pos; lia).
  rewrite <- Z2Nat.inj_succ by lia. f_equal. lia.
Qed.

Lemma windows_0 s e : e < s → windows s e = O.
Proof.
  intros Hs. unfold windows, batchStep, batchSize, Date.msPerDay.
  assert ((e - s) / (1000 * 86400000) < 0) by (apply Z.div_lt_upper_bound; lia).
  lia.
Qed.

(** The turns the loop is given are at least the windows of the range. *)
Lemma windows_turnsFor s e : (windows s e ≤ turnsFor (Some s) (Some e))%nat.
Proof.
  destruct (Z.lt_ge_cases e s) as [Hlt|Hge]; [rewrite windows_0 by done; lia|].
  unfold windows, turnsFor, batchStep, batchSize, Date.msPerDay.
  assert ((e - s) / (1000 * 86400000) <= (e - s) / 86400000); [|lia].
  apply Z.div_le_compat_l; lia.
Qed.

Lemma turnsFor_pos s e : s <= e → (1 ≤ turnsFor (Some s) (Some e))%nat.
Proof.
  intros Hs. unfold turnsFor, Date.msPerDay.
  assert (0 <= (e - s) / 86400000) by (apply Z.div_pos; lia). lia.
Qed.

Lemma turnsFor_0 s e : e < s → turnsFor (Some s) (Some e) = O.
Proof.
  intros Hs. unfold turnsFor, Date.msPerDay.
  assert ((e - s) / 86400000 < 0) by (apply Z.div_lt_upper_bound; lia).
  lia.
Qed.

(** A start a day later takes a turn less. *)
Lemma turnsFor_later s u e :
  s <= e → s + Date.msPerDay <= u →
  (S (turnsFor (Some u) (Some e)) ≤ turnsFor (Some s) (Some e))%nat.
Proof.
  intros Hs Hu. unfold turnsFor, Date.msPerDay in *.
  assert (0 <= (e - s) / 86400000) by (apply Z.div_pos; lia).
  assert ((e - u) / 86400000 <= (e - s + (-1) * 86400000) / 86400000) as Hle
    by (apply Z.div_le_mono; lia).
  rewrite Z.div_add in Hle by lia. lia.
Qed.

(** *** In a zone of fixed offset *)

Section FixedZone.
Hypothesis Hzone : fixed_zone host.

Lemma nextStart_eq s :
  nextStart host (Some s) = Date.TimeClip (s + batchStep).
Proof.
  destruct Hzone as [off Hoff]. unfold nextStart, batchStep.
  by apply (DateFacts.setDate_date_add_fixed _ off).
Qed.

Lemma batchEndOf_eq s e :
  0 <= s <= e → e + batchStep <= Date.maxTime →
  batchEndOf host (Some e) (Some s) = Some (Z.min (s + 999 * Date.msPerDay) e).
Proof.
  intros Hs He. destruct Hzone as [off Hoff].
  unfold batchEndOf, Date.copy, Date.getTime, Date.getDate.
  cbn [fmap option_fmap option_map].
  replace (Date.DateFromTime (Date.LocalTime (LocalTZA host) s) + batchSize - 1)
    with (Date.DateFromTime (Date.LocalTime (LocalTZA host) s) + 999)
    by (unfold batchSize; lia).
  rewrite (DateFacts.setDate_date_add_fixed _ off) by done.
  unfold batchStep, batchSize, Date.maxTime, Date.msPerDay in *.
  rewrite DateFacts.TimeClip_Some by (unfold Date.maxTime; lia).
  cbn [Date.gtb Date.setTime]. destruct (Z.ltb_spec e (s + 999 * 86400000)).
  - rewrite DateFacts.TimeClip_Some by (unfold Date.maxTime; lia). f_equal. lia.
  - f_equal. lia.
Qed.

(** The bounds the turn for [currentStart = s] asks for. *)
Lemma batch_window s e :
  0 <= s <= e → e + batchStep <= Date.maxTime →
  (batchStartTime (Some s), batchEndTime (batchEndOf host (Some e) (Some s))) = window s e 0.
Proof.
  intros Hs He. rewrite batchEndOf_eq by done.
  unfold batchStartTime, batchEndTime, window.
  rewrite !DateFacts.UTC_fields by (unfold Date.msPerDay; lia).
  pose proof (DateFacts.Day_bounds s) as Hbs.
  pose proof (DateFacts.Day_bounds (Z.min (s + 999 * Date.msPerDay) e)) as Hbe.
  assert (Date.Day (Z.min (s + 999 * Date.msPerDay) e) =
          Z.min (Date.Day s + 999) (Date.Day e)) as HD.
  { destruct (Z.le_ge_cases (s + 999 * Date.msPerDay) e) as [Hle|Hle].
    - rewrite Z.min_l by done. apply DateFacts.Day_mono in Hle.
      rewrite DateFacts.Day_add_days in *. lia.
    - rewrite Z.min_r by done. apply DateFacts.Day_mono in Hle.
      rewrite DateFacts.Day_add_days in *. lia. }
  rewrite HD in *.
  pose proof (DateFacts.Day_mono s e ltac:(lia)) as Hse.
  pose proof (DateFacts.Day_bounds e) as Hbe'.
  assert (0 <= Date.Day s) by (unfold Date.Day, Date.msPerDay; apply Z.div_pos; lia).
  rewrite !DateFacts.TimeClip_Some
    by (unfold batchStep, batchSize, Date.MakeTime, Date.maxTime, Date.msPerDay in *; lia).
  unfold Date.MakeTime, Date.msPerDay. f_equal; f_equal; lia.
Qed.

(** The loop, given at least the turns it needs: it sends the request of
    each window in turn, throws nothing and touches neither the storage nor
    the clock. *)
Lemma fetchLoop_spec excluded e n s acc w :
  0 <= s → s <= e + batchStep → e + batchStep <= Date.maxTime →
  (windows s e ≤ n)%nat →
  ∃ acc' evs,
    fetchLoop host n (Some e) (Some s) acc w =
      (Ok acc', extend w (storage w) evs 0 (windows s e)) ∧
    requested evs = (λ k : nat, window s e (Z.of_nat k)) <$> seq 0 (windows s e) ∧
    (found_ok excluded acc → found_ok excluded acc').
Proof.
  revert s acc w. induction n as [|n IH]; intros s acc w Hs Hse He Hn.
  - assert (windows s e = O) as -> by lia.
    exists acc, []. cbn. by rewrite extend_id.
  - cbn [fetchLoop Date.leb]. destruct (Z.leb_spec s e) as [Hle|Hgt].
    + rewrite windows_S in * by done.
      destruct (fetchBatch_spec excluded (Some e) s acc w) as (acc1 & evs1 & Hb & Hr1 & Hok1).
      rewrite batch_window in Hr1 by lia.
      rewrite (bind_ok _ _ _ _ _ Hb).
      rewrite nextStart_eq, DateFacts.TimeClip_Some
        by (unfold batchStep, batchSize, Date.maxTime, Date.msPerDay in *; lia).
      edestruct (IH (s + batchStep) acc1) as (acc2 & evs2 & Hl & Hr2 & Hok2);
        [| | |by apply Nat.succ_le_mono|].
      1-3: unfold batchStep, batchSize, Date.msPerDay in *; lia.
      rewrite Hl. cbn [storage extend].
      exists acc2, (evs1 ++ evs2). split_and!.
      * fold (extend w (storage w) evs1 0 1). by rewrite extend_extend.
      * unfold requested in *. rewrite omap_app, Hr1, Hr2. cbn [seq fmap list_fmap].
        cbn [app]. f_equal. rewrite <- seq_shift, <- list_fmap_compose.
        apply list_fmap_ext. intros _ k _. cbn. rewrite window_shift. f_equal. lia.
      * auto.
    + rewrite windows_0 by done. exists acc, []. cbn. by rewrite extend_id.
Qed.

End FixedZone.

(** The loop in general: whatever the range and the answers, it throws
    nothing, touches neither the storage nor the clock, and sends a request
    a turn. *)
Lemma fetchLoop_any excluded n end_ currentStart acc w :
  ∃ acc' evs k,
    fetchLoop host n end_ currentStart acc w = (Ok acc', extend w (storage w) evs 0 k) ∧
    length (requested evs) = k ∧
    (Date.leb currentStart end_ = true → (1 ≤ n)%nat → (1 ≤ k)%nat) ∧
    (found_ok excluded acc → found_ok excluded acc').
Proof.
  revert currentStart acc w. induction n as [|n IH]; intros cs acc w.
  - exists acc, [], O. cbn. rewrite extend_id. split_and!; [done..|lia|done].
  - cbn [fetchLoop]. destruct (Date.leb cs end_) eqn:Hleb.
    + destruct cs as [s|]; [|done].
      destruct (fetchBatch_spec excluded end_ s acc w) as (acc1 & evs1 & Hb & Hr1 & Hok1).
      rewrite (bind_ok _ _ _ _ _ Hb).
      destruct (IH (nextStart host (Some s)) acc1 (extend w (storage w) evs1 0 1))
        as (acc2 & evs2 & k & Hl & Hr2 & _ & Hok2).
      rewrite Hl. cbn [storage extend].
      exists acc2, (evs1 ++ evs2), (S k). split_and!.
      * fold (extend w (storage w) evs1 0 1). by rewrite extend_extend.
      * unfold requested in *. rewrite omap_app, length_app, Hr1, Hr2. done.
      * lia.
      * auto.
    + exists acc, [], O. cbn. rewrite extend_id. done.
Qed.

(** The turns [fetchHistoricalData] allows are more than the loop takes:
    with still more of them it does the same, so it is the test of the
    [while] that ends it. *)
Lemma fetchLoop_enough n more end_ currentStart acc w :
  near_zone host →
  (turnsFor currentStart end_ ≤ n)%nat →
  fetchLoop host (n + more) end_ currentStart acc w = fetchLoop host n end_ currentStart acc w.
Proof.
  intros Hnear. revert currentStart acc w. induction n as [|n IH]; intros cs acc w Hn.
  - cbn [Nat.add fetchLoop]. destruct more as [|more]; [done|]. cbn [fetchLoop].
    destruct cs as [s|], end_ as [e|]; try done. cbn [Date.leb].
    destruct (Z.leb_spec s e) as [Hle|Hgt]; [|done].
    pose proof (turnsFor_pos s e Hle). lia.
  - cbn [Nat.add fetchLoop]. destruct (Date.leb cs end_) eqn:Hleb; [|done].
    destruct cs as [s|], end_ as [e|]; try done. cbn in Hleb. apply Z.leb_le in Hleb.
    destruct (fetchBatch_spec ∅ (Some e) s acc w) as (acc1 & evs1 & Hb & _).
    rewrite !(bind_ok _ _ _ _ _ Hb). apply IH.
    destruct (nextStart_near s Hnear) as (u & -> & Hu).
    unfold Date.TimeClip. case_match; [|cbn; lia].
    pose proof (turnsFor_later s u e Hleb) as Hlater.
    unfold batchSize, Date.msPerDay in *. lia.
Qed.

Lemma fetchHistoricalData_any startDate endDate excluded w :
  ∃ found evs k,
    fetchHistoricalData host startDate endDate excluded w =
      (Ok found, extend w (storage w) evs 0 k) ∧
    length (requested evs) = k ∧
    (Date.leb startDate endDate = true → (1 ≤ k)%nat) ∧
    found_ok excluded found.
Proof.
  unfold fetchHistoricalData, Date.copy.
  destruct (fetchLoop_any excluded (turnsFor startDate endDate) endDate startDate
              {| newData := []; existingDates := excluded |} w)
    as (found & evs & k & Hl & Hr & Hk & Hok).
  exists found, evs, k. split_and!; [done..| |].
  - intros Hleb. apply Hk; [done|].
    destruct startDate as [s|], endDate as [e|]; try done.
    cbn in Hleb. apply Z.leb_le in Hleb. by apply turnsFor_pos.
  - apply Hok. split; cbn; [done|constructor|..]; intros p Hp; by apply elem_of_nil in Hp.
Qed.

End FetchFacts.

(** ** Store and orchestrator *)

Section ScriptFacts.
Variable host : Host.

(** Equality of event lists up to bracketing. *)
Ltac same_events :=
  repeat rewrite <- (assoc_L (++)); repeat rewrite app_nil_r; cbn [app];
  reflexivity.

(** Equality of outcomes that differ in how the world is written down. *)
Ltac same_world :=
  repeat rewrite extend_extend; cbn [storage extend];
  f_equal; apply extend_eq; [same_events | lia | lia].

Lemma loadStoredData_eq w :
  loadStoredData w =
  (Ok (loaded (storage w)).1, extend w (storage w) (loaded (storage w)).2 0 0).
Proof.
  unfold loadStoredData, try_, bind, localStorage_getItem, loaded, lift, ret, console_error.
  destruct (Storage.getItem (storage w) STORAGE_KEY) as [[text|]|e]; cbv beta iota.
  - case_bool_decide; cbv beta iota; [by rewrite extend_id|].
    destruct (JSON.parse text) as [v|e]; cbv beta iota; [by rewrite extend_id|].
    by rewrite emit_eq.
  - by rewrite extend_id.
  - by rewrite emit_eq.
Qed.

Lemma setItem_ok key value w st :
  Storage.setItem (storage w) key value = Ok st →
  localStorage_setItem key value w = (Ok tt, extend w st [] 0 0).
Proof.
  unfold localStorage_setItem, extend. intros ->. by rewrite app_nil_r.
Qed.

Lemma setItem_throw key value w e :
  Storage.setItem (storage w) key value = Throw e →
  localStorage_setItem key value w = (Throw e, w).
Proof. unfold localStorage_setItem. by intros ->. Qed.

(** What [save] wrote, [load] returns: the text of a series is loaded as
    that series. *)
Lemma loaded_stringify st (data : Series) :
  Storage.getItem st STORAGE_KEY = Ok (Some (JSON_stringify data)) →
  loaded st = (value_of_series data, []).
Proof.
  intros Hget. unfold loaded. rewrite Hget.
  rewrite bool_decide_eq_false_2 by done.
  by rewrite JSONFacts.parse_stringify.
Qed.

Lemma getItem_setItem st key value st' :
  Storage.setItem st key value = Ok st' → Storage.getItem st' key = Ok (Some value).
Proof.
  unfold Storage.setItem, Storage.getItem.
  destruct (Storage.denied st) eqn:Hd; [done|].
  destruct (Storage.quota st) as [q|]; [case_match; [done|]|];
    intros [= <-]; cbn; by rewrite lookup_insert_eq.
Qed.

Lemma quiet_loaded st : Forall quiet (loaded st).2.
Proof.
  unfold loaded. repeat case_match; cbn; repeat constructor.
Qed.

(** The catch block of [fetchAndStoreData] ends normally. *)
Lemma catch_eq existingData error w :
  (console_error "Error fetching data:" error ;;
   showError ("Error fetching data: " +:+ message error) ;;
   updateStatus "Error fetching data" ;;
   match existingData with
   | [] => ret tt
   | _ => displayData existingData
   end)%js w = (Ok tt, extend w (storage w) (reported existingData error) 0 0).
Proof.
  unfold console_error, showError, updateStatus, displayData, reported.
  erewrite bind_ok by apply emit_eq.
  erewrite bind_ok by apply emit_eq.
  erewrite bind_ok by apply emit_eq.
  destruct existingData; unfold ret; rewrite ?emit_eq, !extend_extend; cbn; done.
Qed.

(** [updateDisplayInfo] touches neither the storage nor the network. *)
Lemma updateDisplayInfo_eq w :
  ∃ r evs, updateDisplayInfo host w = (r, extend w (storage w) evs 1 0) ∧ Forall quiet evs.
Proof.
  unfold updateDisplayInfo.
  erewrite bind_ok by apply loadStoredData_eq.
  erewrite bind_ok by apply new_Date_eq.
  pose proof (quiet_loaded (storage w)) as Hq.
  unfold lift, bind. destruct (Date.toISOString _) as [iso|e].
  - rewrite emit_eq, !extend_extend. eexists _, _. split; [done|].
    rewrite !Forall_app. split_and!; [done|constructor|repeat constructor].
  - rewrite !extend_extend. eexists _, _. split; [done|].
    rewrite !Forall_app. split_and!; [done|constructor].
Qed.

Lemma scheduleDailyFetch_eq w :
  ∃ r evs, scheduleDailyFetch host w = (r, extend w (storage w) evs 1 0) ∧
           Forall quiet evs ∧
           SetTimeout (msUntilNext (Some (clock host (clock_reads w)))) ∈ evs.
Proof.
  unfold scheduleDailyFetch.
  erewrite bind_ok by apply new_Date_eq.
  erewrite bind_ok by apply emit_eq.
  unfold lift, bind, console_log. destruct (Date.toISOString _) as [iso|e].
  - rewrite emit_eq, !extend_extend. eexists _, _. split; [done|].
    split; [repeat constructor|]. cbn. set_solver.
  - rewrite !extend_extend. eexists _, _. split; [done|].
    split; [repeat constructor|]. cbn. set_solver.
Qed.

(** A sync cycle: what was found is merged and written; when the write
    throws, the catch block reports it and the storage is as before; the
    cycle itself never throws. *)
Lemma fetchAndStoreData_spec existingData w :
  ∃ found evs k,
    found_ok (list_to_set (date <$> existingData)) found ∧
    length (requested evs) = k ∧
    (Date.leb (Date.of_string START_DATE) (Some (clock host (clock_reads w))) = true →
     (1 ≤ k)%nat) ∧
    let merged := mergeData existingData (newData found) in
    match Storage.setItem (storage w) STORAGE_KEY (JSON_stringify merged) with
    | Throw error =>
        fetchAndStoreData host existingData w =
        (Ok tt, extend w (storage w) ([fetching] ++ evs ++ reported existingData error) 1 k)
    | Ok st =>
        ∃ evs', 
          fetchAndStoreData host existingData w =
          (Ok tt, extend w st ([fetching] ++ evs ++
                               [Display merged; Status "Data fetched and stored successfully"] ++
                               evs') 2 k) ∧
          Forall quiet evs'
    end.
Proof.
  destruct (fetchHistoricalData_any host (Date.of_string START_DATE)
              (Some (clock host (clock_reads w)))
              (list_to_set (date <$> existingData))
              (extend w (storage w) [fetching] 1 0))
    as (found & evs & k & Hf & Hr & Hk & Hok).
  exists found, evs, k. split_and!; [done..|].
  cbv zeta. unfold fetchAndStoreData, try_.
  erewrite bind_ok by apply emit_eq.
  erewrite bind_ok by apply new_Date_eq.
  rewrite extend_extend.
  erewrite bind_ok by exact Hf.
  rewrite extend_extend.
  destruct (Storage.setItem (storage w) STORAGE_KEY _) as [st|error] eqn:Hset.
  - erewrite bind_ok by (apply setItem_ok; exact Hset).
    erewrite bind_ok by apply emit_eq.
    erewrite bind_ok by apply emit_eq.
    edestruct updateDisplayInfo_eq as (r & evs' & -> & Hq).
    exists (match r with Ok _ => evs' | Throw e => evs' ++ reported existingData e end).
    split.
    + destruct r as [[]|e].
      * unfold extend; cbn. rewrite <- !(assoc_L (++)). cbn.
        do 2 f_equal; lia.
      * rewrite catch_eq. unfold extend; cbn. rewrite <- !(assoc_L (++)). cbn.
        do 2 f_equal; lia.
    + destruct r as [[]|e]; [done|]. apply Forall_app. split; [done|].
      unfold reported. destruct existingData; repeat constructor; done.
  - erewrite bind_throw by (apply setItem_throw; exact Hset).
    rewrite catch_eq. unfold extend; cbn. rewrite <- !(assoc_L (++)). cbn.
    do 2 f_equal; lia.
Qed.

Lemma quiet_not_fetching evs : Forall quiet evs → (fetching ∉ evs) ∧ requested evs = [].
Proof.
  induction 1 as [|ev evs Hev _ [IH1 IH2]]; [split; [apply not_elem_of_nil|done]|].
  split.
  - apply not_elem_of_cons. split; [|done]. intros <-. by apply Hev.
  - unfold requested in *. cbn. rewrite IH2. by destruct ev.
Qed.

(** The freshness test, for a clock that reads a time value. *)
Lemma needsFetch_stale (existing : Series) now :
  needsFetch (date <$> last existing) (todayAt now) = true ↔
  existing = [] ∨ ∃ p, last existing = Some p ∧ Str.ltb (date p) (todayAt now) = true.
Proof.
  assert (todayAt now ≠ ""%string) as Hne.
  { unfold todayAt. destruct (isoDate (Some now)) as [s|] eqn:E.
    - by eapply DateFacts.isoDate_nonempty.
    - unfold isoDate in E.
      destruct (DateFacts.toISOString_head now) as (c & l & _ & Heq).
      by rewrite Heq in E. }
  revert Hne. generalize (todayAt now). intros today Hne.
  unfold needsFetch. destruct (last existing) as [p|] eqn:Hlast; cbn.
  - rewrite orb_true_iff, bool_decide_eq_true. split.
    + intros [Hd|Hlt]; right; exists p.
      * split; [done|]. rewrite Hd. unfold Str.ltb. by destruct today.
      * by split.
    + intros [->|(q & [= <-] & Hlt)]; [done|]. by right.
  - apply last_None in Hlast. split; [by left|done].
Qed.

(** [initializeApp], for a stored value that is a series: it opens a fetch
    cycle exactly when the freshness test says so. *)
Lemma initializeApp_spec w existing :
  series_of_value (loaded (storage w)).1 = Some existing →
  let today := todayAt (clock host (clock_reads w)) in
  ∃ r st evs reads k,
    initializeApp host w = (r, extend w st evs reads k) ∧
    length (requested evs) = k ∧
    if needsFetch (date <$> last existing) today then
      (∃ evs', evs = [Status "Initializing..."] ++ (loaded (storage w)).2 ++ [fetching] ++ evs') ∧
      (Date.leb (Date.of_string START_DATE) (Some (clock host (S (clock_reads w)))) = true →
       (1 ≤ k)%nat)
    else
      st = storage w ∧ Forall quiet evs ∧
      ∃ evs', evs = [Status "Initializing..."] ++ (loaded (storage w)).2 ++
                    [Display existing; Status "Data loaded from storage"] ++ evs'.
Proof.
  intros Hser today. unfold initializeApp.
  erewrite bind_ok by apply emit_eq.
  erewrite bind_ok by apply loadStoredData_eq.
  erewrite bind_ok by apply new_Date_eq.
  rewrite !extend_extend. cbn [storage extend clock_reads Nat.add].
  assert (isoDate (Some (clock host (clock_reads w))) = Ok today) as Htoday by reflexivity.
  unfold lift at 1. erewrite bind_ok by (rewrite Htoday; reflexivity).
  unfold as_series at 1. rewrite Hser. erewrite bind_ok by reflexivity.
  pose proof (quiet_loaded (storage w)) as Hql.
  destruct (needsFetch (date <$> last existing) today) eqn:Hneeds.
  - destruct (fetchAndStoreData_spec existing
                (extend w (storage w) ([Status "Initializing..."] ++ (loaded (storage w)).2 ++ [])
                   (0 + 0 + 1) (0 + 0 + 0)))
      as (found & evs & k & Hok & Hr & Hk & Hrun).
    cbn zeta in Hrun. cbn [storage extend clock_reads] in Hrun, Hk.
    assert (∃ st evs1 reads,
              fetchAndStoreData host existing
                (extend w (storage w) ([Status "Initializing..."] ++ (loaded (storage w)).2 ++ [])
                   (0 + 0 + 1) (0 + 0 + 0)) =
              (Ok tt, extend w st ([Status "Initializing..."] ++ (loaded (storage w)).2 ++
                                   [fetching] ++ evs ++ evs1) reads k) ∧
              Forall quiet evs1) as (st & evs1 & reads & Hfs & Hq1).
    { destruct (Storage.setItem _ _ _) as [st|error].
      - destruct Hrun as (evs' & -> & Hq).
        exists st, ([Display (mergeData existing (newData found));
                     Status "Data fetched and stored successfully"] ++ evs'), 3%nat.
        split; [same_world|]. repeat constructor; done.
      - rewrite Hrun. exists (storage w), (reported existing error), 2%nat.
        split; [same_world|].
        unfold reported. destruct existing; repeat constructor; done. }
    erewrite bind_ok by exact Hfs.
    destruct (scheduleDailyFetch_eq (extend w st ([Status "Initializing..."] ++
                (loaded (storage w)).2 ++ [fetching] ++ evs ++ evs1) reads k))
      as (r2 & evs2 & Hs2 & Hq2 & _).
    pose proof (quiet_not_fetching _ Hql) as [_ Hr0].
    pose proof (quiet_not_fetching _ Hq1) as [_ Hr1].
    pose proof (quiet_not_fetching _ Hq2) as [_ Hr2].
    rewrite Nat.add_1_r in Hk.
    destruct r2 as [[]|e2].
    + erewrite bind_ok by exact Hs2.
      edestruct updateDisplayInfo_eq as (r3 & evs3 & -> & Hq3).
      pose proof (quiet_not_fetching _ Hq3) as [_ Hr3].
      exists r3, st,
        ([Status "Initializing..."] ++ (loaded (storage w)).2 ++ [fetching] ++
         evs ++ evs1 ++ evs2 ++ evs3), (1 + (1 + reads))%nat, k.
      split; [same_world|]. split; [|split; [by eexists|done]].
      unfold requested in *. rewrite !omap_app, !length_app.
      rewrite Hr0, Hr1, Hr2, Hr3, Hr. cbn. lia.
    + erewrite bind_throw by exact Hs2.
      exists (Throw e2), st,
        ([Status "Initializing..."] ++ (loaded (storage w)).2 ++ [fetching] ++
         evs ++ evs1 ++ evs2), (1 + reads)%nat, k.
      split; [same_world|]. split; [|split; [by eexists|done]].
      unfold requested in *. rewrite !omap_app, !length_app.
      rewrite Hr0, Hr1, Hr2, Hr. cbn. lia.
  - erewrite bind_ok.
    2:{ erewrite bind_ok by apply emit_eq. apply emit_eq. }
    rewrite !extend_extend. cbn [storage extend].
    match goal with
    | |- context [bind (scheduleDailyFetch host) _ ?w0] =>
        destruct (scheduleDailyFetch_eq w0) as (r2 & evs2 & Hs2 & Hq2 & _)
    end.
    cbn [storage extend] in Hs2.
    assert (Forall quiet ([Status "Initializing..."] ++ (loaded (storage w)).2 ++
              [Display existing; Status "Data loaded from storage"] ++ evs2)) as Hq.
    { rewrite !Forall_app. split_and!; try done; repeat constructor; done. }
    destruct r2 as [[]|e2].
    + erewrite bind_ok by exact Hs2.
      edestruct updateDisplayInfo_eq as (r3 & evs3 & -> & Hq3).
      exists r3, (storage w),
        ([Status "Initializing..."] ++ (loaded (storage w)).2 ++
         [Display existing; Status "Data loaded from storage"] ++ evs2 ++ evs3),
        3%nat, 0%nat.
      assert (Forall quiet ([Status "Initializing..."] ++ (loaded (storage w)).2 ++
                [Display existing; Status "Data loaded from storage"] ++ evs2 ++ evs3)) as Hq'.
      { rewrite !Forall_app in Hq. destruct_and!.
        repeat (apply Forall_app; split); done. }
      split; [same_world|]. split; [by rewrite (proj2 (quiet_not_fetching _ Hq'))|].
      split; [done|]. split; [done|]. by eexists.
    + erewrite bind_throw by exact Hs2.
      exists (Throw e2), (storage w),
        ([Status "Initializing..."] ++ (loaded (storage w)).2 ++
         [Display existing; Status "Data loaded from storage"] ++ evs2),
        2%nat, 0%nat.
      split; [same_world|]. split; [by rewrite (proj2 (quiet_not_fetching _ Hq))|].
      split; [done|]. split; [done|]. by eexists.
Qed.

End ScriptFacts.

(** ** A sync cycle by its fetch *)

Section CycleCases.
Variable host : Host.

(** A cycle whose write throws, by what the fetcher does. *)
Lemma fetchAndStoreData_full existingData w found evs k error :
  fetchHistoricalData host (Date.of_string START_DATE) (Some (clock host (clock_reads w)))
    (list_to_set (date <$> existingData)) (extend w (storage w) [fetching] 1 0) =
    (Ok found, extend (extend w (storage w) [fetching] 1 0) (storage w) evs 0 k) →
  Storage.setItem (storage w) STORAGE_KEY
    (JSON_stringify (mergeData existingData (newData found))) = Throw error →
  fetchAndStoreData host existingData w =
  (Ok tt, extend w (storage w) ([fetching] ++ evs ++ reported existingData error) 1 k).
Proof.
  intros Hf Hset. unfold fetchAndStoreData, try_.
  erewrite bind_ok by apply emit_eq.
  erewrite bind_ok by apply new_Date_eq.
  rewrite extend_extend.
  erewrite bind_ok by exact Hf.
  rewrite extend_extend.
  erewrite bind_throw by (apply setItem_throw; exact Hset).
  rewrite catch_eq, extend_extend. cbn [storage extend]. f_equal.
  apply extend_eq; [|lia..]. repeat rewrite <- (assoc_L (++)). reflexivity.
Qed.

End CycleCases.

(** The fetch of a cycle and what follows it, in both cases of the write. *)
Lemma fetchAndStoreData_cases (host : Host) (existing : Series) (w : World) :
  ∃ found evs,
    fetchHistoricalData host (Date.of_string START_DATE) (Some (clock host (clock_reads w)))
      (list_to_set (date <$> existing)) (extend w (storage w) [fetching] 1 0) =
      (Ok found, extend (extend w (storage w) [fetching] 1 0) (storage w) evs 0
                   (length (requested evs))) ∧
    found_ok (list_to_set (date <$> existing)) found ∧
    (Date.leb (Date.of_string START_DATE) (Some (clock host (clock_reads w))) = true →
     (1 ≤ length (requested evs))%nat) ∧
    match Storage.setItem (storage w) STORAGE_KEY
            (JSON_stringify (mergeData existing (newData found))) with
    | Ok st =>
        ∃ tail,
          fetchAndStoreData host existing w =
            (Ok tt,
             extend w st
               ([fetching] ++ evs ++
                [Display (mergeData existing (newData found));
                 Status "Data fetched and stored successfully"] ++ tail)
               2 (length (requested evs))) ∧
          Forall quiet tail
    | Throw error =>
        fetchAndStoreData host existing w =
          (Ok tt,
           extend w (storage w) ([fetching] ++ evs ++ reported existing error)
             1 (length (requested evs)))
    end.
Proof.
  destruct (fetchHistoricalData_any host (Date.of_string START_DATE)
              (Some (clock host (clock_reads w))) (list_to_set (date <$> existing))
              (extend w (storage w) [fetching] 1 0))
    as (found & evs & k & Hf & <- & Hk & Hok).
  exists found, evs. split; [exact Hf|]. split; [done|]. split; [done|].
  destruct (Storage.setItem (storage w) STORAGE_KEY _) as [st|error] eqn:Hset.
  - unfold fetchAndStoreData, try_.
    erewrite bind_ok by apply emit_eq.
    erewrite bind_ok by apply new_Date_eq.
    rewrite extend_extend.
    erewrite bind_ok by exact Hf.
    rewrite extend_extend.
    erewrite bind_ok by (apply setItem_ok; exact Hset).
    erewrite bind_ok by apply emit_eq.
    erewrite bind_ok by apply emit_eq.
    rewrite !extend_extend. cbn [storage extend].
    edestruct updateDisplayInfo_eq as (r & evs' & -> & Hq).
    exists (match r with Ok _ => evs' | Throw e => evs' ++ reported existing e end).
    split.
    + destruct r as [[]|e].
      * rewrite extend_extend. cbn [storage extend]. f_equal.
        apply extend_eq; [|lia..]. repeat rewrite <- (assoc_L (++)). reflexivity.
      * rewrite catch_eq. rewrite !extend_extend. cbn [storage extend]. f_equal.
        apply extend_eq; [|lia..]. repeat rewrite <- (assoc_L (++)). reflexivity.
    + destruct r as [[]|e]; [done|]. apply Forall_app. split; [done|].
      unfold reported. destruct existing; repeat constructor; done.
  - by erewrite fetchAndStoreData_full.
Qed.

(** ** Numbers and their numerals *)

Lemma round_half_even_near a b :
  0 <= a → 0 < b →
  0 <= Num.round_half_even a b ∧ 2 * Z.abs (Num.round_half_even a b * b - a) <= b.
Proof.
  intros Ha Hb. unfold Num.round_half_even.
  pose proof (Z.div_mod a b ltac:(lia)) as Hdm.
  pose proof (Z.mod_pos_bound a b Hb) as Hr.
  assert (0 <= a / b) as Hq by (apply Z.div_pos; lia).
  revert Hdm Hr Hq. generalize (a / b) (a mod b). intros q r Hdm Hr Hq.
  repeat case_match; split; try lia;
    repeat match goal with
           | H : (_ <? _) = true |- _ => apply Z.ltb_lt in H
           | H : (_ <? _) = false |- _ => apply Z.ltb_ge in H
           end; nia.
Qed.

(** A Number within half a millionth of [n] millionths prints as [n]. *)
Lemma millionths_near m e n :
  e < 0 → 0 <= m → 0 <= n →
  2 * Z.abs (m * 10 ^ 6 - n * 2 ^ (- e)) < 2 ^ (- e) →
  Num.ge_1e21 m e = false → millionths m e = n.
Proof.
  intros He Hm Hn Hnear _. unfold millionths, Num.scale.
  rewrite (proj2 (Z.leb_le 0 (- e))) by lia.
  rewrite Z.mul_1_l. revert Hnear. generalize (2 ^ (- e)). intros D Hnear.
  symmetry. apply Z.div_unique with (2 * (m * 10 ^ 6) + D - 2 * D * n); lia.
Qed.

Lemma ge_1e21_small m e :
  e < 0 → m < 10 ^ 21 * 2 ^ (- e) → Num.ge_1e21 m e = false.
Proof.
  intros He Hm. unfold Num.ge_1e21, Num.leb_dyadic.
  rewrite Z.min_r by lia. rewrite Z.sub_diag, Z.sub_0_l. change (2 ^ 0) with 1.
  apply Z.leb_gt. lia.
Qed.

(** The Number nearest to [n] millionths prints as [n] millionths. *)
Lemma millionths_binary64 n :
  0 <= n < 2 ^ 52 →
  ∃ m e, Num.binary64 n (10 ^ 6) = Num.Fin m e ∧ 0 <= m ∧
         Num.ge_1e21 m e = false ∧ millionths m e = n.
Proof.
  intros Hn. unfold Num.binary64.
  destruct (Z.eqb_spec n 0) as [->|Hn0].
  { exists 0, 0. done. }
  assert (Z.log2 n < 52) as Hlog by (apply Z.log2_lt_pow2; lia).
  change (Z.log2 (10 ^ 6)) with 19.
  set (e0 := Z.log2 n - 19 - 52).
  set (e1 := let '(a, b) := Num.scale n (10 ^ 6) e0 in
             if a <? b * 2 ^ 52 then e0 - 1 else e0).
  assert (e1 <= -20) as He1.
  { unfold e1. destruct (Num.scale n (10 ^ 6) e0). case_match; unfold e0; lia. }
  set (e := Z.max e1 (-1074)).
  assert (e <= -20) as He by (unfold e; lia).
  clearbody e. clear e0 e1 He1.
  unfold Num.scale. rewrite (proj2 (Z.leb_gt 0 e)) by lia.
  assert (2 ^ 20 <= 2 ^ (- e)) as HD by (apply Z.pow_le_mono_r; lia).
  assert (2 ^ (- e) = 2 * 2 ^ (- (e + 1))) as HD2.
  { rewrite <- Z.pow_succ_r by lia. f_equal. lia. }
  change (2 ^ 20) with 1048576 in HD. change (10 ^ 6) with 1000000.
  change (2 ^ 52) with 4503599627370496 in *.
  destruct (round_half_even_near (n * 2 ^ (- e)) 1000000 ltac:(nia) ltac:(lia)) as [Hm0 Hnear].
  set (m := Num.round_half_even (n * 2 ^ (- e)) 1000000) in *.
  destruct (Z.eqb_spec m (2 ^ 53)) as [Hm|Hm].
  - rewrite (proj2 (Z.ltb_ge 971 (e + 1))) by lia.
    exists 4503599627370496, (e + 1).
    assert (Num.ge_1e21 4503599627370496 (e + 1) = false) as Hsmall.
    { apply ge_1e21_small; [lia|]. change (10 ^ 21) with 1000000000000000000000.
      assert (1 <= 2 ^ (- (e + 1))) by (apply (Z.pow_le_mono_r 2 0); lia). lia. }
    split; [done|]. split; [lia|]. split; [done|].
    apply millionths_near; [lia..| |done].
    change (10 ^ 6) with 1000000. change (2 ^ 53) with 9007199254740992 in Hm.
    revert HD HD2 Hnear. generalize (2 ^ (- e)) (2 ^ (- (e + 1))). intros D D' HD HD2 Hnear.
    subst D. lia.
  - rewrite (proj2 (Z.ltb_ge 971 e)) by lia.
    exists m, e.
    assert (Num.ge_1e21 m e = false) as Hsmall.
    { apply ge_1e21_small; [lia|]. change (10 ^ 21) with 1000000000000000000000.
      revert HD Hnear. clear HD2. generalize (2 ^ (- e)). intros D HD Hnear.
      assert (n * D <= 4503599627370495 * D) by (apply Z.mul_le_mono_nonneg_r; lia).
      lia. }
    split; [done|]. split; [done|]. split; [done|].
    apply millionths_near; [lia..| |done].
    change (10 ^ 6) with 1000000.
    revert HD Hnear. clear HD2. generalize (2 ^ (- e)). intros D HD Hnear. lia.
Qed.

Section Render.
Variable Number_toString : Num.number → string.

Lemma toFixed_render6 m e :
  0 <= m → Num.ge_1e21 m e = false →
  Num.toFixed Number_toString (Num.Fin m e) 6 = render6 (millionths m e).
Proof.
  intros Hm Hlt. unfold Num.toFixed, render6, millionths.
  rewrite (proj2 (Z.ltb_ge m 0)) by lia. rewrite Z.abs_eq by done. rewrite Hlt.
  change (Z.of_nat 6) with 6.
  destruct (Num.scale (m * 10 ^ 6) 1 (- e)) as [num den]. reflexivity.
Qed.

End Render.

Lemma is_digit_cases c :
  is_digit c →
  Num.is_ws c = false ∧ c ≠ "-"%char ∧ c ≠ "+"%char ∧ c ≠ "I"%char ∧ c ≠ "."%char.
Proof.
  intros [v Hv]. unfold Str.digit_val in Hv. cbv zeta in Hv.
  destruct ((48 <=? Z.of_nat (nat_of_ascii c)) && (Z.of_nat (nat_of_ascii c) <=? 57)) eqn:E;
    [|done].
  apply andb_true_iff in E as [E1 E2].
  apply Z.leb_le in E1. apply Z.leb_le in E2.
  assert (48 ≤ nat_of_ascii c ≤ 57)%nat as Hc.
  { revert E1 E2. generalize (nat_of_ascii c). intros k E1 E2. lia. }
  unfold Num.is_ws.
  split_and!.
  - apply orb_false_iff. split; [apply Nat.eqb_neq; lia|].
    apply andb_false_iff. right. apply Nat.leb_gt. lia.
  - intros ->. destruct Hc as [Hlo _]. apply Nat.leb_le in Hlo. by vm_compute in Hlo.
  - intros ->. destruct Hc as [Hlo _]. apply Nat.leb_le in Hlo. by vm_compute in Hlo.
  - intros ->. destruct Hc as [_ Hhi]. apply Nat.leb_le in Hhi. by vm_compute in Hhi.
  - intros ->. destruct Hc as [Hlo _]. apply Nat.leb_le in Hlo. by vm_compute in Hlo.
Qed.

Lemma take_digits_app l r :
  Forall is_digit l →
  match r with [] => True | c :: _ => Str.digit_val c = None end →
  Num.take_digits (l ++ r) = (l, r).
Proof.
  intros Hl Hr. induction Hl as [|c l [v Hc] _ IH]; cbn.
  - destruct r as [|c r]; [done|]. cbn. by rewrite Hr.
  - by rewrite Hc, IH.
Qed.

(** A numeral of millionths reads as the Number nearest to them. *)
Lemma parseFloat_render6 n :
  0 <= n → Num.parseFloat (render6 n) = Num.binary64 n (10 ^ 6).
Proof.
  intros Hn. unfold render6.
  set (ds := replicate (7 - length (Str.of_Z n)) "0"%char ++ Str.of_Z n).
  assert (Forall is_digit ds) as Hds.
  { apply Forall_app. split; [|apply NumFacts.of_Z_digits].
    apply Forall_replicate. by exists 0. }
  assert (7 ≤ length ds)%nat as Hlen.
  { unfold ds. rewrite length_app, length_replicate.
    pose proof (NumFacts.of_Z_length n). lia. }
  assert (Str.digits_val 0 ds = Some n) as Hval.
  { unfold ds. rewrite NumFacts.digits_val_zeros. by apply NumFacts.digits_val_of_Z. }
  rewrite <- (take_drop (length ds - 6) ds) in Hds, Hval.
  apply Forall_app in Hds as [Hip Hfp].
  assert (length (drop (length ds - 6) ds) = 6%nat) as Hfl by (rewrite length_drop; lia).
  assert (length (take (length ds - 6) ds) ≠ 0%nat) as Hil by (rewrite length_take; lia).
  revert Hip Hfp Hval Hfl Hil.
  generalize (take (length ds - 6) ds) (drop (length ds - 6) ds). intros ip fp Hip Hfp Hval Hfl Hil.
  destruct ip as [|c ip]; [done|].
  apply Forall_cons_1 in Hip as [Hc Hip].
  destruct (is_digit_cases c Hc) as (Hws & Hminus & Hplus & HI & _).
  unfold Num.parseFloat. rewrite DateFacts.chars_of_chars.
  cbn [app Num.skip_ws]. rewrite Hws.
  assert (Num.take_sign (c :: ip ++ "."%char :: fp) = (false, c :: ip ++ "."%char :: fp)) as ->.
  { unfold Num.take_sign.
    destruct c as [[] [] [] [] [] [] [] []]; try done. }
  assert (Num.starts_with (Str.chars "Infinity") (c :: ip ++ "."%char :: fp) = false) as ->.
  { cbn [Num.starts_with Str.chars list_ascii_of_string].
    destruct (Ascii.eqb_spec "I"%char c) as [Heq|]; [by destruct HI|done]. }
  change (c :: ip ++ "."%char :: fp) with ((c :: ip) ++ "."%char :: fp).
  rewrite (take_digits_app (c :: ip) ("."%char :: fp)) by (by constructor).
  pose proof (take_digits_app fp [] Hfp I) as Hfpd. rewrite app_nil_r in Hfpd.
  rewrite Hfpd. cbn [app]. unfold Num.digits_Z. cbn [app] in Hval. rewrite Hval.
  cbn [default Num.exponent_part]. rewrite Hfl. reflexivity.
Qed.

Lemma millionths_nonneg m e : 0 <= m → 0 <= millionths m e.
Proof.
  intros Hm. unfold millionths, Num.scale.
  assert (0 <= m * 10 ^ 6) as Hnum by lia.
  destruct (Z.leb_spec 0 (- e)) as [He|He].
  - assert (0 < 2 ^ (- e)) by (by apply Z.pow_pos_nonneg).
    apply Z.div_pos; lia.
  - assert (0 <= 2 ^ (- - e)) by (apply Z.pow_nonneg; lia).
    apply Z.div_pos; [|lia].
    assert (0 <= m * 10 ^ 6 * 2 ^ (- - e)) by (by apply Z.mul_nonneg_nonneg). lia.
Qed.

(** ** Decimal numerals and the Numbers they read as *)




Section Signed.
Variable Number_toString : Num.number → string.


End Signed.






Section ParseInt.
Variable Number_toString : Num.number → string.


End ParseInt.





(** * The claims *)

(** ** Scheduler *)

(** C7.  For every instant [now] from which the next UTC midnight is still
    a time value a [Date] can be moved to (a day before the end of the
    [Date] range at the latest), the delay the scheduler computes, and arms
    its timer with, is the number of milliseconds from [now] to the next
    UTC day boundary strictly after [now].  For 2026-01-01T13:00:00Z it is
    39,600,000 ms. *)
Theorem scheduler_delay_to_next_utc_midnight (host : Host) (w : World) (now : Z) :
  - Date.maxTime <= now <= Date.maxTime - Date.msPerDay →
  clock host (clock_reads w) = now →
  (∃ next,
     next mod Date.msPerDay = 0 ∧ now < next ∧ next - now <= Date.msPerDay ∧
     msUntilNext (Some now) = Some (next - now) ∧
     SetTimeout (Some (next - now)) ∈ events (scheduleDailyFetch host w).2) ∧
  Date.toISOString (Some 1767272400000) = Ok "2026-01-01T13:00:00.000Z"%string ∧
  msUntilNext (Some 1767272400000) = Some 39600000.
Proof.
  intros Hnow Hclock. split; [|split; reflexivity].
  exists ((Date.Day now + 1) * Date.msPerDay).
  pose proof (DateFacts.Day_bounds now) as Hb.
  split_and!.
  - apply Z.mod_mul. done.
  - lia.
  - lia.
  - by apply DateFacts.msUntilNext_eq.
  - destruct (scheduleDailyFetch_eq host w) as (r & evs & -> & _ & Hin).
    cbn. rewrite Hclock, DateFacts.msUntilNext_eq in Hin by done.
    apply elem_of_app. by right.
Qed.

Lemma scheduler_delay_witness :
  - Date.maxTime <= 1767272400000 <= Date.maxTime - Date.msPerDay ∧
  ∃ next,
    next mod Date.msPerDay = 0 ∧ 1767272400000 < next ∧
    next - 1767272400000 <= Date.msPerDay ∧
    msUntilNext (Some 1767272400000) = Some (next - 1767272400000).
Proof.
  pose (host := {| clock := λ _, 1767272400000; klines_response := λ _ _ _, Ok [];
                   LocalTZA := λ _ _, 0; Number_toString := λ _, ""%string |}).
  pose (w := {| storage := Storage.Make ∅ false None; events := [];
                clock_reads := 0; requests := 0 |}).
  assert (- Date.maxTime <= 1767272400000 <= Date.maxTime - Date.msPerDay) as Hnow
    by (unfold Date.maxTime, Date.msPerDay; lia).
  split; [exact Hnow|].
  destruct (scheduler_delay_to_next_utc_midnight host w 1767272400000 Hnow eq_refl)
    as [(next & H1 & H2 & H3 & H4 & _) _].
  exists next. auto.
Defined.

(** ** Batch fetcher *)

(** In a zone whose offset from UTC does not change, the batch fetcher
    does what C4 says.  For a range from [s] to [e] (time values from 1970
    on, [e] at least 1000 days before the end of the [Date] range) it sends
    one request per window and nothing else to the exchange: window [k]
    runs from the first millisecond of the UTC day of [s] plus [1000 * k]
    days to the last millisecond of the day 999 days later, cut at the day
    of [e].  The windows are consecutive and hold at most 1000 days each;
    the start moves on by exactly 1000 days a turn until it exceeds [e];
    the last window ends with the day of [e] when [s] is not later in its
    day than [e] in its own (as for a start at midnight).  A range of 2000
    to 2999 days, so one of 2500 days, takes exactly 3 requests. *)
Theorem fetcher_windows_fixed_zone
    (host : Host) (s e : Z) (excluded : gset string) (w : World) :
  fixed_zone host →
  0 <= s <= e → e + batchStep <= Date.maxTime →
  let n := windows s e in
  (∃ found evs,
     fetchHistoricalData host (Some s) (Some e) excluded w =
       (Ok found, extend w (storage w) evs 0 n) ∧
     requested evs = (λ k : nat, window s e (Z.of_nat k)) <$> seq 0 n) ∧
  (∀ k, 0 <= k < Z.of_nat n →
     ∃ a b, window s e k = (Some a, Some b) ∧
            a = (Date.Day s + 1000 * k) * Date.msPerDay ∧
            a <= b ∧ b + 1 - a <= 1000 * Date.msPerDay ∧
            (k + 1 < Z.of_nat n → (window s e (k + 1)).1 = Some (b + 1)) ∧
            (k + 1 = Z.of_nat n → Date.TimeWithinDay s <= Date.TimeWithinDay e →
             b + 1 = (Date.Day e + 1) * Date.msPerDay)) ∧
  s + (Z.of_nat n - 1) * batchStep <= e < s + Z.of_nat n * batchStep ∧
  (2000 * Date.msPerDay <= e - s < 3000 * Date.msPerDay → n = 3%nat).
Proof.
  intros Hzone Hs He n.
  assert (0 <= (e - s) / batchStep) as Hq
    by (apply Z.div_pos; unfold batchStep, batchSize, Date.msPerDay; lia).
  assert (Z.of_nat n = (e - s) / batchStep + 1) as Hn by (unfold n, windows; lia).
  pose proof (Z.div_mod (e - s) batchStep ltac:(done)) as Hdm.
  pose proof (Z.mod_pos_bound (e - s) batchStep ltac:(done)) as Hmod.
  split_and!.
  - unfold fetchHistoricalData, Date.copy.
    destruct (fetchLoop_spec host Hzone excluded e (turnsFor (Some s) (Some e)) s
                {| newData := []; existingDates := excluded |} w)
      as (found & evs & Hl & Hr & _); [lia|lia|done|apply windows_turnsFor|].
    exists found, evs. split; [exact Hl | exact Hr].
  - intros k Hk. eexists _, _. split; [reflexivity|].
    pose proof (DateFacts.Day_bounds s) as Hbs.
    pose proof (DateFacts.Day_bounds e) as Hbe.
    assert (Date.Day s + 1000 * k <= Date.Day e) as Hle.
    { assert (s + k * batchStep <= e) as Hke by nia.
      apply DateFacts.Day_mono in Hke. unfold batchStep, batchSize in Hke.
      replace (k * (1000 * Date.msPerDay)) with ((1000 * k) * Date.msPerDay) in Hke by lia.
      by rewrite DateFacts.Day_add_days in Hke. }
    split_and!; [done| | | |].
    + unfold Date.msPerDay. lia.
    + unfold Date.msPerDay. lia.
    + intros Hk1. cbn. f_equal.
      assert (s + (k + 1) * batchStep <= e) as Hke by nia.
      apply DateFacts.Day_mono in Hke. unfold batchStep, batchSize in Hke.
      replace ((k + 1) * (1000 * Date.msPerDay)) with ((1000 * (k + 1)) * Date.msPerDay)
        in Hke by lia.
      rewrite DateFacts.Day_add_days in Hke. unfold Date.msPerDay. lia.
    + intros Hk1 Htod.
      assert (e < s + (k + 1) * batchStep) as Hke by nia.
      pose proof (DateFacts.Day_TimeWithinDay s) as Hds.
      pose proof (DateFacts.Day_TimeWithinDay e) as Hde.
      unfold Date.MakeDate, batchStep, batchSize, Date.msPerDay in *. lia.
  - nia.
  - nia.
  - intros Hspan. unfold n, windows.
    assert ((e - s) / batchStep = 2); [|lia].
    symmetry. apply Z.div_unique with (e - s - 2 * batchStep);
      unfold batchStep, batchSize, Date.msPerDay in *; lia.
Qed.

Lemma fetcher_windows_fixed_zone_witness :
  let s := 1767225600000 in
  let e := s + 2500 * Date.msPerDay in
  fixed_zone (host_at e []) ∧ (0 <= s <= e) ∧ e + batchStep <= Date.maxTime ∧
  ∃ found evs,
    fetchHistoricalData (host_at e []) (Some s) (Some e) ∅ (world_with ∅) =
      (Ok found, extend (world_with ∅) (storage (world_with ∅)) evs 0 3) ∧
    requested evs = [window s e 0; window s e 1; window s e 2].
Proof.
  intros s e.
  assert (fixed_zone (host_at e [])) as Hzone by (by exists 0).
  assert (0 <= s <= e) as Hs by (unfold e, s, Date.msPerDay; lia).
  assert (e + batchStep <= Date.maxTime) as He
    by (unfold e, s, batchStep, batchSize, Date.maxTime, Date.msPerDay; lia).
  split; [exact Hzone|]. split; [exact Hs|]. split; [exact He|].
  destruct (fetcher_windows_fixed_zone (host_at e []) s e ∅ (world_with ∅) Hzone Hs He)
    as [(found & evs & Hf & Hr) _].
  exists found, evs. split; [exact Hf | exact Hr].
Defined.

Lemma CET_near_zone now candles : near_zone (host_in CET now candles).
Proof. intros t b. cbn. unfold CET. case_match; unfold Date.msPerDay; lia. Qed.

(** C4 fails where the offset of the zone changes: the loop moves its start
    with [setDate], by 1000 days of local time, and reads the bounds of
    the window off the UTC date.  In Central European time, from
    2026-01-01 the start is at 01:00 local time; 1000 local days on, in
    summer time, that is 23:00 UTC of the day before.  On 2028-10-01 the
    fetcher asks for the 999 days to 2028-09-25 and, from day 999 rather
    than day 1000, for the rest; on 2034-04-01 its third window, from
    2031-06-23 to 2034-03-19, holds 1001 days, one more than a request
    returns. *)
Theorem fetcher_windows_summer_time :
  let start := 1767225600000 in
  let day := Date.msPerDay in
  Date.of_string START_DATE = Some start ∧
  Date.toISOString (Some 1854014400000) = Ok "2028-10-01T12:00:00.000Z"%string ∧
  requested (events (fetchHistoricalData (host_in CET 1854014400000 [])
                       (Some start) (Some 1854014400000) ∅ (world_with ∅)).2) =
    [(Some start, Some (start + 999 * day - 1));
     (Some (start + 999 * day), Some (start + 1005 * day - 1))] ∧
  Date.toISOString (Some 2027505600000) = Ok "2034-04-01T12:00:00.000Z"%string ∧
  requested (events (fetchHistoricalData (host_in CET 2027505600000 [])
                       (Some start) (Some 2027505600000) ∅ (world_with ∅)).2) =
    [(Some start, Some (start + 999 * day - 1));
     (Some (start + 999 * day), Some (start + 1999 * day - 1));
     (Some (start + 1999 * day), Some (start + 3000 * day - 1));
     (Some (start + 3000 * day), Some (start + 3013 * day - 1))].
Proof. split_and!; vm_compute; reflexivity. Qed.

(** C5.  Whatever the range, the exclusion set, the state of the world and
    the answers of the exchange, a run of the batch fetcher ends normally,
    and by the test of its loop (more turns change nothing) in any zone
    whose offset stays within a day of UTC.  Among the points
    it returns none has a date that sorts before [START_DATE], which is the
    test of the script, and each date reads as a day that is [START_DATE]
    or a later one; none has a date of the exclusion set the run was given,
    and no two have the same date. *)
Theorem fetcher_emits_only_new_dates
    (host : Host) (startDate endDate : option Z) (excluded : gset string) (w : World) :
  ∃ found w',
    fetchHistoricalData host startDate endDate excluded w = (Ok found, w') ∧
    (near_zone host →
     ∀ more, fetchLoop host (turnsFor startDate endDate + more) endDate startDate
               {| newData := []; existingDates := excluded |} w = (Ok found, w')) ∧
    (∀ d, Str.ltb d START_DATE = true → d ∉ date <$> newData found) ∧
    (∀ p, p ∈ newData found → on_or_after START_DATE (date p)) ∧
    (∀ d, d ∈ excluded → d ∉ date <$> newData found) ∧
    NoDup (date <$> newData found).
Proof.
  destruct (fetchHistoricalData_any host startDate endDate excluded w)
    as (found & evs & k & Hf & _ & _ & [_ Hnd _ Hfresh Hstart Hlater]).
  exists found, (extend w (storage w) evs 0 k). split_and!; [done| | |done| |done].
  - intros Hnear more. by rewrite fetchLoop_enough.
  - intros d Hd (p & -> & Hp)%list_elem_of_fmap_1.
    specialize (Hstart p Hp). congruence.
  - intros d Hd (p & -> & Hp)%list_elem_of_fmap_1.
    by apply (Hfresh p Hp).
Qed.

Lemma fetcher_emits_only_new_dates_witness :
  let host := host_in CET 1854014400000
                [ {| openTime := Num.of_Z 1767139200000; openPrice := "1.5" |};
                  {| openTime := Num.of_Z 1767225600000; openPrice := "2.5" |};
                  {| openTime := Num.of_Z 1767312000000; openPrice := "3.5" |} ] in
  near_zone host ∧
  ∃ found w',
    fetchHistoricalData host (Some 1767225600000) (Some 1854014400000)
      {["2026-01-02"%string]} (world_with ∅) = (Ok found, w') ∧
    newData found = [Point "2026-01-01" "2.500000"] ∧
    fetchLoop host (turnsFor (Some 1767225600000) (Some 1854014400000) + 1)
      (Some 1854014400000) (Some 1767225600000)
      {| newData := []; existingDates := {["2026-01-02"%string]} |} (world_with ∅) =
    (Ok found, w').
Proof.
  intros host.
  assert (near_zone host) as Hnear by apply CET_near_zone.
  split; [exact Hnear|].
  destruct (fetcher_emits_only_new_dates host (Some 1767225600000) (Some 1854014400000)
              {["2026-01-02"%string]} (world_with ∅))
    as (found & w' & Hrun & Hmore & _).
  exists found, w'. split; [exact Hrun|]. split; [|exact (Hmore Hnear 1%nat)].
  assert (newData found =
          match (fetchHistoricalData host (Some 1767225600000) (Some 1854014400000)
                   {["2026-01-02"%string]} (world_with ∅)).1 with
          | Ok f => newData f
          | Throw _ => []
          end) as -> by (rewrite Hrun; reflexivity).
  vm_compute. reflexivity.
Defined.

(** ** Series merger *)

(** C2.  For every existing series and every incoming sequence, the merge
    step is: concatenate existing before incoming, sort by date, remove
    duplicates, and its result holds at most one point per date.  When
    every date involved is a date, as the dates of a series are, a point is
    in the result exactly when it is the first point of its date in the
    concatenation, so on a date both have the existing point wins, and the
    result is ascending by date.  (On a string that is no date the
    comparator gives NaN and the order of the sort, and with it the point
    kept, is the engine's choice.) *)
Theorem merge_sorted_first_wins (existing incoming : Series) :
  let merged := mergeData existing incoming in
  merged = removeDuplicates (JSArray.sort byDate (existing ++ incoming)) ∧
  NoDup (date <$> merged) ∧
  (Forall dated (existing ++ incoming) →
   (∀ p, p ∈ merged ↔ firstOn (date p) (existing ++ incoming) = Some p) ∧
   StronglySorted date_le merged).
Proof.
  intros merged. unfold merged, mergeData, removeDuplicates. split_and!.
  - done.
  - apply removeDuplicates_from_NoDup.
  - intros Hd. split.
    + intros p. apply mergeData_elem.
    + apply removeDuplicates_from_sorted. by apply sort_byDate_sorted.
Qed.

Lemma merge_sorted_first_wins_witness :
  let existing := [Point "2026-01-02" "2.000000"; Point "2026-01-01" "1.000000"] in
  let incoming := [Point "2026-01-03" "3.000000"; Point "2026-01-02" "9.000000"] in
  Forall dated (existing ++ incoming) ∧
  StronglySorted date_le (mergeData existing incoming) ∧
  (Point "2026-01-02" "2.000000" ∈ mergeData existing incoming ∧
   Point "2026-01-02" "9.000000" ∉ mergeData existing incoming) ∧
  mergeData existing incoming =
    [Point "2026-01-01" "1.000000"; Point "2026-01-02" "2.000000";
     Point "2026-01-03" "3.000000"].
Proof.
  intros existing incoming.
  assert (Forall dated (existing ++ incoming)) as Hd.
  { repeat constructor; by eexists. }
  destruct (proj2 (proj2 (merge_sorted_first_wins existing incoming)) Hd) as [Hfirst Hsorted].
  split; [exact Hd|]. split; [exact Hsorted|]. split; [|reflexivity].
  split.
  - apply Hfirst. reflexivity.
  - intros Hin. apply Hfirst in Hin. discriminate Hin.
Defined.

(** C9.  For every series whose dates are dates, merging it with nothing
    gives what sorting its deduplication gives:
    [merge(S, []) = sort_by_date(dedup(S))]. *)
Theorem merge_with_nothing (S : Series) :
  Forall dated S →
  mergeData S [] = JSArray.sort byDate (removeDuplicates S).
Proof.
  intros Hd. unfold mergeData, removeDuplicates. rewrite app_nil_r.
  by apply removeDuplicates_from_sort.
Qed.

Lemma merge_with_nothing_witness :
  let S := [Point "2026-01-02" "2.000000"; Point "2026-01-01" "1.000000";
            Point "2026-01-02" "9.000000"] in
  Forall dated S ∧
  mergeData S [] = JSArray.sort byDate (removeDuplicates S) ∧
  mergeData S [] = [Point "2026-01-01" "1.000000"; Point "2026-01-02" "2.000000"].
Proof.
  intros S.
  assert (Forall dated S) as Hd by (repeat constructor; by eexists).
  split; [exact Hd|]. split.
  - exact (merge_with_nothing S Hd).
  - reflexivity.
Defined.




(** ** Store *)

(** C6, as the script has it.  [loadStoredData] never throws and changes
    nothing but the console.  It returns the empty series when the item is
    absent or the empty string, when the storage cannot be read and when
    the text does not parse; a text that parses is returned as the value it
    parses to, whatever its shape.  The text the script writes for a series
    is returned as that series. *)
Theorem load_fails_soft (w : World) :
  ∃ v logged,
    loadStoredData w = (Ok v, extend w (storage w) logged 0 0) ∧
    (Storage.getItem (storage w) STORAGE_KEY = Ok None → v = JSON.Array []) ∧
    (Storage.getItem (storage w) STORAGE_KEY = Ok (Some ""%string) → v = JSON.Array []) ∧
    (∀ e, Storage.getItem (storage w) STORAGE_KEY = Throw e → v = JSON.Array []) ∧
    (∀ text e, Storage.getItem (storage w) STORAGE_KEY = Ok (Some text) →
               JSON.parse text = Throw e → v = JSON.Array []) ∧
    (∀ text v', Storage.getItem (storage w) STORAGE_KEY = Ok (Some text) →
                text ≠ ""%string → JSON.parse text = Ok v' → v = v') ∧
    (∀ data : Series,
       Storage.getItem (storage w) STORAGE_KEY = Ok (Some (JSON_stringify data)) →
       series_of_value v = Some data).
Proof.
  exists (loaded (storage w)).1, (loaded (storage w)).2.
  split; [apply loadStoredData_eq|].
  split_and!; unfold loaded at 1.
  - by intros ->.
  - by intros ->.
  - by intros e ->.
  - intros text e -> Hp. case_bool_decide; [done|]. by rewrite Hp.
  - intros text v' -> Hne Hp. rewrite bool_decide_eq_false_2 by done. by rewrite Hp.
  - intros data Hget. fold (loaded (storage w)).
    rewrite (loaded_stringify _ data Hget). apply JSONFacts.series_of_value_of_series.
Qed.

Lemma load_fails_soft_witness :
  let w := world_with {[STORAGE_KEY := "{oops"%string]} in
  (loadStoredData w).1 = Ok (JSON.Array []).
Proof.
  intros w.
  destruct (load_fails_soft w) as (v & logged & Hrun & _ & _ & _ & Hbad & _).
  rewrite Hrun. cbn [fst]. f_equal.
  eapply Hbad; [reflexivity | vm_compute; reflexivity].
Defined.

(** C6 as stated fails: with the text [null] in the slot, [loadStoredData]
    returns [null], which is no series. *)
Lemma load_returns_null :
  let w := world_with {[STORAGE_KEY := "null"%string]} in
  (loadStoredData w).1 = Ok JSON.Null ∧ series_of_value JSON.Null = None.
Proof. split; reflexivity. Qed.

(** ** Sync orchestrator *)

(** C1.  For a stored value that is a series, [initializeApp] opens a fetch
    cycle if and only if the series is empty or the date of its last point
    is strictly earlier than today's UTC date.  Without a fetch it sends no
    request, leaves the storage as it is and displays the series as
    loaded; with a fetch, and a clock at or after [START_DATE], it sends at
    least one request.  The last point is the latest of a series in
    ascending order, as the script stores it, and the comparison, which is
    one of strings, is the comparison of the days for the date strings of
    the years 0 to 9999.  With the last date 2026-03-10 there is no fetch
    on 2026-03-10 and there is one on 2026-03-11. *)
Theorem freshness_check (host : Host) (w : World) (existing : Series) :
  series_of_value (loaded (storage w)).1 = Some existing →
  let today := todayAt (clock host (clock_reads w)) in
  let stale := existing = [] ∨
               ∃ p, last existing = Some p ∧ Str.ltb (date p) today = true in
  (∃ r st evs reads k,
     initializeApp host w = (r, extend w st evs reads k) ∧
     length (requested evs) = k ∧
     (fetching ∈ evs ↔ stale) ∧
     (¬ stale →
      st = storage w ∧ k = 0%nat ∧
      ∃ evs', evs = [Status "Initializing..."] ++ (loaded (storage w)).2 ++
                    [Display existing; Status "Data loaded from storage"] ++ evs') ∧
     (stale →
      Date.leb (Date.of_string START_DATE) (Some (clock host (S (clock_reads w)))) = true →
      (1 ≤ k)%nat)) ∧
  (StronglySorted date_le existing → Forall dated existing →
   ∀ p q, last existing = Some p → q ∈ existing → date_le q p) ∧
  (∀ d t, isoDate (Some t) = Ok d →
          0 <= Date.YearFromTime t <= 9999 →
          0 <= Date.YearFromTime (clock host (clock_reads w)) <= 9999 →
          (Str.ltb d today = true ↔ Date.Day t < Date.Day (clock host (clock_reads w)))) ∧
  needsFetch (Some "2026-03-10"%string) "2026-03-10" = false ∧
  needsFetch (Some "2026-03-10"%string) "2026-03-11" = true.
Proof.
  intros Hser today stale.
  split; [|split; [|split; [|split; reflexivity]]]; cycle 1.
  { intros Hs Hd p q. by apply last_latest. }
  { intros d t Hd Hy Hnow. by apply OrderFacts.isoDate_ltb. }
  destruct (initializeApp_spec host w existing Hser)
    as (r & st & evs & reads & k & Hrun & Hreq & Hcase).
  fold today in Hcase.
  pose proof (needsFetch_stale existing (clock host (clock_reads w))) as Hiff.
  fold today in Hiff. fold stale in Hiff.
  exists r, st, evs, reads, k. split; [done|]. split; [done|].
  destruct (needsFetch (date <$> last existing) today).
  - destruct Hcase as [(evs' & ->) Hk].
    assert stale as Hstale by by apply Hiff.
    split; [|split].
    + split; [done|]. intros _. set_solver.
    + done.
    + by intros _.
  - destruct Hcase as (-> & Hq & evs' & Hevs).
    assert (¬ stale) as Hfresh by (intros Hs; apply Hiff in Hs; done).
    pose proof (quiet_not_fetching _ Hq) as [Hnf Hnr].
    split; [|split].
    + split; [done|]. intros Hs. done.
    + intros _. split; [done|]. split; [|by exists evs'].
      by rewrite <- Hreq, Hnr.
    + done.
Qed.

Lemma freshness_check_witness :
  let existing := [Point "2026-03-09" "1.000000"; Point "2026-03-10" "2.000000"] in
  let w := world_with {[STORAGE_KEY := JSON_stringify existing]} in
  let host := host_at 1773144000000 [] in
  series_of_value (loaded (storage w)).1 = Some existing ∧
  todayAt (clock host (clock_reads w)) = "2026-03-10"%string ∧
  ∃ r st evs reads k,
    initializeApp host w = (r, extend w st evs reads k) ∧
    (fetching ∉ evs) ∧ st = storage w ∧ k = 0%nat.
Proof.
  intros existing w host.
  assert (series_of_value (loaded (storage w)).1 = Some existing) as Hser by reflexivity.
  split; [exact Hser|]. split; [reflexivity|].
  destruct (freshness_check host w existing Hser)
    as [(r & st & evs & reads & k & Hrun & _ & Hiff & Hfresh & _) _].
  assert (¬ (existing = [] ∨
             ∃ p, last existing = Some p ∧
                  Str.ltb (date p) (todayAt (clock host (clock_reads w))) = true)) as Hns.
  { intros [Hnil|(p & Hlast & Hlt)]; [discriminate Hnil|].
    injection Hlast as <-. vm_compute in Hlt. discriminate Hlt. }
  destruct (Hfresh Hns) as (Hst & Hk & _).
  exists r, st, evs, reads, k. split; [exact Hrun|]. split; [|exact (conj Hst Hk)].
  intros Hin. apply Hns. apply Hiff. exact Hin.
Defined.

(** C3, as the script has it.  A sync cycle never throws to its caller.
    When writing the series merged from the existing one and from what the
    fetcher of the cycle has found throws, the catch block logs the error,
    shows it, sets the status line and displays the existing series again
    if it has points; the storage is left as it was, and what was found is
    dropped. *)
Theorem sync_error_is_reported (host : Host) (existingData : Series) (w : World) :
  (fetchAndStoreData host existingData w).1 = Ok tt ∧
  ∃ found evs,
    fetchHistoricalData host (Date.of_string START_DATE) (Some (clock host (clock_reads w)))
      (list_to_set (date <$> existingData)) (extend w (storage w) [fetching] 1 0) =
      (Ok found, extend (extend w (storage w) [fetching] 1 0) (storage w) evs 0
                   (length (requested evs))) ∧
    ∀ error,
      Storage.setItem (storage w) STORAGE_KEY
        (JSON_stringify (mergeData existingData (newData found))) = Throw error →
      fetchAndStoreData host existingData w =
        (Ok tt,
         extend w (storage w) ([fetching] ++ evs ++ reported existingData error)
           1 (length (requested evs))) ∧
      storage (fetchAndStoreData host existingData w).2 = storage w ∧
      events (fetchAndStoreData host existingData w).2 =
        events w ++ [fetching] ++ evs ++ reported existingData error.
Proof.
  destruct (fetchAndStoreData_cases host existingData w)
    as (found & evs & Hf & _ & _ & Hrun).
  split.
  - destruct (Storage.setItem (storage w) STORAGE_KEY _) as [st|error].
    + destruct Hrun as (tail & Heq & _). by rewrite Heq.
    + by rewrite Hrun.
  - exists found, evs. split; [exact Hf|].
    intros error Hset. rewrite Hset in Hrun. by rewrite Hrun.
Qed.

Lemma sync_error_is_reported_witness :
  let existing := [Point "2026-01-01" "1.000000"] in
  let candles := [ {| openTime := Num.of_Z 1767312000000; openPrice := "2" |} ] in
  let host := host_at 1767362400000 candles in
  let w := {| storage := Storage.Make {[STORAGE_KEY := JSON_stringify existing]} false
                           (Some 100%nat);
              events := []; clock_reads := 0; requests := 0 |} in
  let error := QuotaExceededError "The quota has been exceeded." in
  ∃ found evs,
    newData found = [Point "2026-01-02" "2.000000"] ∧
    Storage.setItem (storage w) STORAGE_KEY
      (JSON_stringify (mergeData existing (newData found))) = Throw error ∧
    (fetchAndStoreData host existing w).1 = Ok tt ∧
    storage (fetchAndStoreData host existing w).2 = storage w ∧
    events (fetchAndStoreData host existing w).2 =
      [] ++ [fetching] ++ evs ++
      [ConsoleError "Error fetching data:" error;
       ShowError "Error fetching data: The quota has been exceeded.";
       Status "Error fetching data"; Display existing].
Proof.
  intros existing candles host w error.
  destruct (sync_error_is_reported host existing w) as [Hok (found & evs & Hf & Hrep)].
  assert (newData found = [Point "2026-01-02" "2.000000"]) as Hnew.
  { transitivity
      (match (fetchHistoricalData host (Date.of_string START_DATE)
                (Some (clock host (clock_reads w)))
                (list_to_set (date <$> existing))
                (extend w (storage w) [fetching] 1 0)).1 with
       | Ok f => newData f
       | Throw _ => []
       end); [by rewrite Hf|].
    vm_compute. reflexivity. }
  assert (Storage.setItem (storage w) STORAGE_KEY
            (JSON_stringify (mergeData existing (newData found))) = Throw error) as Hset.
  { rewrite Hnew. vm_compute. reflexivity. }
  destruct (Hrep error Hset) as (_ & Hst & Hev).
  exists found, evs. split; [exact Hnew|]. split; [exact Hset|]. split; [exact Hok|].
  split; [exact Hst|]. exact Hev.
Defined.

(** C3 as stated fails: with no room left in the storage the write of the
    cycle throws, and the cycle ends normally, the error shown on the
    page. *)
Lemma sync_error_not_propagated :
  let host := host_at 1767272400000 [] in
  let w := {| storage := Storage.Make ∅ false (Some 0%nat); events := [];
              clock_reads := 0; requests := 0 |} in
  Storage.setItem (storage w) STORAGE_KEY (JSON_stringify (mergeData [] [])) =
    Throw (QuotaExceededError "The quota has been exceeded.") ∧
  (fetchAndStoreData host [] w).1 = Ok tt ∧
  events (fetchAndStoreData host [] w).2 =
    [fetching; Request (Some 1767225600000) (Some 1767311999999); Sleep 200;
     ConsoleError "Error fetching data:" (QuotaExceededError "The quota has been exceeded.");
     ShowError "Error fetching data: The quota has been exceeded.";
     Status "Error fetching data"].
Proof. split_and!; vm_compute; reflexivity. Qed.

(** C10.  A sync cycle on a series with one point a date keeps every
    existing point: each is in the merged series, with its date and its
    price, and the points found are of other dates.  The merged series is
    what the cycle writes, and what is loaded from the storage after it; if
    the write throws, the storage is left as it was. *)
Theorem sync_keeps_existing_points (host : Host) (existingData : Series) (w : World) :
  NoDup (date <$> existingData) →
  ∃ found,
    let merged := mergeData existingData (newData found) in
    (∀ p, p ∈ existingData → p ∈ merged) ∧
    (∀ p, p ∈ newData found → date p ∉ date <$> existingData) ∧
    match Storage.setItem (storage w) STORAGE_KEY (JSON_stringify merged) with
    | Ok st =>
        storage (fetchAndStoreData host existingData w).2 = st ∧
        Storage.items st !! STORAGE_KEY = Some (JSON_stringify merged) ∧
        series_of_value (loaded st).1 = Some merged ∧
        Display merged ∈ events (fetchAndStoreData host existingData w).2
    | Throw _ => storage (fetchAndStoreData host existingData w).2 = storage w
    end.
Proof.
  intros Hnd.
  destruct (fetchAndStoreData_spec host existingData w)
    as (found & evs & k & Hok & _ & _ & Hrun).
  exists found. cbv zeta in Hrun |- *. split_and!.
  - intros p Hp. apply mergeData_elem. by apply firstOn_NoDup.
  - intros p Hp Hin. apply (found_fresh _ _ Hok p Hp). set_solver.
  - match type of Hrun with
    | match ?x with _ => _ end => destruct x as [st|error] eqn:Hset
    end.
    + destruct Hrun as (evs' & Heq & _). rewrite Heq.
      pose proof (getItem_setItem _ _ _ _ Hset) as Hget.
      split_and!; [done| | |].
      * unfold Storage.getItem in Hget. case_match; [done|]. by injection Hget.
      * rewrite (loaded_stringify _ _ Hget). apply JSONFacts.series_of_value_of_series.
      * cbn. set_solver.
    + by rewrite Hrun.
Qed.

Lemma sync_keeps_existing_points_witness :
  let existing := [Point "2026-01-01" "1.000000"; Point "2026-01-02" "2.000000"] in
  let candles := [ {| openTime := Num.of_Z 1767312000000; openPrice := "9.5" |};
                   {| openTime := Num.of_Z 1767398400000; openPrice := "3" |} ] in
  let host := host_at 1767448800000 candles in
  let w := world_with {[STORAGE_KEY := JSON_stringify existing]} in
  NoDup (date <$> existing) ∧
  (∃ found, ∀ p, p ∈ existing → p ∈ mergeData existing (newData found)) ∧
  Storage.items (storage (fetchAndStoreData host existing w).2) !! STORAGE_KEY =
    Some (JSON_stringify [Point "2026-01-01" "1.000000"; Point "2026-01-02" "2.000000";
                          Point "2026-01-03" "3.000000"]).
Proof.
  intros existing candles host w.
  assert (NoDup (date <$> existing)) as Hnd.
  { apply NoDup_cons. split; [|apply NoDup_singleton].
    intros Hin. apply list_elem_of_singleton in Hin. discriminate Hin. }
  split; [exact Hnd|]. split.
  - destruct (sync_keeps_existing_points host existing w Hnd) as (found & Hkeep & _).
    exists found. exact Hkeep.
  - vm_compute. reflexivity.
Defined.

(** * Further properties of the script *)

(** ** Theme *)

Lemma applyTheme_elem isDark classList c :
  c ∈ applyTheme isDark classList ↔
  (c = "dark-mode"%string ∧ isDark = true) ∨ (c ≠ "dark-mode"%string ∧ c ∈ classList) ∨
  (isDark = true ∧ c ∈ classList).
Proof.
  unfold applyTheme. destruct isDark.
  - rewrite elem_of_union, elem_of_singleton. naive_solver.
  - rewrite elem_of_difference, elem_of_singleton. naive_solver.
Qed.

Lemma applyTheme_dark isDark classList :
  "dark-mode"%string ∈ applyTheme isDark classList ↔ isDark = true.
Proof. rewrite applyTheme_elem. destruct isDark; naive_solver. Qed.

Lemma applyTheme_other isDark classList c :
  c ≠ "dark-mode"%string → c ∈ applyTheme isDark classList ↔ c ∈ classList.
Proof. intros Hc. rewrite applyTheme_elem. naive_solver. Qed.

Lemma getItem_setItem_ne st key value st' key' :
  Storage.setItem st key value = Ok st' → key' ≠ key →
  Storage.getItem st' key' = Storage.getItem st key'.
Proof.
  unfold Storage.setItem, Storage.getItem.
  destruct (Storage.denied st) eqn:Hd; [done|].
  intros Hset Hne.
  assert (st' = Storage.Make (<[key := value]> (Storage.items st)) false (Storage.quota st))
    as -> by (destruct (Storage.quota st); [case_match|]; congruence).
  cbn. by rewrite lookup_insert_ne.
Qed.

Lemma applyTheme_dark_decide isDark classList :
  bool_decide ("dark-mode"%string ∈ applyTheme isDark classList) = isDark.
Proof.
  destruct isDark.
  - by apply bool_decide_eq_true_2, applyTheme_dark.
  - apply bool_decide_eq_false_2. by rewrite applyTheme_dark.
Qed.

(** X1.  Toggling the theme twice leaves the class list
    of the page as it was, the other classes included, whether or not the
    theme could be saved; and when both toggles are saved, the theme saved
    last names the theme the page started with. *)
Theorem toggleTheme_twice (classList : gset string) (st st' : Storage.t) :
  (toggleTheme (toggleTheme classList st).2 st').2 = classList ∧
  ∀ st1 st2,
    (toggleTheme classList st).1 = Ok st1 →
    (toggleTheme (toggleTheme classList st).2 st1).1 = Ok st2 →
    Storage.getItem st2 "theme" =
      Ok (Some (if bool_decide ("dark-mode"%string ∈ classList) then "dark" else "light")%string).
Proof.
  split.
  - unfold toggleTheme. cbn [snd]. rewrite applyTheme_dark_decide, negb_involutive.
    apply set_eq. intros c. rewrite !applyTheme_elem, negb_true_iff.
    rewrite bool_decide_eq_true, bool_decide_eq_false.
    destruct (decide (c = "dark-mode"%string)) as [->|]; [|naive_solver].
    destruct (decide ("dark-mode"%string ∈ classList)); naive_solver.
  - intros st1 st2 _ H2. unfold toggleTheme in H2. cbn [fst snd] in H2.
    apply getItem_setItem in H2. rewrite H2. do 2 f_equal.
    rewrite applyTheme_dark_decide, negb_involutive. done.
Qed.

Lemma toggleTheme_twice_witness :
  let classList : gset string := {["wide"%string]} in
  let st := Storage.Make ∅ false None in
  ∃ st1 st2,
    (toggleTheme classList st).1 = Ok st1 ∧
    (toggleTheme (toggleTheme classList st).2 st1).1 = Ok st2 ∧
    Storage.getItem st2 "theme" = Ok (Some "light"%string).
Proof.
  intros classList st.
  destruct (toggleTheme_twice classList st st) as [_ Hsaved].
  eexists _, _. split; [reflexivity|]. split; [reflexivity|].
  exact (Hsaved _ _ eq_refl eq_refl).
Defined.

Lemma toggleTheme_saved classList st st1 :
  (toggleTheme classList st).1 = Ok st1 →
  Storage.getItem st1 "theme" =
    Ok (Some (if bool_decide ("dark-mode"%string ∈ (toggleTheme classList st).2)
              then "dark" else "light")%string).
Proof.
  unfold toggleTheme. cbn [fst snd]. intros Hset%getItem_setItem.
  by rewrite Hset, applyTheme_dark_decide.
Qed.

(** X2.  A toggle that is saved flips the theme of the
    page, and the theme it leaves is the one a reload of the page applies,
    whatever the system prefers and leaving the other classes alone; from
    then on a change of the system preference does not change the page. *)
Theorem toggleTheme_persists (classList : gset string) (st st1 : Storage.t) :
  (toggleTheme classList st).1 = Ok st1 →
  let left := (toggleTheme classList st).2 in
  ("dark-mode"%string ∈ left ↔ "dark-mode"%string ∉ classList) ∧
  (∀ prefersDark fresh,
     ∃ applied, initializeTheme prefersDark fresh st1 = Ok applied ∧
                ("dark-mode"%string ∈ applied ↔ "dark-mode"%string ∈ left) ∧
                ∀ c, c ≠ "dark-mode"%string → c ∈ applied ↔ c ∈ fresh) ∧
  (∀ matches, onSchemeChange matches left st1 = Ok left).
Proof.
  intros Hset left. pose proof (toggleTheme_saved _ _ _ Hset) as Hsaved. fold left in Hsaved.
  split_and!.
  - unfold left, toggleTheme. cbn [snd].
    rewrite applyTheme_dark, negb_true_iff, bool_decide_eq_false. done.
  - intros prefersDark fresh. unfold initializeTheme. rewrite Hsaved.
    destruct (bool_decide ("dark-mode"%string ∈ left)) eqn:Hd; cbn;
      eexists; (split; [reflexivity|]); split.
    + rewrite applyTheme_dark. apply bool_decide_eq_true in Hd. naive_solver.
    + intros c Hc. by apply applyTheme_other.
    + rewrite applyTheme_dark. apply bool_decide_eq_false in Hd. naive_solver.
    + intros c Hc. by apply applyTheme_other.
  - intros matches. unfold onSchemeChange. rewrite Hsaved.
    by destruct (bool_decide ("dark-mode"%string ∈ left)).
Qed.

Lemma toggleTheme_persists_witness :
  let classList : gset string := {["wide"%string]} in
  let st := Storage.Make ∅ false None in
  ∃ st1, (toggleTheme classList st).1 = Ok st1 ∧
         ∃ applied, initializeTheme false ∅ st1 = Ok applied ∧
                    "dark-mode"%string ∈ applied.
Proof.
  intros classList st. eexists. split; [reflexivity|].
  destruct (toggleTheme_persists classList st _ eq_refl) as (Hleft & Hreload & _).
  destruct (Hreload false ∅) as (applied & Happ & Hdark & _).
  exists applied. split; [exact Happ|]. apply Hdark, Hleft.
  intros Hin. apply elem_of_singleton in Hin. discriminate Hin.
Defined.

(** X3.  While no theme is saved (the item is absent
    or empty), the page takes the system preference, when it loads and at
    each change of the preference.  A saved theme decides alone: [dark] is
    dark, and any other text is light, also where the system prefers
    dark. *)
Theorem theme_follows_system
    (st : Storage.t) (savedTheme : option string) (classList : gset string) (prefers : bool) :
  Storage.getItem st "theme" = Ok savedTheme →
  ∃ loaded changed,
    initializeTheme prefers classList st = Ok loaded ∧
    onSchemeChange prefers classList st = Ok changed ∧
    ("dark-mode"%string ∈ loaded ↔
     savedTheme = Some "dark"%string ∨
     ((savedTheme = None ∨ savedTheme = Some ""%string) ∧ prefers = true)) ∧
    (savedTheme = None ∨ savedTheme = Some ""%string → changed = loaded) ∧
    (savedTheme ≠ None → savedTheme ≠ Some ""%string → changed = classList).
Proof.
  intros Hget. unfold initializeTheme, onSchemeChange. rewrite Hget.
  destruct savedTheme as [s|]; cbn [truthy].
  - case_bool_decide as Hs; cbn [negb].
    + subst s. eexists _, _. split; [reflexivity|]. split; [reflexivity|].
      rewrite applyTheme_dark. naive_solver.
    + eexists _, _. split; [reflexivity|]. split; [reflexivity|].
      rewrite applyTheme_dark, bool_decide_eq_true. naive_solver.
  - eexists _, _. split; [reflexivity|]. split; [reflexivity|].
    rewrite applyTheme_dark. naive_solver.
Qed.

Lemma theme_follows_system_witness :
  let st := Storage.Make {["theme"%string := "Dark"%string]} false None in
  Storage.getItem st "theme" = Ok (Some "Dark"%string) ∧
  ∃ loaded, initializeTheme true {["dark-mode"%string]} st = Ok loaded ∧
            "dark-mode"%string ∉ loaded.
Proof.
  intros st.
  assert (Storage.getItem st "theme" = Ok (Some "Dark"%string)) as Hget by reflexivity.
  split; [exact Hget|].
  destruct (theme_follows_system st _ {["dark-mode"%string]} true Hget)
    as (loaded & changed & Hl & _ & Hdark & _).
  exists loaded. split; [exact Hl|]. rewrite Hdark.
  intros [Heq|[[Heq|Heq] _]]; discriminate Heq.
Defined.

(** ** One turn of the batch loop *)

Section TurnFacts.
Variable host : Host.

(** A turn of the loop, by the answer of the exchange: the candles are
    taken in, up to the first that throws, and the turn ends with the pause
    or, after an exception, with a line on the console. *)
Lemma fetchBatch_run end_ s acc w :
  let a := batchStartTime (Some s) in
  let b := batchEndTime (batchEndOf host end_ (Some s)) in
  fetchBatch host end_ (Some s) acc w =
  match klines_response host (requests w) a b with
  | Ok klines =>
      match forEach_candle host klines acc with
      | (Ok _, acc') => (Ok acc', extend w (storage w) [Request a b; Sleep 200] 0 1)
      | (Throw error, acc') =>
          (Ok acc', extend w (storage w) [Request a b; ConsoleError (batchLabel s) error] 0 1)
      end
  | Throw error =>
      (Ok acc, extend w (storage w) [Request a b; ConsoleError (batchLabel s) error] 0 1)
  end.
Proof.
  intros a b. unfold fetchBatch. rewrite fetchKlines_eq. fold a b.
  assert (isoDate (Some s) = Ok (todayAt s)) as Hlabel.
  { unfold todayAt. destruct (isoDate (Some s)) as [d|e] eqn:Hd; [done|].
    unfold isoDate in Hd. destruct (DateFacts.toISOString_head s) as (c & l & _ & Heq).
    by rewrite Heq in Hd. }
  destruct (klines_response host _ _ _) as [klines|err].
  - destruct (forEach_candle host klines acc) as [[[]|err] acc'].
    + erewrite bind_ok by apply emit_eq. unfold ret. by rewrite extend_extend.
    + unfold lift. erewrite bind_ok by (rewrite Hlabel; reflexivity).
      unfold console_error. erewrite bind_ok by apply emit_eq.
      unfold ret. by rewrite extend_extend.
  - unfold lift. erewrite bind_ok by (rewrite Hlabel; reflexivity).
    unfold console_error. erewrite bind_ok by apply emit_eq.
    unfold ret. by rewrite extend_extend.
Qed.

(** The candle that is taken in, closely. *)
Lemma processCandle_taken candle acc acc' :
  processCandle host candle acc = Ok acc' →
  acc' = acc ∨
  ∃ d t, acc' = {| newData := newData acc ++ [point_of host candle d];
                   existingDates := {[d]} ∪ existingDates acc |} ∧
         Date.of_number (Num.parseInt (Number_toString host) (openTime candle)) = Some t ∧
         isoDate (Some t) = Ok d ∧ 0 <= Date.YearFromTime t <= 9999 ∧
         (d ∉ existingDates acc) ∧ Str.ltb d START_DATE = false.
Proof.
  unfold processCandle. destruct (Date.of_number _) as [t|]; [|done].
  destruct (isoDate (Some t)) as [d|] eqn:Hd; [|done].
  destruct (bool_decide (d ∈ existingDates acc)) eqn:Hin; cbn.
  { intros [= <-]. by left. }
  unfold Str.geb. destruct (String.ltb d START_DATE) eqn:Hlt; cbn.
  { intros [= <-]. by left. }
  intros [= <-]. right. exists d, t.
  assert (0 <= Date.YearFromTime t <= 9999) as Hyear.
  { destruct (decide (0 <= Date.YearFromTime t <= 9999)) as [|Hy]; [done|].
    pose proof (isoDate_expanded_before_start t d Hy Hd) as Hb.
    unfold Str.ltb in Hb. congruence. }
  apply bool_decide_eq_false in Hin. done.
Qed.

Section Invariant.
Variable C : Candle → Prop.
Variable I : Found → Prop.
Hypothesis answers : ∀ k a b klines, klines_response host k a b = Ok klines → Forall C klines.
Hypothesis kept : ∀ c acc acc', C c → I acc → processCandle host c acc = Ok acc' → I acc'.

Lemma forEach_candle_invariant klines acc :
  Forall C klines → I acc → I (forEach_candle host klines acc).2.
Proof.
  intros Hk. revert acc. induction Hk as [|c klines Hc _ IH]; intros acc Hacc; cbn; [done|].
  destruct (processCandle host c acc) as [acc'|e] eqn:E; [|done]. eauto.
Qed.

(** The loop: its requests are those of [loopWindows], its other events
    pauses and lines on the console, and it keeps what every candle taken
    in keeps. *)
Lemma fetchLoop_run n end_ currentStart acc w :
  I acc →
  ∃ acc' evs,
    fetchLoop host n end_ currentStart acc w =
      (Ok acc', extend w (storage w) evs 0 (length (requested evs))) ∧
    requested evs = loopWindows (LocalTZA host) n end_ currentStart ∧
    Forall fetcher_event evs ∧
    (length (logged evs) + length (pauses evs) = length (requested evs))%nat ∧
    ((∀ k a b, ∃ e, klines_response host k a b = Throw e) → pauses evs = []) ∧
    I acc'.
Proof.
  revert currentStart acc w. induction n as [|n IH]; intros cs acc w Hacc.
  - exists acc, []. cbn. rewrite extend_id. done.
  - cbn [fetchLoop loopWindows]. destruct (Date.leb cs end_) eqn:Hleb.
    2:{ exists acc, []. cbn. rewrite extend_id. done. }
    destruct cs as [s|]; [|done].
    pose proof (fetchBatch_run end_ s acc w) as Hb. cbv zeta in Hb.
    assert (∃ acc1 ev,
              fetchBatch host end_ (Some s) acc w =
                (Ok acc1, extend w (storage w)
                            [Request (batchStartTime (Some s))
                               (batchEndTime (batchEndOf host end_ (Some s))); ev] 0 1) ∧
              I acc1 ∧
              (((∃ ms, ev = Sleep ms) ∧
                ¬ (∀ k a b, ∃ e, klines_response host k a b = Throw e)) ∨
               ∃ msg e, ev = ConsoleError msg e))
      as (acc1 & ev & Hrun & Hacc1 & Hev).
    { destruct (klines_response host _ _ _) as [klines|err] eqn:Hresp.
      - pose proof (forEach_candle_invariant klines acc (answers _ _ _ _ Hresp) Hacc) as Hinv.
        destruct (forEach_candle host klines acc) as [[[]|err] acc1]; cbn [snd] in Hinv;
          eexists _, _; (split; [exact Hb|]); (split; [done|]); [left|eauto].
        split; [eauto|]. intros Hout. destruct (Hout (requests w) (batchStartTime (Some s))
          (batchEndTime (batchEndOf host end_ (Some s)))) as [e He]. congruence.
      - eexists _, _. split; [exact Hb|]. split; [done|]. eauto. }
    rewrite (bind_ok _ _ _ _ _ Hrun).
    destruct (IH (nextStart host (Some s)) acc1
                (extend w (storage w)
                   [Request (batchStartTime (Some s))
                      (batchEndTime (batchEndOf host end_ (Some s))); ev] 0 1) Hacc1)
      as (acc2 & evs2 & Hl & Hr2 & Hf2 & Hc2 & Hp2 & Hi2).
    rewrite Hl. cbn [storage extend]. rewrite extend_extend.
    eexists acc2, (_ :: ev :: evs2). split_and!.
    + cbn [app]. f_equal. apply extend_eq; [done..|].
      unfold requested in *. destruct Hev as [[[ms ->] _]|(msg & e & ->)]; cbn; lia.
    + unfold requested in *. destruct Hev as [[[ms ->] _]|(msg & e & ->)]; cbn; by rewrite Hr2.
    + constructor; [done|]. constructor; [|done].
      by destruct Hev as [[[ms ->] _]|(msg & e & ->)].
    + unfold requested, logged, pauses in *.
      destruct Hev as [[[ms ->] _]|(msg & e & ->)]; cbn; lia.
    + intros Hout. unfold pauses in *.
      destruct Hev as [[_ Hno]|(msg & e & ->)]; [done|]. cbn. by apply Hp2.
    + done.
Qed.

End Invariant.

End TurnFacts.

(** ** The batch fetcher, further *)

(** X4.  The windows a run of the batch
    fetcher asks for depend on the range and on the zone of the host only:
    not on the exclusion set, on what the exchange answers (errors
    included), on the clock or on the storage.  So a cycle asks again for
    the whole range from [START_DATE], whatever is stored. *)
Theorem fetcher_requests_independent
    (host1 host2 : Host) (startDate endDate : option Z)
    (excluded1 excluded2 : gset string) (w1 w2 : World) :
  LocalTZA host1 = LocalTZA host2 →
  ∃ found1 evs1 found2 evs2,
    fetchHistoricalData host1 startDate endDate excluded1 w1 =
      (Ok found1, extend w1 (storage w1) evs1 0 (length (requested evs1))) ∧
    fetchHistoricalData host2 startDate endDate excluded2 w2 =
      (Ok found2, extend w2 (storage w2) evs2 0 (length (requested evs2))) ∧
    requested evs1 = requested evs2.
Proof.
  intros Hzone. unfold fetchHistoricalData, Date.copy.
  destruct (fetchLoop_run host1 (λ _, True) (λ _, True)
              ltac:(intros; by apply Forall_true) ltac:(done)
              (turnsFor startDate endDate) endDate startDate
              {| newData := []; existingDates := excluded1 |} w1 I)
    as (found1 & evs1 & Hrun1 & Hreq1 & _).
  destruct (fetchLoop_run host2 (λ _, True) (λ _, True)
              ltac:(intros; by apply Forall_true) ltac:(done)
              (turnsFor startDate endDate) endDate startDate
              {| newData := []; existingDates := excluded2 |} w2 I)
    as (found2 & evs2 & Hrun2 & Hreq2 & _).
  exists found1, evs1, found2, evs2. split; [done|]. split; [done|].
  by rewrite Hreq1, Hreq2, Hzone.
Qed.

Lemma fetcher_requests_independent_witness :
  let candles := [ {| openTime := Num.of_Z 1767225600000; openPrice := "2.5" |} ] in
  let host1 := host_in CET 1854014400000 candles in
  let host2 := {| clock := λ _, 0; klines_response := λ _ _ _, Throw (HttpError 429);
                  LocalTZA := CET; Number_toString := λ _, ""%string |} in
  LocalTZA host1 = LocalTZA host2 ∧
  requested (events (fetchHistoricalData host1 (Some 1767225600000) (Some 1854014400000)
                       ∅ (world_with ∅)).2) =
  requested (events (fetchHistoricalData host2 (Some 1767225600000) (Some 1854014400000)
                       {["2026-01-01"%string]} (world_with ∅)).2).
Proof.
  intros candles host1 host2.
  assert (LocalTZA host1 = LocalTZA host2) as Hzone by reflexivity.
  split; [exact Hzone|].
  destruct (fetcher_requests_independent host1 host2 (Some 1767225600000)
              (Some 1854014400000) ∅ {["2026-01-01"%string]} (world_with ∅) (world_with ∅)
              Hzone)
    as (found1 & evs1 & found2 & evs2 & -> & -> & Hreq).
  exact Hreq.
Defined.

(** X5.  A run of the batch fetcher adds to
    the exclusion set it was given the dates of the points it returns, and
    nothing else: the set is the caller's, changed in place. *)
Theorem fetcher_records_what_it_finds
    (host : Host) (startDate endDate : option Z) (excluded : gset string) (w : World) :
  ∃ found w',
    fetchHistoricalData host startDate endDate excluded w = (Ok found, w') ∧
    existingDates found = excluded ∪ list_to_set (date <$> newData found).
Proof.
  unfold fetchHistoricalData, Date.copy.
  destruct (fetchLoop_run host (λ _, True) (recorded excluded)
              ltac:(intros; by apply Forall_true)) with
    (n := turnsFor startDate endDate) (end_ := endDate) (currentStart := startDate)
    (acc := {| newData := []; existingDates := excluded |}) (w := w)
    as (found & evs & Hrun & _ & _ & _ & _ & Hrec).
  - intros c acc acc' _ Hacc [->|(d & t & -> & _)]%processCandle_taken; [done|].
    unfold recorded in *. cbn. rewrite Hacc, fmap_app, list_to_set_app_L. cbn. set_solver.
  - unfold recorded. cbn. set_solver.
  - by eexists _, _.
Qed.

(** X6.  Every point a run of the batch fetcher
    returns is the point of a candle the exchange has answered with: its
    date is the date string of the candle's open time, a time value of the
    years 0 to 9999, and its price is [toFixed(6)] of the candle's open
    price.  So where the open prices the exchange answers with read as
    finite Numbers below [1e21], every price returned has exactly six
    fractional digits. *)
Theorem fetcher_points_from_candles
    (host : Host) (startDate endDate : option Z) (excluded : gset string) (w : World) :
  ∃ found w',
    fetchHistoricalData host startDate endDate excluded w = (Ok found, w') ∧
    (∀ p, p ∈ newData found →
       ∃ candle t,
         returned host candle ∧
         Date.of_number (Num.parseInt (Number_toString host) (openTime candle)) = Some t ∧
         0 <= Date.YearFromTime t <= 9999 ∧
         isoDate (Some t) = Ok (date p) ∧
         price p = Num.toFixed (Number_toString host) (Num.parseFloat (openPrice candle)) 6) ∧
    ((∀ candle, returned host candle → numeric (openPrice candle)) →
     Forall (λ p, fixed6 (price p)) (newData found)).
Proof.
  unfold fetchHistoricalData, Date.copy.
  destruct (fetchLoop_run host (returned host)
              (λ acc, ∀ p, p ∈ newData acc →
                 ∃ candle t,
                   returned host candle ∧
                   Date.of_number (Num.parseInt (Number_toString host) (openTime candle))
                     = Some t ∧
                   0 <= Date.YearFromTime t <= 9999 ∧
                   isoDate (Some t) = Ok (date p) ∧
                   price p = Num.toFixed (Number_toString host)
                               (Num.parseFloat (openPrice candle)) 6)) with
    (n := turnsFor startDate endDate) (end_ := endDate) (currentStart := startDate)
    (acc := {| newData := []; existingDates := excluded |}) (w := w)
    as (found & evs & Hrun & _ & _ & _ & _ & Hfrom).
  - intros k a b klines Hk. apply Forall_forall. intros c Hc. by exists k, a, b, klines.
  - intros c acc acc' Hc Hacc [->|(d & t & -> & Ht & Hd & Hy & _)]%processCandle_taken;
      [done|].
    cbn. intros p [Hp| ->%list_elem_of_singleton]%elem_of_app; [by apply Hacc|].
    exists c, t. done.
  - cbn. intros p Hp. by apply elem_of_nil in Hp.
  - exists found, (extend w (storage w) evs 0 (length (requested evs))).
    split; [done|]. split; [done|].
    intros Hnum. apply Forall_forall. intros p Hp.
    destruct (Hfrom p Hp) as (c & t & Hc & _ & _ & _ & ->).
    destruct (Hnum c Hc) as (m & e & -> & Hlt).
    by apply NumFacts.toFixed_6.
Qed.

Lemma fetcher_points_from_candles_witness :
  let candles := [ {| openTime := Num.of_Z 1767225600000; openPrice := "2.5" |};
                   {| openTime := Num.of_Z 1767312000000; openPrice := "0.1234567" |} ] in
  let host := host_at 1767398400000 candles in
  (∀ candle, returned host candle → numeric (openPrice candle)) ∧
  ∃ found w',
    fetchHistoricalData host (Some 1767225600000) (Some 1767398400000) ∅ (world_with ∅) =
      (Ok found, w') ∧
    Forall (λ p, fixed6 (price p)) (newData found) ∧
    newData found = [Point "2026-01-01" "2.500000"; Point "2026-01-02" "0.123457"].
Proof.
  intros candles host.
  assert (∀ candle, returned host candle → numeric (openPrice candle)) as Hnum.
  { intros c (k & a & b & klines & [= <-] & Hc).
    apply elem_of_cons in Hc as [-> |Hc]; [|apply list_elem_of_singleton in Hc as ->].
    - eexists _, _. split; [vm_compute; reflexivity|reflexivity].
    - eexists _, _. split; [vm_compute; reflexivity|reflexivity]. }
  split; [exact Hnum|].
  destruct (fetcher_points_from_candles host (Some 1767225600000) (Some 1767398400000)
              ∅ (world_with ∅)) as (found & w' & Hrun & _ & Hsix).
  exists found, w'. split; [exact Hrun|]. split; [exact (Hsix Hnum)|].
  assert (newData found =
          match (fetchHistoricalData host (Some 1767225600000) (Some 1767398400000)
                   ∅ (world_with ∅)).1 with
          | Ok f => newData f
          | Throw _ => []
          end) as -> by (rewrite Hrun; reflexivity).
  vm_compute. reflexivity.
Defined.

(** Candles whose open times are time values are all taken in. *)
Lemma forEach_candle_timed host good rest acc :
  Forall (timed host) good →
  ∃ acc1, forEach_candle host good acc = (Ok tt, acc1) ∧
          forEach_candle host (good ++ rest) acc = forEach_candle host rest acc1.
Proof.
  intros Hgood. revert acc. induction Hgood as [|c good [t Ht] _ IH]; intros acc.
  - by exists acc.
  - rewrite <- app_comm_cons. cbn [forEach_candle].
    destruct (processCandle host c acc) as [acc1|e] eqn:E; [apply IH|].
    unfold processCandle in E. rewrite Ht in E.
    assert (isoDate (Some t) = Ok (todayAt t)) as Hiso.
    { unfold todayAt. destruct (isoDate (Some t)) as [d|e'] eqn:Hd; [done|].
      unfold isoDate in Hd. destruct (DateFacts.toISOString_head t) as (x & l & _ & Heq).
      by rewrite Heq in Hd. }
    rewrite Hiso in E. by destruct (_ && _).
Qed.

(** X7.  When a candle of an answer has an open
    time that is no time value, the turn of the loop takes in the candles
    before it and drops those after it, whatever they are: the [RangeError]
    of [toISOString] ends the [forEach], the [catch] of the turn logs it
    with the start of the window, and the turn ends normally, without the
    pause. *)
Theorem batch_stops_at_bad_candle
    (host : Host) (end_ : Date.t) (s : Z) (acc : Found) (w : World)
    (good : list Candle) (bad : Candle) (rest : list Candle) :
  let a := batchStartTime (Some s) in
  let b := batchEndTime (batchEndOf host end_ (Some s)) in
  klines_response host (requests w) a b = Ok (good ++ bad :: rest) →
  Forall (timed host) good →
  ¬ timed host bad →
  ∃ acc',
    forEach_candle host good acc = (Ok tt, acc') ∧
    fetchBatch host end_ (Some s) acc w =
      (Ok acc',
       extend w (storage w)
         [Request a b; ConsoleError (batchLabel s) (RangeError "Invalid time value")] 0 1).
Proof.
  intros a b Hresp Hgood Hbad.
  destruct (forEach_candle_timed host good (bad :: rest) acc Hgood) as (acc' & Hrun & Happ).
  exists acc'. split; [done|].
  pose proof (fetchBatch_run host end_ s acc w) as Hb. cbv zeta in Hb. fold a b in Hb.
  rewrite Hb, Hresp, Happ. cbn [forEach_candle]. unfold processCandle.
  destruct (Date.of_number _) as [t|] eqn:Ht; [destruct Hbad; by exists t|].
  reflexivity.
Qed.

Lemma batch_stops_at_bad_candle_witness :
  let good := [ {| openTime := Num.of_Z 1767225600000; openPrice := "2.5" |} ] in
  let bad := {| openTime := Num.of_Z 8640000000000001; openPrice := "3" |} in
  let rest := [ {| openTime := Num.of_Z 1767398400000; openPrice := "4" |} ] in
  let host := host_at 1767398400000 (good ++ bad :: rest) in
  ∃ found,
    fetchBatch host (Some 1767398400000) (Some 1767225600000)
      {| newData := []; existingDates := ∅ |} (world_with ∅) =
      (Ok found,
       extend (world_with ∅) (storage (world_with ∅))
         [Request (Some 1767225600000) (Some 1767484799999);
          ConsoleError "Error fetching batch from 2026-01-01:"
            (RangeError "Invalid time value")] 0 1) ∧
    newData found = [Point "2026-01-01" "2.500000"].
Proof.
  intros good bad rest host.
  destruct (batch_stops_at_bad_candle host (Some 1767398400000) 1767225600000
              {| newData := []; existingDates := ∅ |} (world_with ∅) good bad rest)
    as (found & Hgood & Hrun).
  - reflexivity.
  - repeat constructor. exists 1767225600000. vm_compute. reflexivity.
  - intros [t Ht]. vm_compute in Ht. discriminate Ht.
  - exists found. split; [exact Hrun|].
    assert (found = (forEach_candle host good {| newData := []; existingDates := ∅ |}).2)
      as -> by (rewrite Hgood; reflexivity).
    vm_compute. reflexivity.
Defined.

(** ** A sync cycle, event by event *)

(** The date of the next fetch: the start of the next UTC day. *)
Lemma nextFetchDate_eq now :
  - Date.maxTime <= now <= Date.maxTime - Date.msPerDay →
  nextFetchDate (Some now) = Some ((Date.Day now + 1) * Date.msPerDay).
Proof.
  intros Hr. unfold nextFetchDate, Date.copy.
  change Z.succ with (λ d, d + 1).
  rewrite DateFacts.setUTCDate_add.
  rewrite DateFacts.TimeClip_Some by (unfold Date.maxTime, Date.msPerDay in *; lia).
  cbn [Date.setUTCHours]. unfold Date.MakeTime, Date.MakeDate.
  rewrite DateFacts.Day_add_days.
  rewrite DateFacts.TimeClip_Some.
  - f_equal. lia.
  - pose proof (DateFacts.Day_bounds now).
    unfold Date.maxTime, Date.msPerDay in *. lia.
Qed.

Section CycleFacts.
Variable host : Host.

(** [updateDisplayInfo] on a stored series. *)
Lemma updateDisplayInfo_run (data : Series) w iso :
  Storage.getItem (storage w) STORAGE_KEY = Ok (Some (JSON_stringify data)) →
  Date.toISOString (nextFetchDate (Some (clock host (clock_reads w)))) = Ok iso →
  updateDisplayInfo host w =
  (Ok tt, extend w (storage w) [DisplayInfo (date <$> last data) (nextFetchText iso)] 1 0).
Proof.
  intros Hget Hiso. unfold updateDisplayInfo.
  erewrite bind_ok by apply loadStoredData_eq.
  rewrite (loaded_stringify _ _ Hget). cbn [fst snd].
  erewrite bind_ok by apply new_Date_eq.
  rewrite extend_extend. cbn [storage extend clock_reads Nat.add].
  unfold lift. erewrite bind_ok by (rewrite Hiso; reflexivity).
  rewrite emit_eq, extend_extend, JSONFacts.series_of_value_of_series.
  reflexivity.
Qed.

(** A cycle whose write succeeds, by what the fetcher does. *)
Lemma fetchAndStoreData_run existingData w found evs k st iso :
  fetchHistoricalData host (Date.of_string START_DATE) (Some (clock host (clock_reads w)))
    (list_to_set (date <$> existingData)) (extend w (storage w) [fetching] 1 0) =
    (Ok found, extend (extend w (storage w) [fetching] 1 0) (storage w) evs 0 k) →
  Storage.setItem (storage w) STORAGE_KEY
    (JSON_stringify (mergeData existingData (newData found))) = Ok st →
  Date.toISOString (nextFetchDate (Some (clock host (S (clock_reads w))))) = Ok iso →
  fetchAndStoreData host existingData w =
  (Ok tt,
   extend w st
     ([fetching] ++ evs ++
      [Display (mergeData existingData (newData found));
       Status "Data fetched and stored successfully";
       DisplayInfo (date <$> last (mergeData existingData (newData found)))
                   (nextFetchText iso)]) 2 k).
Proof.
  intros Hf Hset Hiso. unfold fetchAndStoreData, try_.
  erewrite bind_ok by apply emit_eq.
  erewrite bind_ok by apply new_Date_eq.
  rewrite extend_extend.
  erewrite bind_ok by exact Hf.
  rewrite extend_extend.
  erewrite bind_ok by (apply setItem_ok; exact Hset).
  erewrite bind_ok by apply emit_eq.
  erewrite bind_ok by apply emit_eq.
  rewrite !extend_extend. cbn [storage extend].
  erewrite updateDisplayInfo_run.
  - rewrite extend_extend. cbn [storage extend]. f_equal. apply extend_eq; [|lia..].
    repeat rewrite <- (assoc_L (++)). reflexivity.
  - cbn [storage extend]. by eapply getItem_setItem.
  - cbn [clock_reads extend]. replace (0 + (0 + (0 + (0 + (1 + clock_reads w)))))%nat
      with (S (clock_reads w)) by lia. exact Hiso.
Qed.

End CycleFacts.

(** ** Merging and the table *)

Section Unique.
Context {A : Type} (R : A → A → Prop).

(** Two arrangements of the same items in an order without ties are the
    same. *)
Lemma sorted_perm_unique (l1 l2 : list A) :
  StronglySorted R l1 → StronglySorted R l2 → l1 ≡ₚ l2 →
  (∀ x y, x ∈ l1 → y ∈ l1 → R x y → R y x → x = y) → l1 = l2.
Proof.
  intros H1. revert l2. induction H1 as [|x l1 H1 IH Hx]; intros l2 H2 Hp Hanti.
  - by apply Permutation_nil_l in Hp.
  - destruct H2 as [|y l2 H2 Hy]; [by apply Permutation_nil_r in Hp|].
    assert (x = y) as ->.
    { assert (x ∈ y :: l2) as Hxin by (rewrite <- Hp; left).
      assert (y ∈ x :: l1) as Hyin by (rewrite Hp; left).
      apply elem_of_cons in Hxin as [?|Hxin]; [done|].
      apply elem_of_cons in Hyin as [?|Hyin]; [done|].
      rewrite Forall_forall in Hx, Hy.
      apply Hanti; [left|by right|by apply Hx|by apply Hy]. }
    f_equal. apply IH; [done|by eapply Permutation_cons_inv|].
    intros a b Ha Hb. apply Hanti; by right.
Qed.
End Unique.

(** A series in ascending order is sorted already. *)
Lemma sort_sorted_id (l : Series) : StronglySorted date_le l → JSArray.sort byDate l = l.
Proof.
  induction 1 as [|x l Hs IH Hx]; [done|].
  rewrite sort_cons, IH. destruct l as [|y l]; [done|].
  apply Forall_cons_1 in Hx as [Hxy _]. cbn [JSArray.insert].
  by rewrite date_le_not_after.
Qed.

Lemma calendar_dated_parse p :
  calendar_dated p → ∃ t, 0 <= Date.YearFromTime t <= 9999 ∧ isoDate (Some t) = Ok (date p) ∧
                         Date.parse (date p) = Some (Date.Day t * Date.msPerDay).
Proof.
  intros (t & Hy & Hd). exists t. split; [done|]. split; [done|]. by apply DateFacts.parse_isoDate.
Qed.

Lemma calendar_dated_dated p : calendar_dated p → dated p.
Proof. intros (t & _ & _ & Hp)%calendar_dated_parse. unfold dated. by rewrite Hp. Qed.

(** The date strings of the fetcher name their days one to one. *)
Lemma calendar_dated_inj p q :
  calendar_dated p → calendar_dated q → Date.parse (date p) = Date.parse (date q) →
  date p = date q.
Proof.
  intros (t & Hy & Hd & Hp)%calendar_dated_parse (u & Hy' & Hd' & Hq)%calendar_dated_parse Heq.
  rewrite Hp, Hq in Heq. injection Heq as Heq.
  assert (Date.Day t = Date.Day u) as Hday by (unfold Date.msPerDay in Heq; lia).
  rewrite DateFacts.isoDate_calendarDay in Hd, Hd' by done.
  injection Hd as <-. injection Hd' as <-.
  unfold Date.YearFromTime, Date.MonthFromTime, Date.DateFromTime, Date.DayWithinYear,
    Date.InLeapYear, Date.YearFromTime.
  unfold Date.MonthFromTime, Date.DayWithinYear, Date.InLeapYear, Date.YearFromTime.
  by rewrite Hday.
Qed.

Lemma Forall_sublist {A} (P : A → Prop) (k l : list A) :
  k `sublist_of` l → Forall P l → Forall P k.
Proof.
  induction 1 as [|x k l _ IH|x k l _ IH]; [done|..]; intros [Hx Hl]%Forall_cons_1; auto.
Qed.

Lemma NoDup_date_eq (l : Series) x y :
  NoDup (date <$> l) → x ∈ l → y ∈ l → date x = date y → x = y.
Proof.
  intros Hnd Hx Hy Heq.
  apply list_elem_of_lookup in Hx as [i Hi]. apply list_elem_of_lookup in Hy as [j Hj].
  assert (i = j) as ->; [|congruence].
  eapply NoDup_lookup; [exact Hnd|..]; rewrite list_lookup_fmap.
  - by rewrite Hi.
  - rewrite Hj. cbn. by rewrite Heq.
Qed.

Lemma date_le_antisym p q :
  calendar_dated p → calendar_dated q → date_le p q → date_le q p → date p = date q.
Proof.
  intros Hp Hq (x & y & Hx & Hy & Hxy) (y' & x' & Hy' & Hx' & Hyx).
  apply calendar_dated_inj; [done..|]. rewrite Hx, Hy. f_equal.
  rewrite Hx in Hx'. rewrite Hy in Hy'. injection Hx' as <-. injection Hy' as <-. lia.
Qed.

Lemma removeDuplicates_from_dates seen (l : Series) :
  list_to_set (date <$> removeDuplicates_from seen l) ∪ seen =@{gset string}
  list_to_set (date <$> l) ∪ seen.
Proof.
  revert seen. induction l as [|item rest IH]; intros seen; cbn; [done|].
  case_bool_decide as Hs.
  - rewrite IH. apply set_eq. intros d.
    rewrite !elem_of_union, elem_of_singleton. naive_solver.
  - cbn. specialize (IH ({[date item]} ∪ seen)).
    apply set_eq. intros d.
    assert (d ∈ list_to_set (date <$> removeDuplicates_from ({[date item]} ∪ seen) rest) ∪
                ({[date item]} ∪ seen) ↔
            d ∈ list_to_set (date <$> rest) ∪ ({[date item]} ∪ seen)) as Hd by by rewrite IH.
    revert Hd. rewrite !elem_of_union, !elem_of_singleton. naive_solver.
Qed.

Lemma removeDuplicates_from_seen seen (l : Series) :
  (∀ p, p ∈ l → date p ∈ seen) → removeDuplicates_from seen l = [].
Proof.
  induction l as [|item rest IH]; intros Hl; cbn; [done|].
  rewrite bool_decide_eq_true_2 by (apply Hl; left).
  apply IH. intros p Hp. apply Hl. by right.
Qed.

Lemma mergeData_dates (a b : Series) :
  list_to_set (date <$> mergeData a b) =@{gset string}
  list_to_set (date <$> a) ∪ list_to_set (date <$> b).
Proof.
  unfold mergeData, removeDuplicates.
  pose proof (removeDuplicates_from_dates ∅ (JSArray.sort byDate (a ++ b))) as H.
  rewrite !(right_id_L ∅ (∪)) in H. rewrite H.
  rewrite (sort_perm byDate (a ++ b)), fmap_app, list_to_set_app_L. done.
Qed.

Lemma mergeData_sorted (a b : Series) :
  Forall dated a → Forall dated b → StronglySorted date_le (mergeData a b).
Proof.
  intros Ha Hb. unfold mergeData, removeDuplicates.
  apply removeDuplicates_from_sorted, sort_byDate_sorted, Forall_app. done.
Qed.

Lemma mergeData_NoDup (a b : Series) : NoDup (date <$> mergeData a b).
Proof. apply removeDuplicates_from_NoDup. Qed.

Lemma mergeData_sublist_perm (P : PricePoint → Prop) (a b : Series) :
  Forall P a → Forall P b → Forall P (mergeData a b).
Proof.
  intros Ha Hb. unfold mergeData, removeDuplicates.
  eapply Forall_sublist; [apply removeDuplicates_from_sublist|].
  rewrite (sort_perm byDate (a ++ b)). apply Forall_app. done.
Qed.

(** A merge of series whose dates are one to a point keeps every point. *)
Lemma mergeData_fresh (a b : Series) :
  NoDup (date <$> (a ++ b)) → mergeData a b = JSArray.sort byDate (a ++ b).
Proof.
  intros Hnd. unfold mergeData, removeDuplicates. apply removeDuplicates_from_id.
  - by rewrite (sort_perm byDate (a ++ b)).
  - intros. apply not_elem_of_empty.
Qed.

(** X8.  [removeDuplicates] keeps points in
    the order they come in and drops the others; what it returns it
    returns again when called on it; it returns a series as it is exactly
    when no two points of the series have one date; and it returns as many
    points as the series has dates. *)
Theorem removeDuplicates_keeps_order (data : Series) :
  removeDuplicates data `sublist_of` data ∧
  removeDuplicates (removeDuplicates data) = removeDuplicates data ∧
  (removeDuplicates data = data ↔ NoDup (date <$> data)) ∧
  length (removeDuplicates data) = size (list_to_set (date <$> data) : gset string).
Proof.
  unfold removeDuplicates. split_and!.
  - apply removeDuplicates_from_sublist.
  - apply removeDuplicates_from_id; [apply removeDuplicates_from_NoDup|].
    intros. apply not_elem_of_empty.
  - split.
    + intros <-. apply removeDuplicates_from_NoDup.
    + intros Hnd. apply removeDuplicates_from_id; [done|]. intros. apply not_elem_of_empty.
  - pose proof (removeDuplicates_from_dates ∅ data) as H.
    rewrite !(right_id_L ∅ (∪)) in H. rewrite <- H.
    rewrite size_list_to_set by apply removeDuplicates_from_NoDup.
    by rewrite length_fmap.
Qed.

(** X9.  The merge step of a cycle loses no date and
    invents none: the dates of the merged series are those of the existing
    series and those of the incoming one, with one point each; and when no
    date occurs twice among the points of both series, the merged series
    holds every point of both, once. *)
Theorem merge_covers_dates (existing incoming : Series) :
  list_to_set (date <$> mergeData existing incoming) =@{gset string}
    list_to_set (date <$> existing) ∪ list_to_set (date <$> incoming) ∧
  length (mergeData existing incoming) =
    size (list_to_set (date <$> existing) ∪ list_to_set (date <$> incoming) : gset string) ∧
  (NoDup (date <$> (existing ++ incoming)) →
   mergeData existing incoming ≡ₚ existing ++ incoming).
Proof.
  split_and!.
  - apply mergeData_dates.
  - rewrite <- mergeData_dates, size_list_to_set by apply mergeData_NoDup.
    by rewrite length_fmap.
  - intros Hnd. rewrite mergeData_fresh by done. apply sort_perm.
Qed.

(** X10.  Merging in two steps is merging once: for series
    dated as the fetcher dates its points, merging [c] into the merge of
    [a] and [b] gives the merge of [a] with [b ++ c]; so a merged series
    merged with nothing is itself. *)
Theorem merge_in_steps (a b c : Series) :
  Forall calendar_dated a → Forall calendar_dated b → Forall calendar_dated c →
  mergeData (mergeData a b) c = mergeData a (b ++ c) ∧
  mergeData (mergeData a b) [] = mergeData a b.
Proof.
  intros Ha Hb Hc.
  assert (∀ l : Series, Forall calendar_dated l → Forall dated l) as Hdated.
  { intros l Hl. eapply Forall_impl; [exact Hl|]. intros p. apply calendar_dated_dated. }
  assert (∀ c : Series, Forall calendar_dated c →
            mergeData (mergeData a b) c = mergeData a (b ++ c)) as Hsteps.
  2:{ split; [by apply Hsteps|]. rewrite Hsteps by constructor. by rewrite app_nil_r. }
  clear c Hc. intros c Hc.
  pose proof (mergeData_sublist_perm calendar_dated a b Ha Hb) as HM.
  unfold mergeData at 1 3. unfold removeDuplicates.
  rewrite !removeDuplicates_from_sort
    by (apply Hdated; rewrite ?Forall_app; done).
  rewrite (assoc_L (++) a b c), (removeDuplicates_from_app ∅ (a ++ b) c),
    (removeDuplicates_from_app ∅ (mergeData a b) c).
  rewrite (removeDuplicates_from_id ∅ (mergeData a b))
    by (apply mergeData_NoDup || (intros; apply not_elem_of_empty)).
  rewrite mergeData_dates, <- list_to_set_app_L, <- fmap_app.
  set (R := removeDuplicates_from _ c).
  assert (Forall calendar_dated R) as HR.
  { eapply Forall_sublist; [apply removeDuplicates_from_sublist|exact Hc]. }
  set (D := removeDuplicates_from ∅ (a ++ b)).
  assert (mergeData a b = JSArray.sort byDate D) as ->.
  { unfold mergeData, removeDuplicates. apply removeDuplicates_from_sort.
    apply Hdated, Forall_app. done. }
  assert (Forall calendar_dated D) as HD.
  { eapply Forall_sublist; [apply removeDuplicates_from_sublist|]. by apply Forall_app. }
  assert (JSArray.sort byDate D ++ R ≡ₚ D ++ R) as Hperm by by rewrite (sort_perm byDate D).
  assert (NoDup (date <$> (D ++ R))) as Hnd.
  { subst D R. rewrite <- removeDuplicates_from_app. apply removeDuplicates_from_NoDup. }
  apply (sorted_perm_unique date_le).
  - apply sort_byDate_sorted, Hdated. rewrite Hperm. by apply Forall_app.
  - apply sort_byDate_sorted, Hdated. by apply Forall_app.
  - by rewrite !sort_perm.
  - intros x y Hx Hy Hxy Hyx.
    rewrite sort_perm, Hperm in Hx, Hy.
    apply (NoDup_date_eq (D ++ R)); [done..|].
    assert (Forall calendar_dated (D ++ R)) as Hall by by apply Forall_app.
    rewrite Forall_forall in Hall. apply date_le_antisym; auto.
Qed.

Lemma StronglySorted_reverse {A} (R : A → A → Prop) (l : list A) :
  StronglySorted R l → StronglySorted (flip R) (reverse l).
Proof.
  induction 1 as [|x l Hs IH Hx]; [constructor|].
  rewrite reverse_cons. apply Forall_reverse in Hx.
  induction IH as [|y k Hk IHk Hy]; [repeat constructor|].
  apply Forall_cons_1 in Hx as [Hxy Hx]. cbn. constructor; [by apply IHk|].
  apply Forall_app. split; [done|]. by constructor.
Qed.

Lemma sort_byDateDesc_sorted (l : Series) :
  Forall dated l → StronglySorted (flip date_le) (JSArray.sort byDateDesc l).
Proof.
  apply (sort_sorted byDateDesc (flip date_le) dated).
  - intros a b c Hab Hbc. by apply (date_le_trans c b a).
  - intros a b _ _. apply (after_byDate_le b a).
  - intros a b Ha Hb. by apply (not_after_byDate b a).
Qed.

Lemma merge_in_steps_witness :
  let a := [Point "2026-01-03" "3.000000"; Point "2026-01-01" "1.000000"] in
  let b := [Point "2026-01-02" "2.000000"; Point "2026-01-03" "9.000000"] in
  let c := [Point "2026-01-04" "4.000000"; Point "2026-01-02" "8.000000"] in
  (Forall calendar_dated a ∧ Forall calendar_dated b ∧ Forall calendar_dated c) ∧
  mergeData (mergeData a b) c = mergeData a (b ++ c) ∧
  mergeData (mergeData a b) c =
    [Point "2026-01-01" "1.000000"; Point "2026-01-02" "2.000000";
     Point "2026-01-03" "3.000000"; Point "2026-01-04" "4.000000"].
Proof.
  intros a b c.
  assert (calendar_dated (Point "2026-01-01" "1.000000")) as H1
    by (exists 1767225600000; split; [by vm_compute|reflexivity]).
  assert (∀ x, calendar_dated (Point "2026-01-02" x)) as H2
    by (intros x; exists 1767312000000; split; [by vm_compute|reflexivity]).
  assert (∀ x, calendar_dated (Point "2026-01-03" x)) as H3
    by (intros x; exists 1767398400000; split; [by vm_compute|reflexivity]).
  assert (calendar_dated (Point "2026-01-04" "4.000000")) as H4
    by (exists 1767484800000; split; [by vm_compute|reflexivity]).
  assert (Forall calendar_dated a) as Ha by (repeat constructor; done).
  assert (Forall calendar_dated b) as Hb by (repeat constructor; done).
  assert (Forall calendar_dated c) as Hc by (repeat constructor; done).
  split; [done|]. split.
  - exact (proj1 (merge_in_steps a b c Ha Hb Hc)).
  - reflexivity.
Defined.

(** X11.  The table of [displayData] has one row for
    each point of the series it is given, duplicates of a date included,
    and the rows go from the latest date down, when every date string is a
    date; where the stored prices read as finite Numbers below [1e21], each
    price shown has exactly six fractional digits. *)
Theorem table_newest_first (host : Host) (data : Series) :
  Forall dated data →
  (fst <$> tableRows host data) ≡ₚ (date <$> data) ∧
  StronglySorted (λ above below, on_or_after below.1 above.1) (tableRows host data) ∧
  (Forall (λ p, numeric (price p)) data →
   Forall (λ row, fixed6 row.2) (tableRows host data)).
Proof.
  intros Hd. unfold tableRows. split_and!.
  - rewrite <- list_fmap_compose.
    rewrite (sort_perm byDateDesc data). done.
  - eapply StronglySorted_fmap; [|by apply sort_byDateDesc_sorted].
    intros a b Hab. exact Hab.
  - intros Hnum. apply Forall_fmap. rewrite (sort_perm byDateDesc data).
    eapply Forall_impl; [exact Hnum|]. intros p (m & e & Hp & Hlt). cbn.
    rewrite Hp. by apply NumFacts.toFixed_6.
Qed.

Lemma table_newest_first_witness :
  let data := [Point "2026-01-01" "2.5"; Point "2026-01-03" "1";
               Point "2026-01-02" "0.1234567"] in
  let host := host_at 0 [] in
  Forall dated data ∧
  StronglySorted (λ above below, on_or_after below.1 above.1) (tableRows host data) ∧
  tableRows host data =
    [("2026-01-03", "1.000000"); ("2026-01-02", "0.123457"); ("2026-01-01", "2.500000")]%string.
Proof.
  intros data host.
  assert (Forall dated data) as Hd by (repeat constructor; by eexists).
  split; [exact Hd|]. split.
  - exact (proj1 (proj2 (table_newest_first host data Hd))).
  - vm_compute. reflexivity.
Defined.

(** X12.  For a series as the script stores it, in
    ascending order with one point a date, dated as the fetcher dates its
    points, the rows of the table are the points of the series from the
    last to the first. *)
Theorem table_of_stored_series (host : Host) (data : Series) :
  StronglySorted date_le data → NoDup (date <$> data) → Forall calendar_dated data →
  tableRows host data =
  (λ item, (date item, Num.toFixed (Number_toString host) (Num.parseFloat (price item)) 6))
    <$> reverse data.
Proof.
  intros Hs Hnd Hc. unfold tableRows. f_equal.
  assert (Forall dated data) as Hd.
  { eapply Forall_impl; [exact Hc|]. intros p. apply calendar_dated_dated. }
  apply (sorted_perm_unique (flip date_le)).
  - by apply sort_byDateDesc_sorted.
  - by apply StronglySorted_reverse.
  - by rewrite sort_perm, reverse_Permutation.
  - intros x y Hx Hy Hxy Hyx. rewrite sort_perm in Hx, Hy.
    apply (NoDup_date_eq data); [done..|].
    rewrite Forall_forall in Hc. apply date_le_antisym; auto.
Qed.

Lemma table_of_stored_series_witness :
  let data := [Point "2026-01-01" "2.5"; Point "2026-01-02" "1"] in
  let host := host_at 0 [] in
  (StronglySorted date_le data ∧ NoDup (date <$> data) ∧ Forall calendar_dated data) ∧
  tableRows host data = [("2026-01-02", "1.000000"); ("2026-01-01", "2.500000")]%string.
Proof.
  intros data host.
  assert (StronglySorted date_le data) as Hs.
  { repeat constructor. eexists _, _. split; [reflexivity|]. split; [reflexivity|].
    by vm_compute. }
  assert (NoDup (date <$> data)) as Hnd.
  { apply NoDup_cons. split; [|apply NoDup_singleton].
    intros Hin. apply list_elem_of_singleton in Hin. discriminate Hin. }
  assert (Forall calendar_dated data) as Hc.
  { repeat constructor.
    - exists 1767225600000. split; [by vm_compute|reflexivity].
    - exists 1767312000000. split; [by vm_compute|reflexivity]. }
  split; [done|].
  rewrite (table_of_stored_series host data Hs Hnd Hc). vm_compute. reflexivity.
Defined.

(** ** Cycles, the page and today's price *)

Lemma midnight_fields k :
  Date.HourFromTime (k * Date.msPerDay) = 0 ∧ Date.MinFromTime (k * Date.msPerDay) = 0 ∧
  Date.SecFromTime (k * Date.msPerDay) = 0 ∧ Date.msFromTime (k * Date.msPerDay) = 0.
Proof.
  unfold Date.HourFromTime, Date.MinFromTime, Date.SecFromTime, Date.msFromTime, Date.msPerDay.
  split_and!; Z.div_mod_to_equations; lia.
Qed.

(** The text shown for a fetch at the midnight that starts the day [k]. *)
Lemma nextFetchText_midnight k :
  0 <= Date.YearFromTime (k * Date.msPerDay) <= 9999 →
  ∃ iso, Date.toISOString (Some (k * Date.msPerDay)) = Ok iso ∧
         nextFetchText iso = todayAt (k * Date.msPerDay) +:+ " 00:00:00 UTC".
Proof.
  intros Hy. eexists. split; [reflexivity|].
  unfold todayAt. rewrite DateFacts.isoDate_calendarDay by done.
  destruct (midnight_fields k) as (-> & -> & -> & ->).
  unfold Date.isoYear, calendarDay. case_match eqn:E; [|lia].
  rewrite DateFacts.pad4, !DateFacts.pad2.
  set (y1 := Str.digit_char _). set (y2 := Str.digit_char _).
  set (y3 := Str.digit_char _). set (y4 := Str.digit_char _).
  set (m1 := Str.digit_char _). set (m2 := Str.digit_char _).
  set (d1 := Str.digit_char _). set (d2 := Str.digit_char _).
  unfold nextFetchText.
  match goal with
  | |- context [Str.before _ ?s] =>
      assert (s = Str.of_chars ([y1; y2; y3; y4; "-"%char; m1; m2; "-"%char; d1; d2] ++
                                "T"%char :: Str.chars "00:00:00.000Z")) as -> by reflexivity
  end.
  rewrite DateFacts.before_app
    by (repeat constructor; try (apply DateFacts.digit_char_ne; reflexivity); done).
  reflexivity.
Qed.

(** A clock whose next day is in the years 0 to 9999 is a day and more
    from the ends of the range of time values. *)
Lemma tomorrow_in_range now :
  0 <= Date.YearFromTime ((Date.Day now + 1) * Date.msPerDay) <= 9999 →
  - Date.maxTime <= now <= Date.maxTime - Date.msPerDay.
Proof.
  intros Hy. unfold Date.YearFromTime in Hy.
  assert (Date.Day ((Date.Day now + 1) * Date.msPerDay) = Date.Day now + 1) as Hd.
  { unfold Date.Day at 1, Date.msPerDay. by rewrite Z.div_mul. }
  rewrite Hd in Hy.
  pose proof (DateFacts.YearFromDay_spec (Date.Day now + 1)) as [Hlo Hhi].
  pose proof (DateFacts.DayFromYear_mono 0 _ (proj1 Hy)) as H0.
  pose proof (DateFacts.DayFromYear_mono (Date.YearFromDay (Date.Day now + 1) + 1) 10000
                ltac:(lia)) as H1.
  change (Date.DayFromYear 0) with (-719528) in H0.
  change (Date.DayFromYear 10000) with 2932897 in H1.
  pose proof (DateFacts.Day_bounds now).
  unfold Date.maxTime, Date.msPerDay in *. lia.
Qed.

(** The text of the next fetch, by the clock. *)
Lemma nextFetchText_tomorrow now :
  0 <= Date.YearFromTime ((Date.Day now + 1) * Date.msPerDay) <= 9999 →
  ∃ iso, Date.toISOString (nextFetchDate (Some now)) = Ok iso ∧
         nextFetchText iso = todayAt ((Date.Day now + 1) * Date.msPerDay) +:+ " 00:00:00 UTC".
Proof.
  intros Hy. rewrite nextFetchDate_eq by by apply tomorrow_in_range.
  by apply nextFetchText_midnight.
Qed.

(** X13.  For a stored series and a clock whose
    next UTC day is in the years 0 to 9999, [updateDisplayInfo] shows the
    date of the last stored point and, as the time of the next fetch, the
    date of the next UTC day followed by [00:00:00 UTC]: the first midnight
    after the clock reading, at most a day away.  It reads the clock once
    and changes nothing in the storage. *)
Theorem display_info_next_midnight (host : Host) (w : World) (data : Series) :
  let now := clock host (clock_reads w) in
  let tomorrow := (Date.Day now + 1) * Date.msPerDay in
  series_of_value (loaded (storage w)).1 = Some data →
  0 <= Date.YearFromTime tomorrow <= 9999 →
  updateDisplayInfo host w =
  (Ok tt,
   extend w (storage w)
     ((loaded (storage w)).2 ++
      [DisplayInfo (date <$> last data) (todayAt tomorrow +:+ " 00:00:00 UTC")]) 1 0) ∧
  now < tomorrow <= now + Date.msPerDay ∧
  Date.parse (todayAt tomorrow) = Some tomorrow.
Proof.
  intros now tomorrow Hser Hy.
  destruct (nextFetchText_tomorrow now Hy) as (iso & Hiso & Htext).
  split; [|split].
  - unfold updateDisplayInfo.
    erewrite bind_ok by apply loadStoredData_eq.
    erewrite bind_ok by apply new_Date_eq.
    rewrite extend_extend. cbn [storage extend clock_reads Nat.add].
    unfold lift. erewrite bind_ok by (fold now; rewrite Hiso; reflexivity).
    rewrite emit_eq, extend_extend, Hser, Htext, app_nil_r. reflexivity.
  - pose proof (DateFacts.Day_bounds now). unfold tomorrow, Date.msPerDay in *. lia.
  - unfold todayAt. destruct (isoDate (Some tomorrow)) as [s|e] eqn:Hs.
    + rewrite (DateFacts.parse_isoDate tomorrow s Hy Hs). f_equal.
      unfold tomorrow, Date.Day at 1, Date.msPerDay. by rewrite Z.div_mul.
    + unfold isoDate in Hs. destruct (DateFacts.toISOString_head tomorrow) as (c & l & _ & Heq).
      by rewrite Heq in Hs.
Qed.

Lemma display_info_next_midnight_witness :
  let data := [Point "2026-01-01" "1.000000"; Point "2026-01-02" "2.000000"] in
  let host := host_at 1767448800000 [] in
  let w := world_with {[STORAGE_KEY := JSON_stringify data]} in
  (series_of_value (loaded (storage w)).1 = Some data ∧
   0 <= Date.YearFromTime ((Date.Day 1767448800000 + 1) * Date.msPerDay) <= 9999) ∧
  events (updateDisplayInfo host w).2 =
    [DisplayInfo (Some "2026-01-02"%string) "2026-01-04 00:00:00 UTC"].
Proof.
  intros data host w.
  assert (series_of_value (loaded (storage w)).1 = Some data) as Hser
    by (vm_compute; reflexivity).
  assert (0 <= Date.YearFromTime ((Date.Day 1767448800000 + 1) * Date.msPerDay) <= 9999)
    as Hy by by vm_compute.
  split; [done|].
  rewrite (proj1 (display_info_next_midnight host w data Hser Hy)).
  vm_compute. reflexivity.
Defined.

(** A stored series merged with nothing is itself. *)
Lemma mergeData_nothing (existing : Series) :
  StronglySorted date_le existing → NoDup (date <$> existing) →
  mergeData existing [] = existing.
Proof.
  intros Hs Hnd. rewrite mergeData_fresh by by rewrite app_nil_r.
  rewrite app_nil_r. by apply sort_sorted_id.
Qed.

(** X14.  When every request to the exchange fails, a
    cycle on a stored series (ascending, one point a date) still ends as a
    success: each failure is logged on the console by the fetcher, with no
    pause after it, no error message is shown, the series is written back
    as it is and displayed, and the status line reads [Data fetched and
    stored successfully]. *)
Theorem sync_during_outage (host : Host) (existing : Series) (w : World) (st : Storage.t) :
  let tomorrow := (Date.Day (clock host (S (clock_reads w))) + 1) * Date.msPerDay in
  (∀ k a b, ∃ e, klines_response host k a b = Throw e) →
  StronglySorted date_le existing → NoDup (date <$> existing) →
  Storage.setItem (storage w) STORAGE_KEY (JSON_stringify existing) = Ok st →
  0 <= Date.YearFromTime tomorrow <= 9999 →
  ∃ evs,
    fetchAndStoreData host existing w =
      (Ok tt,
       extend w st
         ([fetching] ++ evs ++
          [Display existing; Status "Data fetched and stored successfully";
           DisplayInfo (date <$> last existing) (todayAt tomorrow +:+ " 00:00:00 UTC")])
         2 (length (requested evs))) ∧
    Forall fetcher_event evs ∧
    pauses evs = [] ∧
    length (logged evs) = length (requested evs).
Proof.
  intros tomorrow Hout Hs Hnd Hset Hy.
  destruct (fetchLoop_run host (λ _, False) (λ acc, newData acc = []))
    with (n := turnsFor (Date.of_string START_DATE) (Some (clock host (clock_reads w))))
         (end_ := Some (clock host (clock_reads w)))
         (currentStart := Date.of_string START_DATE)
         (acc := {| newData := []; existingDates := list_to_set (date <$> existing) |})
         (w := extend w (storage w) [fetching] 1 0)
    as (found & evs & Hrun & _ & Hev & Hcount & Hpause & Hnone).
  - intros k a b klines Hk. destruct (Hout k a b) as [e He]. congruence.
  - done.
  - done.
  - specialize (Hpause Hout).
    destruct (nextFetchText_tomorrow _ Hy) as (iso & Hiso & Htext).
    exists evs. split_and!; [|done..|by rewrite Hpause, Nat.add_0_r in Hcount].
    unfold fetchHistoricalData, Date.copy in *.
    erewrite fetchAndStoreData_run;
      [|exact Hrun|by rewrite Hnone, mergeData_nothing|exact Hiso].
    by rewrite Hnone, mergeData_nothing, Htext.
Qed.

Lemma sync_during_outage_witness :
  let existing := [Point "2026-01-01" "1.000000"; Point "2026-01-02" "2.000000"] in
  let host := {| clock := λ _, 1767448800000;
                 klines_response := λ _ _ _, Throw (NetworkError "Failed to fetch");
                 LocalTZA := λ _ _, 0; Number_toString := λ _, ""%string |} in
  let w := world_with ∅ in
  let st := Storage.Make (<[STORAGE_KEY := JSON_stringify existing]> ∅) false None in
  ((∀ k a b, ∃ e, klines_response host k a b = Throw e) ∧
   StronglySorted date_le existing ∧ NoDup (date <$> existing) ∧
   Storage.setItem (storage w) STORAGE_KEY (JSON_stringify existing) = Ok st ∧
   0 <= Date.YearFromTime ((Date.Day 1767448800000 + 1) * Date.msPerDay) <= 9999) ∧
  ∃ evs,
    fetchAndStoreData host existing w =
      (Ok tt,
       extend w st
         ([fetching] ++ evs ++
          [Display existing; Status "Data fetched and stored successfully";
           DisplayInfo (Some "2026-01-02"%string) "2026-01-04 00:00:00 UTC"])
         2 (length (requested evs))) ∧
    pauses evs = [].
Proof.
  intros existing host w st.
  assert (∀ k a b, ∃ e, klines_response host k a b = Throw e) as Hout
    by (intros; by eexists).
  assert (StronglySorted date_le existing) as Hs.
  { repeat constructor. eexists _, _. split; [reflexivity|]. split; [reflexivity|].
    by vm_compute. }
  assert (NoDup (date <$> existing)) as Hnd.
  { apply NoDup_cons. split; [|apply NoDup_singleton].
    intros Hin. apply list_elem_of_singleton in Hin. discriminate Hin. }
  assert (Storage.setItem (storage w) STORAGE_KEY (JSON_stringify existing) = Ok st) as Hset
    by reflexivity.
  assert (0 <= Date.YearFromTime ((Date.Day 1767448800000 + 1) * Date.msPerDay) <= 9999)
    as Hy by by vm_compute.
  split; [done|].
  destruct (sync_during_outage host existing w st Hout Hs Hnd Hset Hy)
    as (evs & Hrun & _ & Hp & _).
  exists evs. split; [exact Hrun|exact Hp].
Defined.

Lemma on_or_after_dated d0 p : on_or_after d0 (date p) → dated p.
Proof. intros (x & y & _ & Hy & _). unfold dated. by rewrite Hy. Qed.

(** X15.  After a cycle started on a series
    whose date strings are dates, in any order and with any duplicates, the
    storage is as before (the write has failed) or it holds the text of a
    series in ascending order with one point a date. *)
Theorem sync_keeps_store_well_formed (host : Host) (existing : Series) (w : World) :
  Forall dated existing →
  let after := storage (fetchAndStoreData host existing w).2 in
  after = storage w ∨ stored_ok after.
Proof.
  intros Hd after.
  destruct (fetchAndStoreData_cases host existing w)
    as (found & evs & _ & Hok & _ & Hrun).
  subst after.
  destruct (Storage.setItem (storage w) STORAGE_KEY _) as [st|error] eqn:Hset.
  2:{ left. by rewrite Hrun. }
  destruct Hrun as (tail & -> & _). cbn [snd storage extend].
  right. exists (mergeData existing (newData found)).
  assert (Forall dated (newData found)) as Hfd.
  { apply Forall_forall. intros p Hp. eapply on_or_after_dated.
    by apply (found_on_or_after _ _ Hok). }
  split_and!.
  - by eapply getItem_setItem.
  - by apply mergeData_sorted.
  - apply mergeData_NoDup.
  - by apply mergeData_sublist_perm.
Qed.

Lemma sync_keeps_store_well_formed_witness :
  let existing := [Point "2026-01-02" "2.000000"; Point "2026-01-01" "1.000000";
                   Point "2026-01-02" "9.000000"] in
  let candles := [ {| openTime := Num.of_Z 1767398400000; openPrice := "3" |} ] in
  let host := host_at 1767448800000 candles in
  let w := world_with ∅ in
  Forall dated existing ∧
  stored_ok (storage (fetchAndStoreData host existing w).2) ∧
  Storage.items (storage (fetchAndStoreData host existing w).2) !! STORAGE_KEY =
    Some (JSON_stringify [Point "2026-01-01" "1.000000"; Point "2026-01-02" "2.000000";
                          Point "2026-01-03" "3.000000"]).
Proof.
  intros existing candles host w.
  assert (Forall dated existing) as Hd by (repeat constructor; by eexists).
  split; [exact Hd|].
  assert (Storage.items (storage (fetchAndStoreData host existing w).2) !! STORAGE_KEY =
          Some (JSON_stringify [Point "2026-01-01" "1.000000"; Point "2026-01-02" "2.000000";
                                Point "2026-01-03" "3.000000"])) as Hitems
    by (vm_compute; reflexivity).
  split; [|exact Hitems].
  destruct (sync_keeps_store_well_formed host existing w Hd) as [Hsame|Hok]; [|exact Hok].
  rewrite Hsame in Hitems. discriminate Hitems.
Defined.

(** X16.  In a cycle started on a series with one
    point a date, the merged series holds every existing point and every
    point the fetcher has found, once each; when the write succeeds, it is
    what the storage holds and a later load returns, and what is
    displayed. *)
Theorem sync_stores_all_found (host : Host) (existing : Series) (w : World) :
  NoDup (date <$> existing) →
  ∃ found w1,
    fetchHistoricalData host (Date.of_string START_DATE) (Some (clock host (clock_reads w)))
      (list_to_set (date <$> existing)) (extend w (storage w) [fetching] 1 0) =
      (Ok found, w1) ∧
    mergeData existing (newData found) ≡ₚ existing ++ newData found ∧
    ∀ st, Storage.setItem (storage w) STORAGE_KEY
            (JSON_stringify (mergeData existing (newData found))) = Ok st →
          storage (fetchAndStoreData host existing w).2 = st ∧
          loaded st = (value_of_series (mergeData existing (newData found)), []) ∧
          Display (mergeData existing (newData found)) ∈
            events (fetchAndStoreData host existing w).2.
Proof.
  intros Hnd.
  destruct (fetchAndStoreData_cases host existing w)
    as (found & evs & Hf & Hok & _ & Hrun).
  eexists found, _. split; [exact Hf|]. split.
  - rewrite mergeData_fresh; [apply sort_perm|].
    rewrite fmap_app. apply NoDup_app. split_and!.
    + done.
    + intros d Hd (p & -> & Hp)%list_elem_of_fmap_1.
      apply (found_fresh _ _ Hok p Hp). by apply elem_of_list_to_set.
    + apply (found_NoDup _ _ Hok).
  - intros st Hset. rewrite Hset in Hrun. destruct Hrun as (tail & -> & _).
    cbn [snd storage events extend].
    split; [done|]. split.
    + apply loaded_stringify. by eapply getItem_setItem.
    + set_solver.
Qed.

Lemma sync_stores_all_found_witness :
  let existing := [Point "2026-01-01" "1.000000"; Point "2026-01-02" "2.000000"] in
  let candles := [ {| openTime := Num.of_Z 1767312000000; openPrice := "9.5" |};
                   {| openTime := Num.of_Z 1767398400000; openPrice := "3" |} ] in
  let host := host_at 1767448800000 candles in
  let w := world_with ∅ in
  NoDup (date <$> existing) ∧
  ∃ found,
    newData found = [Point "2026-01-03" "3.000000"] ∧
    mergeData existing (newData found) ≡ₚ existing ++ newData found.
Proof.
  intros existing candles host w.
  assert (NoDup (date <$> existing)) as Hnd.
  { apply NoDup_cons. split; [|apply NoDup_singleton].
    intros Hin. apply list_elem_of_singleton in Hin. discriminate Hin. }
  split; [exact Hnd|].
  destruct (sync_stores_all_found host existing w Hnd) as (found & w1 & Hf & Hperm & _).
  exists found. split; [|exact Hperm].
  assert (newData found =
          match (fetchHistoricalData host (Date.of_string START_DATE)
                   (Some (clock host (clock_reads w)))
                   (list_to_set (date <$> existing))
                   (extend w (storage w) [fetching] 1 0)).1 with
          | Ok f => newData f
          | Throw _ => []
          end) as -> by (rewrite Hf; reflexivity).
  vm_compute. reflexivity.
Defined.

(** X17.  The theme and the prices do not touch each
    other in the storage: a cycle leaves the saved theme as it is, so
    [initializeTheme] gives the same class list after it as before, and a
    toggle of the theme that is saved leaves the stored series as it is. *)
Theorem theme_and_prices_apart
    (host : Host) (existing : Series) (w : World) (classList : gset string) :
  Storage.getItem (storage (fetchAndStoreData host existing w).2) "theme" =
    Storage.getItem (storage w) "theme" ∧
  (∀ prefersDark,
     initializeTheme prefersDark classList (storage (fetchAndStoreData host existing w).2) =
     initializeTheme prefersDark classList (storage w)) ∧
  (∀ st', (toggleTheme classList (storage w)).1 = Ok st' →
          Storage.getItem st' STORAGE_KEY = Storage.getItem (storage w) STORAGE_KEY ∧
          loaded st' = loaded (storage w)).
Proof.
  assert (Storage.getItem (storage (fetchAndStoreData host existing w).2) "theme" =
          Storage.getItem (storage w) "theme") as Htheme.
  { destruct (fetchAndStoreData_cases host existing w) as (found & evs & _ & _ & _ & Hrun).
    destruct (Storage.setItem (storage w) STORAGE_KEY _) as [st|error] eqn:Hset.
    - destruct Hrun as (tail & -> & _). cbn [snd storage extend].
      by eapply getItem_setItem_ne.
    - by rewrite Hrun. }
  split; [done|]. split.
  - intros prefersDark. unfold initializeTheme. by rewrite Htheme.
  - intros st' Hsave. unfold toggleTheme in Hsave. cbn [fst] in Hsave.
    assert (Storage.getItem st' STORAGE_KEY = Storage.getItem (storage w) STORAGE_KEY) as Hget
      by by eapply getItem_setItem_ne.
    split; [done|]. unfold loaded. by rewrite Hget.
Qed.

(** X18.  For a stored series, [refreshData] is the
    cycle on what [loadStoredData] returns and nothing more: its own
    [catch] never runs, it ends normally with the button enabled and
    reading [Refresh Now], and, whether or not the series is up to date, it
    opens a fetch cycle, which sends at least one request when the clock is
    at or after [START_DATE]. *)
Theorem refresh_always_fetches (host : Host) (btn : Button) (w : World) (existing : Series) :
  series_of_value (loaded (storage w)).1 = Some existing →
  let w0 := extend w (storage w) (loaded (storage w)).2 0 0 in
  refreshData host btn w =
    (Ok tt, {| disabled := false; textContent := "Refresh Now" |},
     (fetchAndStoreData host existing w0).2) ∧
  ∃ st evs reads,
    (fetchAndStoreData host existing w0).2 =
      extend w0 st ([fetching] ++ evs) reads (length (requested evs)) ∧
    (Date.leb (Date.of_string START_DATE) (Some (clock host (clock_reads w))) = true →
     (1 ≤ length (requested evs))%nat).
Proof.
  intros Hser w0.
  destruct (fetchAndStoreData_cases host existing w0)
    as (found & evs & _ & _ & Hk & Hrun).
  assert (∃ st tail reads,
            fetchAndStoreData host existing w0 =
              (Ok tt, extend w0 st ([fetching] ++ evs ++ tail) reads (length (requested evs))) ∧
            requested tail = [])
    as (st & tail & reads & Hcycle & Htail).
  { destruct (Storage.setItem (storage w0) STORAGE_KEY _) as [st|error].
    - destruct Hrun as (tail & Hrun & Hq). eexists _, _, _. split; [exact Hrun|].
      apply quiet_not_fetching in Hq as [_ Hq]. by rewrite <- Hq.
    - eexists _, _, _. split; [exact Hrun|]. unfold reported. by destruct existing. }
  split.
  - unfold refreshData, try_, syncFromStore.
    erewrite bind_ok by apply loadStoredData_eq.
    unfold as_series. rewrite Hser.
    erewrite bind_ok by reflexivity.
    fold w0. by rewrite Hcycle.
  - exists st, (evs ++ tail), reads. rewrite Hcycle. cbn [snd]. split.
    + f_equal. unfold requested in *. by rewrite omap_app, Htail, app_nil_r.
    + intros Hleb. unfold requested in *. rewrite omap_app, Htail, app_nil_r.
      by apply Hk.
Qed.

Lemma refresh_always_fetches_witness :
  let existing := [Point "2026-01-01" "1.000000"; Point "2026-01-02" "2.000000"] in
  let candles := [ {| openTime := Num.of_Z 1767312000000; openPrice := "9.5" |} ] in
  let host := host_at 1767362400000 candles in
  let w := world_with {[STORAGE_KEY := JSON_stringify existing]} in
  let btn := {| disabled := false; textContent := "Refresh Now" |} in
  series_of_value (loaded (storage w)).1 = Some existing ∧
  needsFetch (date <$> last existing) (todayAt 1767362400000) = false ∧
  (refreshData host btn w).1 = (Ok tt, btn) ∧
  requests (refreshData host btn w).2 = 1%nat.
Proof.
  intros existing candles host w btn.
  assert (series_of_value (loaded (storage w)).1 = Some existing) as Hser
    by (vm_compute; reflexivity).
  split; [exact Hser|]. split; [vm_compute; reflexivity|].
  destruct (refresh_always_fetches host btn w existing Hser) as [Hrun _].
  rewrite Hrun. split; [reflexivity|]. vm_compute. reflexivity.
Defined.

(** X19.  [fetchTodayPrice] asks the exchange for the candles
    of the UTC day of the clock reading, from its first millisecond to its
    last.  On an answer with a candle it returns [toFixed(6)] of the open
    price of the first candle and sends nothing more; on an empty answer it
    returns what the ticker request gives; an exception of either request
    is logged on the console and thrown on to the caller. *)
Theorem today_price (host : Host) (ticker : nat → result (Response string)) (w : World) :
  let now := clock host (clock_reads w) in
  let a := Some (Date.Day now * Date.msPerDay) in
  let b := Some (Date.Day now * Date.msPerDay + Date.msPerDay - 1) in
  0 <= now < Date.maxTime →
  match klines_response host (requests w) a b with
  | Ok (candle :: _) =>
      fetchTodayPrice host ticker w =
        (Ok (Num.toFixed (Number_toString host) (Num.parseFloat (openPrice candle)) 6),
         extend w (storage w) [Request a b] 1 1)
  | Ok [] =>
      ∃ r, fetchTicker host ticker (extend w (storage w) [Request a b] 1 1) =
             (r, extend w (storage w) [Request a b] 1 2) ∧
           fetchTodayPrice host ticker w =
             match r with
             | Ok price => (Ok price, extend w (storage w) [Request a b] 1 2)
             | Throw e =>
                 (Throw e,
                  extend w (storage w)
                    [Request a b; ConsoleError "Error fetching today price:" e] 1 2)
             end
  | Throw e =>
      fetchTodayPrice host ticker w =
        (Throw e,
         extend w (storage w) [Request a b; ConsoleError "Error fetching today price:" e] 1 1)
  end.
Proof.
  intros now a b Hnow.
  assert (batchStartTime (Some now) = a ∧ batchEndTime (Some now) = b) as [Ha Hb].
  { unfold batchStartTime, batchEndTime. rewrite !DateFacts.UTC_fields by lia.
    pose proof (DateFacts.Day_bounds now) as Hd.
    assert (0 <= Date.Day now) by (unfold Date.Day, Date.msPerDay; apply Z.div_pos; lia).
    assert (Date.Day now * Date.msPerDay + Date.msPerDay <= Date.maxTime).
    { assert (Date.Day now < 100000000); [|unfold Date.maxTime, Date.msPerDay in *; lia].
      unfold Date.Day, Date.msPerDay, Date.maxTime in *.
      apply Z.div_lt_upper_bound; lia. }
    rewrite !DateFacts.TimeClip_Some
      by (unfold Date.MakeTime, Date.maxTime, Date.msPerDay in *; lia).
    unfold a, b, Date.MakeTime, Date.msPerDay. split; f_equal; lia. }
  assert (∀ v : Z, Date.getTime (Date.of_number (Some v)) = Date.TimeClip v) as Hget by done.
  assert (Date.getTime (Date.of_number a) = a ∧ Date.getTime (Date.of_number b) = b) as [Ha' Hb'].
  { pose proof (DateFacts.Day_bounds now) as Hd.
    assert (0 <= Date.Day now) by (unfold Date.Day, Date.msPerDay; apply Z.div_pos; lia).
    assert (Date.Day now * Date.msPerDay + Date.msPerDay <= Date.maxTime).
    { assert (Date.Day now < 100000000); [|unfold Date.maxTime, Date.msPerDay in *; lia].
      unfold Date.Day, Date.msPerDay, Date.maxTime in *.
      apply Z.div_lt_upper_bound; lia. }
    unfold a, b. rewrite !Hget.
    rewrite !DateFacts.TimeClip_Some by (unfold Date.maxTime, Date.msPerDay in *; lia). done. }
  assert (fetchKlines host a b (extend w (storage w) [] 1 0) =
          (klines_response host (requests w) a b, extend w (storage w) [Request a b] 1 1))
    as Hk by (by rewrite fetchKlines_eq, extend_extend).
  unfold fetchTodayPrice, try_.
  erewrite bind_ok by apply new_Date_eq. fold now. rewrite Ha, Hb, Ha', Hb'.
  destruct (klines_response host (requests w) a b) as [[|candle rest]|e].
  - erewrite bind_ok by exact Hk.
    unfold fetchTicker. cbn [requests extend storage events clock_reads Nat.add].
    destruct (ticker _) as [resp|e].
    + destruct (negb (ok resp)).
      * eexists. split; [reflexivity|]. cbn beta iota. unfold bind, console_error, throw.
        rewrite emit_eq. cbn. unfold extend. cbn. rewrite <- (assoc_L (++)). done.
      * destruct (json resp) as [price|e].
        -- eexists. split; [reflexivity|]. done.
        -- eexists. split; [reflexivity|]. cbn beta iota. unfold bind, console_error, throw.
           rewrite emit_eq. cbn. unfold extend. cbn. rewrite <- (assoc_L (++)). done.
    + eexists. split; [reflexivity|]. cbn beta iota. unfold bind, console_error, throw.
      rewrite emit_eq. cbn. unfold extend. cbn. rewrite <- (assoc_L (++)). done.
  - erewrite bind_ok by exact Hk. reflexivity.
  - erewrite bind_throw by exact Hk. unfold bind, console_error, throw.
    rewrite emit_eq. by rewrite extend_extend.
Qed.

Lemma today_price_witness :
  let candles := [ {| openTime := Num.of_Z 1767398400000; openPrice := "2.5" |} ] in
  let host := host_at 1767448800000 candles in
  let ticker : nat → result (Response string) := λ _, Throw (NetworkError "Failed to fetch") in
  let w := world_with ∅ in
  0 <= clock host (clock_reads w) < Date.maxTime ∧
  fetchTodayPrice host ticker w =
    (Ok "2.500000"%string,
     extend w (storage w) [Request (Some 1767398400000) (Some 1767484799999)] 1 1).
Proof.
  intros candles host ticker w.
  assert (0 <= clock host (clock_reads w) < Date.maxTime) as Hnow by by vm_compute.
  split; [exact Hnow|].
  exact (today_price host ticker w Hnow).
Defined.

(** X20.  When access to the storage is denied,
    the page load ends in [initializeTheme] with the [SecurityError] of
    [getItem]: nothing is shown, requested or scheduled, and
    [initializeApp] is never called, although on its own it would have
    started a fetch cycle, [loadStoredData] catching the same error. *)
Theorem page_load_without_storage
    (host : Host) (prefersDark : bool) (classList : gset string) (w : World) :
  Storage.denied (storage w) = true →
  onDOMContentLoaded host prefersDark classList w =
    (Throw (SecurityError "The operation is insecure."), classList, w) ∧
  ∃ r st evs reads k,
    initializeApp host w = (r, extend w st evs reads k) ∧ fetching ∈ evs.
Proof.
  intros Hdenied. split.
  - unfold onDOMContentLoaded, initializeTheme, Storage.getItem. by rewrite Hdenied.
  - assert (loaded (storage w) =
            (JSON.Array [],
             [ConsoleError "Error loading stored data:"
                (SecurityError "The operation is insecure.")])) as Hload.
    { unfold loaded, Storage.getItem. by rewrite Hdenied. }
    destruct (initializeApp_spec host w []) as (r & st & evs & reads & k & Hrun & _ & Hcase).
    { by rewrite Hload. }
    cbn [last fmap option_fmap option_map needsFetch] in Hcase.
    destruct Hcase as [(evs' & ->) _].
    eexists r, st, _, reads, k. split; [exact Hrun|]. set_solver.
Qed.

Lemma page_load_without_storage_witness :
  let host := host_at 1767448800000 [] in
  let w := {| storage := Storage.Make ∅ true None; events := [];
              clock_reads := 0; requests := 0 |} in
  Storage.denied (storage w) = true ∧
  onDOMContentLoaded host true ∅ w =
    (Throw (SecurityError "The operation is insecure."), ∅, w).
Proof.
  intros host w.
  assert (Storage.denied (storage w) = true) as Hdenied by reflexivity.
  split; [exact Hdenied|].
  exact (proj1 (page_load_without_storage host true ∅ w Hdenied)).
Defined.

(** ** What the fetcher and the page load leave alone *)

(** X21.  A run of the batch fetcher always
    ends normally, and all it does besides returning what it has found is
    to send its requests, each followed by the pause or, after an
    exception, by a line on the console: it shows nothing on the page,
    writes nothing to the storage and does not read the clock. *)
Theorem fetcher_touches_nothing_else
    (host : Host) (startDate endDate : option Z) (excluded : gset string) (w : World) :
  ∃ found evs,
    fetchHistoricalData host startDate endDate excluded w =
      (Ok found, extend w (storage w) evs 0 (length (requested evs))) ∧
    Forall fetcher_event evs ∧
    (length (logged evs) + length (pauses evs) = length (requested evs))%nat.
Proof.
  unfold fetchHistoricalData, Date.copy.
  destruct (fetchLoop_run host (λ _, True) (λ _, True)
              ltac:(intros; by apply Forall_true) ltac:(done)
              (turnsFor startDate endDate) endDate startDate
              {| newData := []; existingDates := excluded |} w I)
    as (found & evs & Hrun & _ & Hev & Hcount & _).
  by exists found, evs.
Qed.

Section TimerFacts.
Variable host : Host.

Lemma timers_app evs1 evs2 : timers (evs1 ++ evs2) = timers evs1 ++ timers evs2.
Proof. apply omap_app. Qed.

Lemma timers_loaded st : timers (loaded st).2 = [].
Proof. unfold loaded. by repeat case_match. Qed.

Lemma timers_reported existing error : timers (reported existing error) = [].
Proof. unfold reported. by destruct existing. Qed.

Lemma timers_fetcher evs : Forall fetcher_event evs → timers evs = [].
Proof. induction 1 as [|ev evs Hev _ IH]; [done|]. by destruct ev. Qed.

Lemma updateDisplayInfo_timers w :
  ∃ r evs, updateDisplayInfo host w = (r, extend w (storage w) evs 1 0) ∧ timers evs = [].
Proof.
  unfold updateDisplayInfo.
  erewrite bind_ok by apply loadStoredData_eq.
  erewrite bind_ok by apply new_Date_eq.
  pose proof (timers_loaded (storage w)) as Hq.
  unfold lift, bind. destruct (Date.toISOString _) as [iso|e].
  - rewrite emit_eq, !extend_extend. eexists _, _. split; [done|].
    by rewrite !timers_app, Hq.
  - rewrite !extend_extend. eexists _, _. split; [done|].
    by rewrite !timers_app, Hq.
Qed.

Lemma scheduleDailyFetch_timers w :
  ∃ r evs, scheduleDailyFetch host w = (r, extend w (storage w) evs 1 0) ∧
           timers evs = [msUntilNext (Some (clock host (clock_reads w)))].
Proof.
  unfold scheduleDailyFetch.
  erewrite bind_ok by apply new_Date_eq.
  erewrite bind_ok by apply emit_eq.
  unfold lift, bind, console_log. destruct (Date.toISOString _) as [iso|e].
  - rewrite emit_eq, !extend_extend. eexists _, _. split; [done|]. done.
  - rewrite !extend_extend. eexists _, _. split; [done|]. done.
Qed.

Lemma fetchAndStoreData_timers existing w :
  ∃ st evs reads k,
    fetchAndStoreData host existing w = (Ok tt, extend w st evs reads k) ∧
    timers evs = [] ∧ (1 ≤ reads ≤ 2)%nat.
Proof.
  assert (∃ found evs,
            fetchHistoricalData host (Date.of_string START_DATE)
              (Some (clock host (clock_reads w))) (list_to_set (date <$> existing))
              (extend w (storage w) [fetching] 1 0) =
              (Ok found, extend (extend w (storage w) [fetching] 1 0) (storage w) evs 0
                           (length (requested evs))) ∧
            timers evs = []) as (found & evs & Hf & Hev).
  { unfold fetchHistoricalData, Date.copy.
    destruct (fetchLoop_run host (λ _, True) (λ _, True)
                ltac:(intros; by apply Forall_true) ltac:(done)
                (turnsFor (Date.of_string START_DATE) (Some (clock host (clock_reads w))))
                (Some (clock host (clock_reads w))) (Date.of_string START_DATE)
                {| newData := []; existingDates := list_to_set (date <$> existing) |}
                (extend w (storage w) [fetching] 1 0) I)
      as (found & evs & Hrun & _ & Hev%timers_fetcher & _).
    by exists found, evs. }
  destruct (Storage.setItem (storage w) STORAGE_KEY
              (JSON_stringify (mergeData existing (newData found)))) as [st|error] eqn:Hset.
  - unfold fetchAndStoreData, try_.
    erewrite bind_ok by apply emit_eq.
    erewrite bind_ok by apply new_Date_eq.
    rewrite extend_extend.
    erewrite bind_ok by exact Hf.
    rewrite extend_extend.
    erewrite bind_ok by (apply setItem_ok; exact Hset).
    erewrite bind_ok by apply emit_eq.
    erewrite bind_ok by apply emit_eq.
    rewrite !extend_extend. cbn [storage extend].
    edestruct updateDisplayInfo_timers as (r & evs' & -> & Hq).
    destruct r as [[]|e].
    + rewrite extend_extend. eexists _, _, _, _. split; [reflexivity|].
      split; [|lia]. by rewrite !timers_app, Hev, Hq.
    + rewrite catch_eq, !extend_extend. eexists _, _, _, _. split; [reflexivity|].
      split; [|lia]. by rewrite !timers_app, Hev, Hq, timers_reported.
  - erewrite fetchAndStoreData_full by done. eexists _, _, _, _. split; [reflexivity|].
    split; [|lia]. by rewrite !timers_app, Hev, timers_reported.
Qed.

End TimerFacts.

(** X22.  For a stored series, every run of
    [initializeApp] schedules the daily fetch exactly once, whether or not
    it has fetched and whether or not the fetch or the write has failed:
    [scheduleDailyFetch] arms its timer once, with the delay computed from
    a clock reading taken after the cycle, and nothing else of the run
    arms such a timer. *)
Theorem page_load_schedules_once (host : Host) (w : World) (existing : Series) :
  series_of_value (loaded (storage w)).1 = Some existing →
  ∃ r st evs reads k n,
    initializeApp host w = (r, extend w st evs reads k) ∧
    timers evs = [msUntilNext (Some (clock host n))] ∧
    (clock_reads w < n < clock_reads w + reads)%nat ∧ (reads ≤ 5)%nat.
Proof.
  intros Hser. unfold initializeApp.
  erewrite bind_ok by apply emit_eq.
  erewrite bind_ok by apply loadStoredData_eq.
  erewrite bind_ok by apply new_Date_eq.
  rewrite !extend_extend. cbn [storage extend clock_reads Nat.add].
  assert (isoDate (Some (clock host (clock_reads w))) =
          Ok (todayAt (clock host (clock_reads w)))) as Htoday.
  { unfold todayAt. destruct (isoDate _) as [d|e] eqn:Hd; [done|].
    unfold isoDate in Hd.
    destruct (DateFacts.toISOString_head (clock host (clock_reads w))) as (c & l & _ & Heq).
    by rewrite Heq in Hd. }
  unfold lift at 1. erewrite bind_ok by (rewrite Htoday; reflexivity).
  unfold as_series at 1. rewrite Hser. erewrite bind_ok by reflexivity.
  pose proof (timers_loaded (storage w)) as Hl.
  match goal with
  | |- context [bind ?m _ ?w0] =>
      assert (∃ st evs reads k,
                m w0 = (Ok tt, extend w0 st evs reads k) ∧ timers evs = [] ∧ (reads ≤ 2)%nat)
        as (st & evs1 & reads1 & k1 & Hm & Ht1 & Hreads1)
  end.
  { destruct (needsFetch _ _).
    - edestruct fetchAndStoreData_timers as (st & evs & reads & k & -> & Ht & Hr).
      eexists _, _, _, _. split; [reflexivity|]. split; [done|lia].
    - erewrite bind_ok by apply emit_eq. unfold updateStatus. rewrite emit_eq, extend_extend.
      eexists _, _, _, _. split; [reflexivity|]. split; [done|lia]. }
  erewrite bind_ok by exact Hm. rewrite extend_extend.
  edestruct scheduleDailyFetch_timers as (r2 & evs2 & Hs2 & Ht2).
  destruct r2 as [[]|e2].
  - erewrite bind_ok by exact Hs2.
    edestruct updateDisplayInfo_timers as (r3 & evs3 & -> & Ht3).
    rewrite !extend_extend. cbn [storage extend clock_reads] in *.
    eexists _, _, _, _, _, _. split; [reflexivity|].
    rewrite !timers_app, Hl, Ht1, Ht2, Ht3. cbn. split; [reflexivity|]. lia.
  - erewrite bind_throw by exact Hs2.
    rewrite !extend_extend. cbn [storage extend clock_reads] in *.
    eexists _, _, _, _, _, _. split; [reflexivity|].
    rewrite !timers_app, Hl, Ht1, Ht2. cbn. split; [reflexivity|]. lia.
Qed.

Lemma page_load_schedules_once_witness :
  let existing := [Point "2026-01-01" "1.000000"; Point "2026-01-02" "2.000000"] in
  let host := host_at 1767448800000 [] in
  let w := world_with {[STORAGE_KEY := JSON_stringify existing]} in
  series_of_value (loaded (storage w)).1 = Some existing ∧
  (∃ r st evs reads k n,
     initializeApp host w = (r, extend w st evs reads k) ∧
     timers evs = [msUntilNext (Some (clock host n))]) ∧
  timers (events (initializeApp host w).2) = [Some 36000000].
Proof.
  intros existing host w.
  assert (series_of_value (loaded (storage w)).1 = Some existing) as Hser
    by (vm_compute; reflexivity).
  split; [exact Hser|]. split.
  - destruct (page_load_schedules_once host w existing Hser)
      as (r & st & evs & reads & k & n & Hrun & Ht & _).
    exists r, st, evs, reads, k, n. exact (conj Hrun Ht).
  - vm_compute. reflexivity.
Defined.

(** ** Prices read back *)

(** A price the fetcher has written is shown as it is stored. *)
Lemma written_price_shown (host : Host) (s : string) :
  written_price host s →
  Num.toFixed (Number_toString host) (Num.parseFloat s) 6 = s.
Proof.
  intros (m & e & Hm & Hlt & Hn & ->).
  rewrite toFixed_render6 by done.
  rewrite parseFloat_render6 by by apply millionths_nonneg.
  destruct (millionths_binary64 (millionths m e)) as (m' & e' & -> & Hm' & Hlt' & Heq).
  { split; [by apply millionths_nonneg|done]. }
  rewrite toFixed_render6 by done. by rewrite Heq.
Qed.

(** X23.  The table shows the prices as they are
    stored, where they are as the fetcher writes them, [toFixed(6)] of a
    finite Number that is not negative, of fewer than [2^52] millionths:
    [parseFloat] of such a text is a Number that [toFixed(6)] prints as the
    same text, so each row holds the date and the price of its point,
    unchanged. *)
Theorem table_shows_stored_prices (host : Host) (data : Series) :
  Forall (λ p, written_price host (price p)) data →
  tableRows host data =
  (λ item, (date item, price item)) <$> JSArray.sort byDateDesc data.
Proof.
  intros Hw. unfold tableRows. apply Forall_fmap_ext_1.
  rewrite (sort_perm byDateDesc data).
  eapply Forall_impl; [exact Hw|]. intros p Hp. cbn beta.
  by rewrite written_price_shown.
Qed.

Lemma table_shows_stored_prices_witness :
  let host := host_at 0 [] in
  let data := [Point "2026-01-01" (Num.toFixed (Number_toString host) (Num.parseFloat "0.1") 6);
               Point "2026-01-02"
                 (Num.toFixed (Number_toString host) (Num.parseFloat "4503599626.9999995") 6)] in
  Forall (λ p, written_price host (price p)) data ∧
  data = [Point "2026-01-01" "0.100000"; Point "2026-01-02" "4503599626.999999"] ∧
  tableRows host data =
    [("2026-01-02", "4503599626.999999"); ("2026-01-01", "0.100000")]%string.
Proof.
  intros host data.
  assert (Forall (λ p, written_price host (price p)) data) as Hw.
  { repeat constructor.
    - exists 7205759403792794, (-56). split; [done|]. split; [by vm_compute|].
      split; [by vm_compute|]. vm_compute. reflexivity.
    - exists 4722366482481151, (-20). split; [done|]. split; [by vm_compute|].
      split; [by vm_compute|]. vm_compute. reflexivity. }
  split; [exact Hw|]. split; [vm_compute; reflexivity|].
  rewrite (table_shows_stored_prices host data Hw). vm_compute. reflexivity.
Defined.
